(** * Streamex: the client-side rate-limit coordinator

    A shallow embedding of [frontend/src/lib/utils.js] (class
    [RateLimitHandler]) and of the channel cache of
    [frontend/src/pages/ChatPage.jsx].

    Conventions of the embedding.
    - JavaScript strings are modelled as Rocq strings of ASCII
      characters; [toLowerCase] maps 'A'..'Z' to 'a'..'z'.
    - [Map] objects with string keys are [gmap string _], the [Set] of
      blocked keys is a [gset string].
    - [Date.now()] is an explicit argument [now : Z] (milliseconds) of the
      synchronous gates; the asynchronous coordinator reads it from the
      [clock] of the run-time state.
    - JavaScript numbers are binary64 floating-point numbers.  Integers
      (times, counts) are modelled as [Z] or [nat], the other numbers
      (delays in milliseconds) as the rationals they denote, and the
      result of an operation that can be inexact is rounded by
      [binary64].  [Math.random()] is an explicit argument [rnd : Q].
    - What the surroundings decide (the outcome and duration of the wrapped
      operation, the random draws, the scheduling latency of timers) is
      collected in a [World]; the coordinator is a function of it.
    - One task runs at a time: while a call of the coordinator is
      suspended, the handler is changed only by the timers that unblock
      keys, and the wrapped operation does not call the handler.
      [executeWithRetryAmid] lifts this restriction for the coordinator: it
      takes what the other tasks do to the handler during each suspension
      as an argument.  The cleanup of the call page is given step by step,
      from one suspension to the next.
    - The rest of [utils.js] (status, reset, connection utilities), the
      video clients, the cleanup and the error handler of [ChatPage.jsx],
      the call page [CallPage.jsx] with [useAuthUser.js], and the request
      counter of [backend/src/controllers/chat.controller.js] follow in
      modules of their own.  What an SDK or the browser decides is an
      argument of the function that depends on it; an exception is an
      error object with a message. *)

From Stdlib Require Import ZArith QArith Qround Qpower Lqa Lia Bool Ascii String List.
From stdpp Require Import gmap strings list.

Local Open Scope string_scope.

(** ** Strings *)

(** [s.startsWith(search)] *)
Fixpoint startsWith (s search : string) {struct search} : bool :=
  match search with
  | EmptyString => true
  | String c search' =>
      match s with
      | EmptyString => false
      | String d s' => Ascii.eqb c d && startsWith s' search'
      end
  end.

(** [s.includes(search)] *)
Fixpoint includes (s search : string) : bool :=
  startsWith s search ||
  match s with
  | EmptyString => false
  | String _ s' => includes s' search
  end.

Definition lowerAscii (c : ascii) : ascii :=
  let n := nat_of_ascii c in
  if (65 <=? n)%nat && (n <=? 90)%nat then ascii_of_nat (n + 32) else c.

(** [s.toLowerCase()] *)
Fixpoint toLowerCase (s : string) : string :=
  match s with
  | EmptyString => EmptyString
  | String c s' => String (lowerAscii c) (toLowerCase s')
  end.

(** The template literal [`${userId}-${operation}`]. *)
Definition opKey (userId operation : string) : string :=
  userId ++ "-" ++ operation.

(** The template literal [`${userId}-ws-${type}`]. *)
Definition wsKey (userId type : string) : string :=
  userId ++ "-ws-" ++ type.

(** ** Errors and their classification *)

(** What the classifier reads of a thrown value: its [message] and the
    result of its [toString()]. *)
Record JsError := mkJsError {
  message : string;
  toString : string
}.

(** [new Error(msg)] *)
Definition newError (msg : string) : JsError :=
  {| message := msg; toString := "Error: " ++ msg |}.

(** The double-quote character (code 34) of the fourth indicator. *)
Definition dquote : ascii := ascii_of_nat 34.

Definition rateLimitIndicators : list string :=
  [ "too many requests";
    "rate limit";
    "error code 9";
    "statuscode" ++ String dquote ":429";
    "status code 429";
    "getorcreatechannel failed";
    "quota exceeded";
    "limit exceeded" ].

Definition wsErrorIndicators : list string :=
  [ "websocket";
    "ws failed";
    "connection failed";
    "code: 1006";
    "joinresponse";
    "timed out";
    "network error";
    "connection closed";
    "sfu";
    "coordinator" ].

(** [indicators.some(i => errorMessage.includes(i) || errorString.includes(i))] *)
Definition matchesAny (indicators : list string) (error : JsError) : bool :=
  let errorMessage := toLowerCase (message error) in
  let errorString := toLowerCase (toString error) in
  existsb (fun indicator =>
             includes errorMessage indicator || includes errorString indicator)
          indicators.

Definition isRateLimitError (error : JsError) : bool :=
  matchesAny rateLimitIndicators error.

Definition isWebSocketError (error : JsError) : bool :=
  matchesAny wsErrorIndicators error.

(** ** The handler state *)

(** [{ count, firstAttempt }] *)
Record Attempts := mkAttempts {
  count : nat;
  firstAttempt : Z
}.

Record RateLimitHandler := mkHandler {
  retryAttempts : gmap string nat;
  lastRequestTime : gmap string Z;
  connectionAttempts : gmap string Attempts;
  blockedOperations : gset string
}.

(** [this.minRequestInterval = 2000], never reassigned. *)
Definition minRequestInterval : Z := 2000.

(** [new RateLimitHandler()] *)
Definition newHandler : RateLimitHandler :=
  {| retryAttempts := ∅; lastRequestTime := ∅;
     connectionAttempts := ∅; blockedOperations := ∅ |}.

Definition setRetryAttempts (m : gmap string nat) (h : RateLimitHandler) :=
  {| retryAttempts := m; lastRequestTime := lastRequestTime h;
     connectionAttempts := connectionAttempts h;
     blockedOperations := blockedOperations h |}.

Definition setLastRequestTime (m : gmap string Z) (h : RateLimitHandler) :=
  {| retryAttempts := retryAttempts h; lastRequestTime := m;
     connectionAttempts := connectionAttempts h;
     blockedOperations := blockedOperations h |}.

Definition setConnectionAttempts (m : gmap string Attempts) (h : RateLimitHandler) :=
  {| retryAttempts := retryAttempts h; lastRequestTime := lastRequestTime h;
     connectionAttempts := m;
     blockedOperations := blockedOperations h |}.

Definition setBlockedOperations (b : gset string) (h : RateLimitHandler) :=
  {| retryAttempts := retryAttempts h; lastRequestTime := lastRequestTime h;
     connectionAttempts := connectionAttempts h;
     blockedOperations := b |}.

(** ** Numbers *)

(** Rounding to the nearest binary64 number, for the values that occur
    here (neither overflow nor subnormal numbers). *)

(** The integer nearest to [q]; the even one of the two when [q] lies half
    way between them. *)
Definition roundHalfEven (q : Q) : Z :=
  let f := Qfloor q in
  match (q - inject_Z f ?= 1 # 2)%Q with
  | Lt => f
  | Eq => if Z.even f then f else (f + 1)%Z
  | Gt => (f + 1)%Z
  end.

(** For [q > 0], the exponent [e] of the unit in the last place of a
    significand of 53 bits: [2 ^ (e + 52) <= q < 2 ^ (e + 53)]. *)
Definition ulpExponent (q : Q) : Z :=
  let e := (Z.log2 (Qnum q) - Z.log2 (Zpos (Qden q)) - 52)%Z in
  if Qle_bool (2 ^ (e + 52)) q then e else (e - 1)%Z.

Definition roundPositive (q : Q) : Q :=
  let e := ulpExponent q in
  (inject_Z (roundHalfEven (q / 2 ^ e)) * 2 ^ e)%Q.

(** The binary64 number nearest to [q], ties to even. *)
Definition binary64 (q : Q) : Q :=
  match Qnum q with
  | Z0 => 0%Q
  | Zpos _ => roundPositive q
  | Zneg _ => (- roundPositive (- q))%Q
  end.

(** ** Backoff *)

(** [calculateBackoffDelay(attempt)]; [rnd] is the value of [Math.random()].
    [baseDelay * Math.pow(2, attempt)] is 2000 times a power of two, which
    is exact (or [Infinity], from attempt 1014 on), so that [delay] is the
    integer below; the jitter and the sum are rounded. *)
Definition calculateBackoffDelay (attempt : nat) (rnd : Q) : Q :=
  let baseDelay := 2000%Z in
  let maxDelay := 60000%Z in
  let delay := Z.min (baseDelay * 2 ^ Z.of_nat attempt) maxDelay in
  binary64 (inject_Z delay + binary64 (rnd * 1000)).

(** ** The rate limit gate *)

(** Names that every object literal inherits from [Object.prototype]:
    [intervals[operation]] is then a function or an object, which is truthy
    and compares as NaN. *)
Definition objectPrototypeMembers : list string :=
  [ "constructor"; "toString"; "toLocaleString"; "valueOf";
    "hasOwnProperty"; "isPrototypeOf"; "propertyIsEnumerable";
    "__proto__"; "__defineGetter__"; "__defineSetter__";
    "__lookupGetter__"; "__lookupSetter__" ].

(** [intervals[operation] || this.minRequestInterval]: [Some ms] when it is
    a number of milliseconds, [None] when it is not a number. *)
Definition intervalFor (operation : string) : option Z :=
  if String.eqb operation "video-call" then Some 5000%Z
  else if String.eqb operation "channel-create" then Some 3000%Z
  else if String.eqb operation "user-connect" then Some 4000%Z
  else if String.eqb operation "send-message" then Some 1000%Z
  else if String.eqb operation "default" then Some minRequestInterval
  else if existsb (String.eqb operation) objectPrototypeMembers then None
  else Some minRequestInterval.

(** [lastRequest && (now - lastRequest) < interval] *)
Definition tooSoon (now : Z) (lastRequest : option Z) (interval : option Z) : bool :=
  match lastRequest, interval with
  | Some l, Some i => negb (l =? 0)%Z && (now - l <? i)%Z
  | _, _ => false
  end.

(** [shouldRateLimit(userId, operation)] at time [now]. *)
Definition shouldRateLimit (now : Z) (userId operation : string)
    (h : RateLimitHandler) : bool * RateLimitHandler :=
  let key := opKey userId operation in
  let lastRequest := lastRequestTime h !! key in
  if decide (key ∈ blockedOperations h) then (true, h)
  else
    let interval := intervalFor operation in
    if tooSoon now lastRequest interval then (true, h)
    else (false, setLastRequestTime (<[key := now]> (lastRequestTime h)) h).

(** ** The WebSocket attempt gate *)

(** [shouldRateLimitWebSocket(userId, type)] at time [now]. *)
Definition shouldRateLimitWebSocket (now : Z) (userId type : string)
    (h : RateLimitHandler) : bool * RateLimitHandler :=
  let key := wsKey userId type in
  let attempts :=
    default {| count := 0; firstAttempt := now |} (connectionAttempts h !! key) in
  if (300000 <? now - firstAttempt attempts)%Z then
    (false, setConnectionAttempts (delete key (connectionAttempts h)) h)
  else if (5 <=? count attempts)%nat then (true, h)
  else
    (false,
     setConnectionAttempts
       (<[key := {| count := S (count attempts);
                    firstAttempt := firstAttempt attempts |}]>
          (connectionAttempts h)) h).

(** ** The surroundings and the run-time state *)

(** A resolved value is a reference to a JavaScript object: two values are
    the same object exactly when the references are equal. *)
Definition Value := nat.

(** How a promise settles. *)
Inductive Outcome :=
  | Resolved (v : Value)
  | Rejected (e : JsError).

(** What the handler does not decide: the [k]-th value of [Math.random()],
    the time by which the [k]-th [setTimeout] of [sleep] fires late, and
    the duration and outcome of the [k]-th invocation of the wrapped
    operation. *)
Record World := mkWorld {
  random : nat -> Q;
  latency : nat -> Z;
  operation : nat -> Z * Outcome
}.

(** The handler together with the event loop: the clock read by
    [Date.now()], the pending [setTimeout] callbacks that unblock a key
    (deadline and key), and counters of what has happened so far.
    [invocations] and [retries] are instrumentation: the number of calls of
    the wrapped operation and of recursive calls of [executeWithRetry]. *)
Record Runtime := mkRuntime {
  handler : RateLimitHandler;
  clock : Z;
  timers : list (Z * string);
  draws : nat;
  sleeps : nat;
  invocations : nat;
  retries : nat
}.

Definition newRuntime (now : Z) : Runtime :=
  {| handler := newHandler; clock := now; timers := [];
     draws := 0; sleeps := 0; invocations := 0; retries := 0 |}.

Definition setHandler (h : RateLimitHandler) (rt : Runtime) : Runtime :=
  {| handler := h; clock := clock rt; timers := timers rt;
     draws := draws rt; sleeps := sleeps rt;
     invocations := invocations rt; retries := retries rt |}.

(** Runs a synchronous method of the handler at the current time. *)
Definition atNow {A} (f : Z -> RateLimitHandler -> A * RateLimitHandler)
    (rt : Runtime) : A * Runtime :=
  let '(a, h) := f (clock rt) (handler rt) in (a, setHandler h rt).

(** The callbacks [() => this.blockedOperations.delete(key)] that are due. *)
Definition fireDue (now : Z) (pending : list (Z * string))
    (blocked : gset string) : gset string :=
  foldr (fun t b => if (t.1 <=? now)%Z then b ∖ {[ t.2 ]} else b) blocked pending.

(** Time passes while the task is suspended: due timers run. *)
Definition advance (dt : Z) (rt : Runtime) : Runtime :=
  let now := (clock rt + dt)%Z in
  {| handler :=
       setBlockedOperations
         (fireDue now (timers rt) (blockedOperations (handler rt))) (handler rt);
     clock := now;
     timers := filter (fun t => (now < t.1)%Z) (timers rt);
     draws := draws rt; sleeps := sleeps rt;
     invocations := invocations rt; retries := retries rt |}.

(** [Math.random()] *)
Definition drawRandom (w : World) (rt : Runtime) : Q * Runtime :=
  (random w (draws rt),
   {| handler := handler rt; clock := clock rt; timers := timers rt;
      draws := S (draws rt); sleeps := sleeps rt;
      invocations := invocations rt; retries := retries rt |}).

(** [isSystemOverloaded()] *)
Definition isSystemOverloaded (h : RateLimitHandler) : bool :=
  let totalAttempts :=
    map_fold (fun _ val sum => (sum + val)%nat) 0%nat (retryAttempts h) in
  let totalBlocked := size (blockedOperations h) in
  (50 <? totalAttempts)%nat || (10 <? totalBlocked)%nat.

(** [await sleep(ms)]: [setTimeout] truncates the delay to whole
    milliseconds and fires no earlier than that. *)
Definition sleep (w : World) (ms : Q) (rt : Runtime) : Runtime :=
  let ms :=
    if isSystemOverloaded (handler rt) then binary64 (ms * (3 # 2)) else ms in
  let k := sleeps rt in
  advance (Z.max 0 (Qfloor ms) + latency w k)
    {| handler := handler rt; clock := clock rt; timers := timers rt;
       draws := draws rt; sleeps := S k;
       invocations := invocations rt; retries := retries rt |}.

(** [await operation()] *)
Definition invoke (w : World) (rt : Runtime) : Outcome * Runtime :=
  let '(duration, outcome) := operation w (invocations rt) in
  (outcome,
   advance duration
     {| handler := handler rt; clock := clock rt; timers := timers rt;
        draws := draws rt; sleeps := sleeps rt;
        invocations := S (invocations rt); retries := retries rt |}).

(** [this.blockedOperations.add(key)] and the [setTimeout] that removes the
    key after 300000 ms. *)
Definition blockKey (key : string) (rt : Runtime) : Runtime :=
  {| handler :=
       setBlockedOperations ({[ key ]} ∪ blockedOperations (handler rt)) (handler rt);
     clock := clock rt;
     timers := timers rt ++ [((clock rt + 300000)%Z, key)];
     draws := draws rt; sleeps := sleeps rt;
     invocations := invocations rt; retries := retries rt |}.

Definition countRetry (rt : Runtime) : Runtime :=
  {| handler := handler rt; clock := clock rt; timers := timers rt;
     draws := draws rt; sleeps := sleeps rt;
     invocations := invocations rt; retries := S (retries rt) |}.

Definition wsLimitError : JsError :=
  newError "WebSocket connection rate limit exceeded. Please wait 5 minutes.".
Definition videoFailedError : JsError :=
  newError "Video connection failed. Please refresh the page and try again.".
Definition rateLimitExceededError : JsError :=
  newError "Rate limit exceeded. Please wait 5 minutes before trying again.".

(** [this.retryAttempts.get(key) || 0] *)
Definition attemptOf (h : RateLimitHandler) (key : string) : nat :=
  default 0 (retryAttempts h !! key).

(** ** The retry coordinator *)

(** The block "Special handling for WebSocket operations": the WebSocket
    gate is consulted for operation types that mention video or connect. *)
Definition wsGuard (userId operationType : string) (rt : Runtime)
    : bool * Runtime :=
  if includes operationType "video" || includes operationType "connect"
  then atNow (fun now => shouldRateLimitWebSocket now userId operationType) rt
  else (false, rt).

(** The block "Check rate limit before attempting": when the gate says so,
    the task sleeps for the backoff delay of the stored attempt count. *)
Definition throttle (w : World) (userId operationType : string)
    (attempt : nat) (rt : Runtime) : Runtime :=
  let '(limited, rt) :=
    atNow (fun now => shouldRateLimit now userId operationType) rt in
  if limited then
    let '(rnd, rt) := drawRandom w rt in
    sleep w (calculateBackoffDelay attempt rnd) rt
  else rt.

(** The success path: the retry count and the block of the key are removed. *)
Definition resetKey (key : string) (rt : Runtime) : Runtime :=
  let h := handler rt in
  let h := setRetryAttempts (delete key (retryAttempts h)) h in
  let h := setBlockedOperations (blockedOperations h ∖ {[ key ]}) h in
  setHandler h rt.

(** The retry path up to the recursive call: the incremented count is
    stored and the task sleeps for the backoff delay, doubled for a
    WebSocket error. *)
Definition backOff (w : World) (key : string) (attempt : nat)
    (error : JsError) (rt : Runtime) : Runtime :=
  let h := handler rt in
  let rt :=
    setHandler (setRetryAttempts (<[key := attempt]> (retryAttempts h)) h) rt in
  let '(rnd, rt) := drawRandom w rt in
  let delay := calculateBackoffDelay attempt rnd in
  let delay := if isWebSocketError error then binary64 (delay * 2) else delay in
  sleep w delay rt.

(** The error thrown once the retries are used up. *)
Definition terminalError (error : JsError) : JsError :=
  if isWebSocketError error then videoFailedError else rateLimitExceededError.

(** [executeWithRetry(operation, userId, operationType, maxRetries)]; the
    operation is the one of the world [w].  [fuel] bounds the depth of the
    recursion. *)
Fixpoint executeWithRetryFuel (fuel : nat) (w : World)
    (userId operationType : string) (maxRetries : nat) (rt : Runtime)
    : option (Outcome * Runtime) :=
  match fuel with
  | O => None
  | S fuel' =>
    let key := opKey userId operationType in
    let attempt := attemptOf (handler rt) key in
    let '(wsLimited, rt) := wsGuard userId operationType rt in
    if wsLimited then Some (Rejected wsLimitError, rt)
    else
      let rt := throttle w userId operationType attempt rt in
      let '(outcome, rt) := invoke w rt in
      match outcome with
      | Resolved result => Some (Resolved result, resetKey key rt)
      | Rejected error =>
          if isRateLimitError error || isWebSocketError error then
            if (attempt <? maxRetries)%nat then
              let attempt := S attempt in
              let rt := backOff w key attempt error rt in
              executeWithRetryFuel fuel' w userId operationType maxRetries
                (countRetry rt)
            else
              let rt := blockKey key rt in
              Some (Rejected (terminalError error), rt)
          else Some (Rejected error, rt)
      end
  end.

(** An external call: the recursion is at most [maxRetries] deep. *)
Definition executeWithRetry (w : World) (userId operationType : string)
    (maxRetries : nat) (rt : Runtime) : option (Outcome * Runtime) :=
  executeWithRetryFuel (S maxRetries) w userId operationType maxRetries rt.

(** ** Clearing the entries of a user *)

(** [clearUserAttempts(userId)].  The loops run over the keys of the maps;
    deleting the current key of a [Map] or [Set] while iterating over it
    does not disturb the iteration, and the result does not depend on the
    order of the keys. *)
Definition clearUserAttempts (userId : string) (h : RateLimitHandler)
    : RateLimitHandler :=
  let keysToDelete :=
    (List.filter (fun key => startsWith key userId)
                 (map fst (map_to_list (retryAttempts h))) ++
     List.filter (fun key => startsWith key userId)
                 (map fst (map_to_list (lastRequestTime h))))%list in
  let blocked :=
    foldr (fun key b => if startsWith key userId then b ∖ {[ key ]} else b)
          (blockedOperations h) (elements (blockedOperations h)) in
  let connections :=
    foldr (fun key m => if startsWith key userId then delete key m else m)
          (connectionAttempts h)
          (map fst (map_to_list (connectionAttempts h))) in
  {| retryAttempts := foldr delete (retryAttempts h) keysToDelete;
     lastRequestTime := foldr delete (lastRequestTime h) keysToDelete;
     connectionAttempts := connections;
     blockedOperations := blocked |}.

(** ** The coordinator among other tasks *)

(** What other tasks do to the handler while a call is suspended:
    [others k h] is the handler that the call finds when it resumes from
    its [k]-th suspension, having left the handler [h].  The suspensions
    of a call are its sleeps and its invocations of the operation. *)
Definition Others := nat -> RateLimitHandler -> RateLimitHandler.

(** The number of suspensions so far. *)
Definition suspensions (rt : Runtime) : nat := (sleeps rt + invocations rt)%nat.

(** The call resumes in [after], having been suspended in [before] if a
    sleep or an invocation lies between the two: the other tasks have
    run. *)
Definition resume (others : Others) (before after : Runtime) : Runtime :=
  if (suspensions before <? suspensions after)%nat
  then setHandler (others (suspensions before) (handler after)) after
  else after.

(** [executeWithRetry] as in [executeWithRetryFuel], with the other tasks
    running at each [await].  The attempt count is read once, at the start
    of each call, and kept in the local variable [attempt]. *)
Fixpoint executeWithRetryAmid (others : Others) (fuel : nat) (w : World)
    (userId operationType : string) (maxRetries : nat) (rt : Runtime)
    : option (Outcome * Runtime) :=
  match fuel with
  | O => None
  | S fuel' =>
    let key := opKey userId operationType in
    let attempt := attemptOf (handler rt) key in
    let '(wsLimited, rt) := wsGuard userId operationType rt in
    if wsLimited then Some (Rejected wsLimitError, rt)
    else
      let rt := resume others rt (throttle w userId operationType attempt rt) in
      let '(outcome, rt') := invoke w rt in
      let rt := resume others rt rt' in
      match outcome with
      | Resolved result => Some (Resolved result, resetKey key rt)
      | Rejected error =>
          if isRateLimitError error || isWebSocketError error then
            if (attempt <? maxRetries)%nat then
              let attempt := S attempt in
              let rt := resume others rt (backOff w key attempt error rt) in
              executeWithRetryAmid others fuel' w userId operationType maxRetries
                (countRetry rt)
            else
              let rt := blockKey key rt in
              Some (Rejected (terminalError error), rt)
          else Some (Rejected error, rt)
      end
  end.

(** No other task touches the handler. *)
Definition alone : Others := fun _ h => h.

(** Another task clears the entries of [userId] during suspension [n], as
    [cleanupConnection] does. *)
Definition clearsAt (n : nat) (userId : string) : Others :=
  fun k h => if (k =? n)%nat then clearUserAttempts userId h else h.

(** The other tasks never lower the stored attempt count of [key]. *)
Definition keepsCount (others : Others) (key : string) : Prop :=
  forall k h, attemptOf h key <= attemptOf (others k h) key.

(** ** The channel cache of the chat page *)

Module ChatPage.

(** The module-level [channelCache] next to the global handler. *)
Record Page := mkPage {
  channelCache : gmap string Value;
  runtime : Runtime
}.

(** [getOrCreateChannel(client, channelId, members)] for the signed-in
    user [authUserId]; the operation of the world is [channelOperation]
    (create the channel and watch it). *)
Definition getOrCreateChannel (w : World) (authUserId channelId : string)
    (page : Page) : option (Outcome * Page) :=
  match channelCache page !! channelId with
  | Some channel => Some (Resolved channel, page)
  | None =>
      match executeWithRetry w authUserId "channel-create" 2 (runtime page) with
      | None => None
      | Some (Resolved channel, rt) =>
          Some (Resolved channel,
                {| channelCache := <[channelId := channel]> (channelCache page);
                   runtime := rt |})
      | Some (Rejected error, rt) =>
          Some (Rejected error,
                {| channelCache := channelCache page; runtime := rt |})
      end
  end.

End ChatPage.

(** ** Auxiliary notions for the statements *)

(** The WebSocket gate called once at each of the given times, in order. *)
Fixpoint callsWebSocketGate (times : list Z) (userId type : string)
    (h : RateLimitHandler) : list bool * RateLimitHandler :=
  match times with
  | [] => ([], h)
  | now :: rest =>
      let '(b, h) := shouldRateLimitWebSocket now userId type h in
      let '(bs, h) := callsWebSocketGate rest userId type h in
      (b :: bs, h)
  end.

(** What suspensions and the rate limit gate leave alone. *)
Definition sameLedger (rt rt' : Runtime) : Prop :=
  retryAttempts (handler rt') = retryAttempts (handler rt) /\
  connectionAttempts (handler rt') = connectionAttempts (handler rt) /\
  invocations rt' = invocations rt /\
  retries rt' = retries rt.

(** The state in which the wrapped operation has just settled, for a call
    that the WebSocket gate lets through. *)
Definition settled (w : World) (userId operationType : string) (rt : Runtime)
    : Runtime :=
  (invoke w
     (throttle w userId operationType
        (attemptOf (handler rt) (opKey userId operationType))
        (wsGuard userId operationType rt).2)).2.

(** The WebSocket gate will let [n] more calls through: either the
    operation type is not subject to it, or the counted attempts leave
    room for [n] more. *)
Definition wsRoom (n : nat) (userId operationType : string)
    (h : RateLimitHandler) : Prop :=
  includes operationType "video" || includes operationType "connect" = false \/
  (match connectionAttempts h !! wsKey userId operationType with
   | Some a => count a + n
   | None => n
   end <= 5)%nat.

(** A time of day in milliseconds since the epoch, for the examples. *)
Definition t0 : Z := 1700000000000.

(** An error as an HTTP client reports status 429. *)
Definition statusCode429Error : JsError :=
  newError "Request failed with status code 429".

(** A world whose operation always throws [error] after [duration] ms. *)
Definition alwaysThrows (duration : Z) (error : JsError) : World :=
  {| random := fun _ => 0%Q;
     latency := fun _ => 0%Z;
     operation := fun _ => (duration, Rejected error) |}.

(** A world whose operation throws [error] on its first [n] invocations and
    resolves with [v] from then on. *)
Definition throwsThenResolves (n : nat) (duration : Z) (error : JsError)
    (v : Value) : World :=
  {| random := fun _ => 0%Q;
     latency := fun _ => 0%Z;
     operation := fun k =>
       (duration, if (k <? n)%nat then Rejected error else Resolved v) |}.

(** ** The rest of the handler: status and reset *)

Definition upperAscii (c : ascii) : ascii :=
  let n := nat_of_ascii c in
  if (97 <=? n)%nat && (n <=? 122)%nat then ascii_of_nat (n - 32) else c.

(** [s.toUpperCase()] *)
Fixpoint toUpperCase (s : string) : string :=
  match s with
  | EmptyString => EmptyString
  | String c s' => String (upperAscii c) (toUpperCase s')
  end.

(** [str.charAt(0)]: the first character as a string, empty for the empty
    string. *)
Definition charAt0 (str : string) : string :=
  match str with
  | EmptyString => EmptyString
  | String c _ => String c EmptyString
  end.

(** [str.slice(1)] *)
Definition slice1 (str : string) : string :=
  match str with
  | EmptyString => EmptyString
  | String _ rest => rest
  end.

(** [capitialize(str)] (the name is the source's). *)
Definition capitialize (str : string) : string :=
  toUpperCase (charAt0 str) ++ slice1 str.

(** The object returned by [getUserStatus]; the field [blockedOperations]
    of the source is [blockedCount] here, the name being taken by the field
    of the handler. *)
Record UserStatus := mkUserStatus {
  activeRetries : nat;
  blockedCount : nat;
  wsConnections : nat;
  isOverloaded : bool
}.

(** [getUserStatus(userId)] *)
Definition getUserStatus (userId : string) (h : RateLimitHandler) : UserStatus :=
  let userKeys :=
    List.filter (fun key => startsWith key userId)
                (map fst (map_to_list (retryAttempts h))) in
  let blockedKeys :=
    List.filter (fun key => startsWith key userId)
                (elements (blockedOperations h)) in
  let wsKeys :=
    List.filter (fun key => startsWith key userId)
                (map fst (map_to_list (connectionAttempts h))) in
  {| activeRetries := length userKeys;
     blockedCount := length blockedKeys;
     wsConnections := length wsKeys;
     isOverloaded := isSystemOverloaded h |}.

(** [emergencyReset()]: the four collections are cleared. *)
Definition emergencyReset (h : RateLimitHandler) : RateLimitHandler :=
  setConnectionAttempts ∅
    (setBlockedOperations ∅
       (setLastRequestTime ∅ (setRetryAttempts ∅ h))).

(** Every stored WebSocket attempt count lies between 1 and 5. *)
Definition wsCountsBounded (h : RateLimitHandler) : Prop :=
  forall key a, connectionAttempts h !! key = Some a ->
                (1 <= count a <= 5)%nat.

(** What a call for [(userId, operationType)] may change: nothing that is
    stored under another key, except that a blocked key may become
    unblocked when its timer is due. *)
Definition touchesOnly (userId operationType : string) (rt rt' : Runtime) : Prop :=
  (forall k, k <> opKey userId operationType ->
     retryAttempts (handler rt') !! k = retryAttempts (handler rt) !! k /\
     lastRequestTime (handler rt') !! k = lastRequestTime (handler rt) !! k /\
     (k ∈ blockedOperations (handler rt') -> k ∈ blockedOperations (handler rt))) /\
  (forall k, k <> wsKey userId operationType ->
     connectionAttempts (handler rt') !! k = connectionAttempts (handler rt) !! k).

(** ** The chat page: channel ids, video clients and cleanup *)

(** [parts.join(sep)] *)
Fixpoint join (sep : string) (parts : list string) : string :=
  match parts with
  | [] => EmptyString
  | [part] => part
  | part :: rest => part ++ sep ++ join sep rest
  end.

(** [[a, b].sort()]: the default order of [sort] compares the strings by
    their character codes, and the two elements are swapped exactly when
    the first is greater than the second. *)
Definition sortPair (a b : string) : list string :=
  if String.ltb b a then [b; a] else [a; b].

(** [[authUser._id, targetUserId].sort().join("-")], the channel id of the
    chat page and of the [initializeChatUsers] controller. *)
Definition channelIdOf (authUserId targetUserId : string) : string :=
  join "-" (sortPair authUserId targetUserId).

(** A JavaScript value used as a condition: [null], [undefined] and the
    empty string are falsy. *)
Definition truthy (v : option string) : bool :=
  match v with
  | Some s => negb (String.eqb s "")
  | None => false
  end.

Module VideoClients.

(** What reading [existingClient.user] gives: the read may throw, or it
    gives the user of the client, if any, by its id. *)
Inductive UserRead :=
  | ReadThrows
  | UserIs (id : option string).

(** How making a client goes: the constructor throws, or [connectUser]
    rejects, or the client is connected. *)
Inductive Creation :=
  | ConstructorThrows (e : JsError)
  | ConnectRejects (client : Value) (e : JsError)
  | Connected (client : Value).

(** What the video SDK decides: the state of [client.user] and the outcome
    of the [k]-th creation of a client. *)
Record Sdk := mkSdk {
  userOf : Value -> UserRead;
  creation : nat -> Creation
}.

(** The module-level [videoClientMap] and the number of calls of the
    constructor so far (instrumentation). *)
Record State := mkState {
  videoClientMap : gmap string Value;
  constructed : nat
}.

(** [getOrCreateVideoClient(apiKey, user, token)] with [userId = user.id]. *)
Definition getOrCreateVideoClient (sdk : Sdk) (userId : string) (st : State)
    : Outcome * State :=
  let reuse :=
    match videoClientMap st !! userId with
    | Some existingClient =>
        match userOf sdk existingClient with
        | UserIs (Some id) =>
            if String.eqb id userId
            then (Some existingClient, st)
            else (None, st)
        | UserIs None => (None, st)
        | ReadThrows =>
            (None, {| videoClientMap := delete userId (videoClientMap st);
                      constructed := constructed st |})
        end
    | None => (None, st)
    end in
  match reuse with
  | (Some existingClient, st) => (Resolved existingClient, st)
  | (None, st) =>
      let st' := {| videoClientMap := videoClientMap st;
                    constructed := S (constructed st) |} in
      match creation sdk (constructed st) with
      | ConstructorThrows e => (Rejected e, st')
      | ConnectRejects _ e => (Rejected e, st')
      | Connected videoClient =>
          (Resolved videoClient,
           {| videoClientMap := <[userId := videoClient]> (videoClientMap st);
              constructed := S (constructed st) |})
      end
  end.

(** The listener of [connection.error] that every created client carries. *)
Definition onConnectionError (userId : string) (st : State) : State :=
  {| videoClientMap := delete userId (videoClientMap st);
     constructed := constructed st |}.

(** [disconnectVideoClient(userId)]: the clients on which [disconnectUser]
    is called (in the order of the keys of the map) and the state
    afterwards.  Errors of [disconnectUser] are logged and dropped. *)
Definition disconnectVideoClient (userId : option string) (st : State)
    : list Value * State :=
  if truthy userId then
    let id := default "" userId in
    match videoClientMap st !! id with
    | Some client =>
        ([client], {| videoClientMap := delete id (videoClientMap st);
                      constructed := constructed st |})
    | None => ([], st)
    end
  else
    (map snd (map_to_list (videoClientMap st)),
     {| videoClientMap := ∅; constructed := constructed st |}).

End VideoClients.

Module ChatSession.

(** The module-level variables of the chat page ([channelCache] and the
    handler inside [page], [videoClientMap], [globalStreamClient],
    [connectionPromise]), the ref [mountedRef] and the React state of the
    component. *)
Record Session := mkSession {
  page : ChatPage.Page;
  videoClients : VideoClients.State;
  globalStreamClient : option Value;
  connectionPromise : bool;
  mounted : bool;
  chatClient : option Value;
  channel : option Value;
  videoClient : option Value;
  connectionState : string;
  error : option string
}.

(** What the chat and video SDKs decide during a cleanup: how long
    [disconnectUser] of a video client takes, whether
    [globalStreamClient.user] is set, and how long [disconnectUser] of the
    chat client takes and whether it throws. *)
Record CleanupWorld := mkCleanupWorld {
  videoDisconnectTime : Z;
  chatHasUser : bool;
  chatDisconnectTime : Z;
  chatDisconnectError : option JsError
}.

Definition withRuntime (f : Runtime -> Runtime) (p : ChatPage.Page) : ChatPage.Page :=
  {| ChatPage.channelCache := ChatPage.channelCache p;
     ChatPage.runtime := f (ChatPage.runtime p) |}.

(** [getStreamClient()]; [fresh] is the object that [new StreamChat] would
    make. *)
Definition getStreamClient (fresh : Value) (s : Session) : Value * Session :=
  match globalStreamClient s with
  | Some client => (client, s)
  | None =>
      (fresh,
       {| page := page s; videoClients := videoClients s;
          globalStreamClient := Some fresh;
          connectionPromise := connectionPromise s; mounted := mounted s;
          chatClient := chatClient s; channel := channel s;
          videoClient := videoClient s;
          connectionState := connectionState s; error := error s |})
  end.

(** The first block of [cleanupConnection]: with a signed-in user, the
    rate limit data of the user is cleared and the video client of the user
    is disconnected. *)
Definition cleanupUser (cw : CleanupWorld) (authUserId : option string)
    (s : Session) : Session :=
  if truthy authUserId then
    let id := default "" authUserId in
    let cleared :=
      withRuntime (fun rt => setHandler (clearUserAttempts id (handler rt)) rt)
                  (page s) in
    let '(disconnected, clients) :=
      VideoClients.disconnectVideoClient (Some id) (videoClients s) in
    let waited :=
      match disconnected with
      | [] => cleared
      | _ => withRuntime (advance (videoDisconnectTime cw)) cleared
      end in
    {| page := waited; videoClients := clients;
       globalStreamClient := globalStreamClient s;
       connectionPromise := connectionPromise s; mounted := mounted s;
       chatClient := chatClient s; channel := channel s;
       videoClient := videoClient s;
       connectionState := connectionState s; error := error s |}
  else s.

(** [cleanupConnection()] for the signed-in user [authUserId]
    ([authUser?._id]).  An error of the chat client's [disconnectUser] is
    caught at the end of the function: what follows the call is skipped. *)
Definition cleanupConnection (cw : CleanupWorld) (authUserId : option string)
    (s : Session) : Session :=
  let s := cleanupUser cw authUserId s in
  let connected :=
    match globalStreamClient s with
    | Some _ => chatHasUser cw
    | None => false
    end in
  let s' :=
    if connected then
      {| page := withRuntime (advance (chatDisconnectTime cw)) (page s);
         videoClients := videoClients s;
         globalStreamClient := globalStreamClient s;
         connectionPromise := connectionPromise s; mounted := mounted s;
         chatClient := chatClient s; channel := channel s;
         videoClient := videoClient s;
         connectionState := connectionState s; error := error s |}
    else s in
  match (if connected then chatDisconnectError cw else None) with
  | Some _ => s'
  | None =>
      let p := {| ChatPage.channelCache := ∅;
                  ChatPage.runtime := ChatPage.runtime (page s') |} in
      if mounted s' then
        {| page := p; videoClients := videoClients s';
           globalStreamClient := None; connectionPromise := false;
           mounted := mounted s';
           chatClient := None; channel := None; videoClient := None;
           connectionState := "disconnected"; error := None |}
      else
        {| page := p; videoClients := videoClients s';
           globalStreamClient := None; connectionPromise := false;
           mounted := mounted s';
           chatClient := chatClient s'; channel := channel s';
           videoClient := videoClient s';
           connectionState := connectionState s'; error := error s' |}
  end.

End ChatSession.

(** ** The connection utilities *)

Module ConnectionUtils.

(** [navigator.connection]: both fields may be missing. *)
Record Connection := mkConnection {
  effectiveType : option string;
  downlink : option Q
}.

(** What the utilities read of [navigator]. *)
Record Navigator := mkNavigator {
  onLine : bool;
  connection : option Connection
}.

(** [value > bound]; a missing value is not greater than any bound. *)
Definition greater (value : option Q) (bound : Q) : bool :=
  match value with
  | Some q => negb (Qle_bool q bound)
  | None => false
  end.

(** [value === expected] *)
Definition isString (value : option string) (expected : string) : bool :=
  match value with
  | Some s => String.eqb s expected
  | None => false
  end.

(** [isNetworkStable()] *)
Definition isNetworkStable (nav : Navigator) : bool :=
  onLine nav &&
  match connection nav with
  | None => true
  | Some c => negb (isString (effectiveType c) "slow-2g")
  end.

(** [getConnectionQuality()] *)
Definition getConnectionQuality (nav : Navigator) : string :=
  match connection nav with
  | None => "unknown"
  | Some c =>
      if greater (downlink c) 10 || isString (effectiveType c) "4g" then "excellent"
      else if greater (downlink c) 1.5 || isString (effectiveType c) "3g" then "good"
      else if isString (effectiveType c) "2g" then "poor"
      else "very-poor"
  end.

(** What the browser decides during [waitForStableConnection]: the state of
    [navigator] at the [k]-th check, and by how many milliseconds the
    [k]-th timer of one second is late. *)
Record Browser := mkBrowser {
  navigatorAt : nat -> Navigator;
  timerLag : nat -> Z
}.

(** The loop of [waitForStableConnection]: the result, the time at the
    return and the number of checks made so far.  [fuel] bounds the number
    of rounds. *)
Fixpoint waitLoop (fuel : nat) (b : Browser) (timeout startTime now : Z)
    (checks : nat) : option (bool * Z * nat) :=
  match fuel with
  | O => None
  | S fuel' =>
      if (now - startTime <? timeout)%Z then
        if isNetworkStable (navigatorAt b checks)
        then Some (true, now, S checks)
        else waitLoop fuel' b timeout startTime
                      (now + (1000 + timerLag b checks))%Z (S checks)
      else Some (false, now, checks)
  end.

(** [waitForStableConnection(timeout)], called at the time [now]. *)
Definition waitForStableConnection (fuel : nat) (b : Browser) (timeout now : Z)
    : option (bool * Z * nat) :=
  waitLoop fuel b timeout now now 0.

(** The order of the four estimates, for the statements. *)
Definition qualityRank (quality : string) : nat :=
  if String.eqb quality "excellent" then 3
  else if String.eqb quality "good" then 2
  else if String.eqb quality "poor" then 1
  else 0.

End ConnectionUtils.

(** ** The request counter of the chat controller *)

Module ChatController.

(** [{ count, windowStart }] *)
Record Requests := mkRequests {
  count : nat;
  windowStart : Z
}.

Definition RATE_LIMIT_WINDOW : Z := 60000.
Definition MAX_REQUESTS_PER_MINUTE : nat := 10.

(** [checkRateLimit(userId)] at the time [now], with
    [userKey = userId.toString()]: the answer and [requestCounts]
    afterwards. *)
Definition checkRateLimit (now : Z) (userKey : string)
    (requestCounts : gmap string Requests) : bool * gmap string Requests :=
  match requestCounts !! userKey with
  | None =>
      (true, <[userKey := {| count := 1; windowStart := now |}]> requestCounts)
  | Some userRequests =>
      if (RATE_LIMIT_WINDOW <? now - windowStart userRequests)%Z then
        (true, <[userKey := {| count := 1; windowStart := now |}]> requestCounts)
      else if (count userRequests <? MAX_REQUESTS_PER_MINUTE)%nat then
        (true,
         <[userKey := {| count := S (count userRequests);
                         windowStart := windowStart userRequests |}]>
           requestCounts)
      else (false, requestCounts)
  end.

(** A sequence of calls, each by a user at a time: the number of calls of
    [userKey] that are admitted, and [requestCounts] at the end. *)
Fixpoint admitted (userKey : string) (calls : list (string * Z))
    (requestCounts : gmap string Requests) : nat * gmap string Requests :=
  match calls with
  | [] => (0, requestCounts)
  | (caller, now) :: rest =>
      let '(ok, requestCounts) := checkRateLimit now caller requestCounts in
      let '(n, requestCounts) := admitted userKey rest requestCounts in
      ((if ok && String.eqb caller userKey then S n else n), requestCounts)
  end.

(** The calls of [userKey] in a sequence of calls. *)
Definition callsOf (userKey : string) (calls : list (string * Z))
    : list (string * Z) :=
  List.filter (fun c => String.eqb c.1 userKey) calls.

End ChatController.

(** ** The call page *)

Module CallPage.

(** The signed-in user as the server sends it; [profilePic] may be
    missing. *)
Record AuthUser := mkAuthUser {
  _id : string;
  fullName : string;
  profilePic : option string
}.

(** [value || fallback] for a string that may be missing. *)
Definition orElse (value : option string) (fallback : string) : string :=
  if truthy value then default "" value else fallback.

(** [useAuthUser()], for [user = data?.user]: the user with a profile
    picture that is never missing or empty. *)
Definition useAuthUser (user : option AuthUser) : option AuthUser :=
  match user with
  | Some u =>
      Some {| _id := _id u; fullName := fullName u;
              profilePic :=
                Some (if truthy (profilePic u) then default "" (profilePic u)
                      else "/default-avatar.png") |}
  | None => None
  end.

(** The [user] object given to [StreamVideoClient]. *)
Record VideoUser := mkVideoUser {
  id : string;
  name : string;
  image : string
}.

Definition videoUserOf (authUser : AuthUser) : VideoUser :=
  {| id := _id authUser; name := fullName authUser;
     image := orElse (profilePic authUser) "/default-avatar.png" |}.

(** A call into the SDK that throws or returns an object. *)
Inductive Step :=
  | Throws (e : JsError)
  | Returns (v : Value).

(** What the video SDK decides: the outcome of the [k]-th construction of
    a client, of [videoClient.call] and of [videoCall.join].  The outcomes
    of [leave] and [disconnectUser] are not part of it: their errors are
    logged and dropped. *)
Record Sdk := mkSdk {
  newClient : nat -> Step;
  callOf : Value -> Step;
  join : Value -> option JsError
}.

(** The React state ([client], [call], [isLoading], [error]) and the refs
    of the component, with the log of the calls into the SDK: the users for
    whom a client was constructed, the calls that were left and the
    clients that were disconnected. *)
Record Page := mkPage {
  client : option Value;
  call : option Value;
  isLoading : bool;
  error : option string;
  isInitialized : bool;
  clientRef : option Value;
  callRef : option Value;
  constructedFor : list VideoUser;
  leftCalls : list Value;
  disconnectedClients : list Value
}.

Definition setState (client' call' : option Value) (p : Page) : Page :=
  {| client := client'; call := call'; isLoading := isLoading p;
     error := error p; isInitialized := isInitialized p;
     clientRef := clientRef p; callRef := callRef p;
     constructedFor := constructedFor p; leftCalls := leftCalls p;
     disconnectedClients := disconnectedClients p |}.

Definition setIsLoading (b : bool) (p : Page) : Page :=
  {| client := client p; call := call p; isLoading := b;
     error := error p; isInitialized := isInitialized p;
     clientRef := clientRef p; callRef := callRef p;
     constructedFor := constructedFor p; leftCalls := leftCalls p;
     disconnectedClients := disconnectedClients p |}.

Definition setError (e : option string) (p : Page) : Page :=
  {| client := client p; call := call p; isLoading := isLoading p;
     error := e; isInitialized := isInitialized p;
     clientRef := clientRef p; callRef := callRef p;
     constructedFor := constructedFor p; leftCalls := leftCalls p;
     disconnectedClients := disconnectedClients p |}.

Definition setIsInitialized (b : bool) (p : Page) : Page :=
  {| client := client p; call := call p; isLoading := isLoading p;
     error := error p; isInitialized := b;
     clientRef := clientRef p; callRef := callRef p;
     constructedFor := constructedFor p; leftCalls := leftCalls p;
     disconnectedClients := disconnectedClients p |}.

Definition setClientRef (r : option Value) (p : Page) : Page :=
  {| client := client p; call := call p; isLoading := isLoading p;
     error := error p; isInitialized := isInitialized p;
     clientRef := r; callRef := callRef p;
     constructedFor := constructedFor p; leftCalls := leftCalls p;
     disconnectedClients := disconnectedClients p |}.

Definition setCallRef (r : option Value) (p : Page) : Page :=
  {| client := client p; call := call p; isLoading := isLoading p;
     error := error p; isInitialized := isInitialized p;
     clientRef := clientRef p; callRef := r;
     constructedFor := constructedFor p; leftCalls := leftCalls p;
     disconnectedClients := disconnectedClients p |}.

Definition logConstruction (user : VideoUser) (p : Page) : Page :=
  {| client := client p; call := call p; isLoading := isLoading p;
     error := error p; isInitialized := isInitialized p;
     clientRef := clientRef p; callRef := callRef p;
     constructedFor := (constructedFor p ++ [user])%list;
     leftCalls := leftCalls p;
     disconnectedClients := disconnectedClients p |}.

Definition logLeave (c : Value) (p : Page) : Page :=
  {| client := client p; call := call p; isLoading := isLoading p;
     error := error p; isInitialized := isInitialized p;
     clientRef := clientRef p; callRef := callRef p;
     constructedFor := constructedFor p;
     leftCalls := (leftCalls p ++ [c])%list;
     disconnectedClients := disconnectedClients p |}.

Definition logDisconnect (c : Value) (p : Page) : Page :=
  {| client := client p; call := call p; isLoading := isLoading p;
     error := error p; isInitialized := isInitialized p;
     clientRef := clientRef p; callRef := callRef p;
     constructedFor := constructedFor p; leftCalls := leftCalls p;
     disconnectedClients := (disconnectedClients p ++ [c])%list |}.

(** Where a run of [cleanup()] stands: at its start, suspended in
    [await callRef.current.leave()], suspended in
    [await clientRef.current.disconnectUser()], or at its end. *)
Inductive Stage :=
  | Started
  | Leaving
  | Disconnecting
  | Finished.

(** The second block of [cleanup()] up to its [await], or the end of the
    function when there is no client. *)
Definition cleanupClient (p : Page) : Stage * Page :=
  match clientRef p with
  | Some c => (Disconnecting, logDisconnect c p)
  | None => (Finished, setState None None p)
  end.

(** [cleanup()] from one suspension to the next: a ref is cleared only
    when the run resumes from the [await] of the call made on it.  What
    [leave] and [disconnectUser] throw is an error object with a message,
    so that the handlers of the two inner [try] blocks do not throw
    themselves. *)
Definition cleanupStep (stage : Stage) (p : Page) : Stage * Page :=
  match stage with
  | Started =>
      match callRef p with
      | Some c => (Leaving, logLeave c p)
      | None => cleanupClient p
      end
  | Leaving => cleanupClient (setCallRef None p)
  | Disconnecting => (Finished, setState None None (setClientRef None p))
  | Finished => (Finished, p)
  end.

(** A [cleanup()] that runs to its end with no other task in between: at
    most three steps. *)
Definition cleanup (p : Page) : Page :=
  let '(stage, p) := cleanupStep Started p in
  let '(stage, p) := cleanupStep stage p in
  let '(_, p) := cleanupStep stage p in
  p.

(** The handler of the [catch] of [initializeCall], followed by its
    [finally]. *)
Definition initializeFailed (e : JsError) (p : Page) : Page :=
  setIsLoading false
    (cleanup (setError (Some (orElse (Some (message e)) "Failed to join call")) p)).

(** [initializeCall()] with [token = tokenData?.token]. *)
Definition initializeCall (sdk : Sdk) (token : option string)
    (authUser : option AuthUser) (callId : option string) (p : Page) : Page :=
  match authUser with
  | None => p
  | Some u =>
      if isInitialized p || negb (truthy token) || negb (truthy callId) then p
      else
        let p := setError None (setIsLoading true (setIsInitialized true p)) in
        let k := length (constructedFor p) in
        let p := logConstruction (videoUserOf u) p in
        match newClient sdk k with
        | Throws e => initializeFailed e p
        | Returns videoClient =>
            let p := setClientRef (Some videoClient) p in
            match callOf sdk videoClient with
            | Throws e => initializeFailed e p
            | Returns videoCall =>
                let p := setCallRef (Some videoCall) p in
                match join sdk videoCall with
                | Some e => initializeFailed e p
                | None =>
                    setIsLoading false
                      (setError None
                         (setState (Some videoClient) (Some videoCall) p))
                end
            end
        end
  end.

End CallPage.

(** ** The error handler of the video call button *)

Module VideoCall.

(** The four messages that the handler of [handleVideoCall] can show. *)
Inductive Toast :=
  | SetupTimedOut
  | TooManyRequests
  | ConnectionIssue
  | FailedToStart.

(** The [catch] block of [handleVideoCall]: the message shown and the
    session afterwards. *)
Definition onError (cw : ChatSession.CleanupWorld) (authUserId : option string)
    (error : JsError) (s : ChatSession.Session) : Toast * ChatSession.Session :=
  if includes (message error) "timed out" then (SetupTimedOut, s)
  else if isRateLimitError error then (TooManyRequests, s)
  else if includes (message error) "WebSocket" then
    (ConnectionIssue,
     if truthy authUserId then
       let '(disconnected, clients) :=
         VideoClients.disconnectVideoClient authUserId (ChatSession.videoClients s) in
       let waited :=
         match disconnected with
         | [] => ChatSession.page s
         | _ => ChatSession.withRuntime
                  (advance (ChatSession.videoDisconnectTime cw)) (ChatSession.page s)
         end in
       {| ChatSession.page := waited;
          ChatSession.videoClients := clients;
          ChatSession.globalStreamClient := ChatSession.globalStreamClient s;
          ChatSession.connectionPromise := ChatSession.connectionPromise s;
          ChatSession.mounted := ChatSession.mounted s;
          ChatSession.chatClient := ChatSession.chatClient s;
          ChatSession.channel := ChatSession.channel s;
          ChatSession.videoClient := None;
          ChatSession.connectionState := ChatSession.connectionState s;
          ChatSession.error := ChatSession.error s |}
     else s)
  else (FailedToStart, s).

End VideoCall.

(** ** The complete cleanup of the chat page *)

Module Logout.

(** [completeCleanup()]: [cleanupConnection], then the disconnection of
    every video client that is left, one after the other. *)
Definition completeCleanup (cw : ChatSession.CleanupWorld)
    (authUserId : option string) (s : ChatSession.Session) : ChatSession.Session :=
  let s := ChatSession.cleanupConnection cw authUserId s in
  let '(disconnected, clients) :=
    VideoClients.disconnectVideoClient None (ChatSession.videoClients s) in
  {| ChatSession.page :=
       ChatSession.withRuntime
         (fun rt => foldl (fun rt _ => advance (ChatSession.videoDisconnectTime cw) rt)
                          rt disconnected)
         (ChatSession.page s);
     ChatSession.videoClients := clients;
     ChatSession.globalStreamClient := ChatSession.globalStreamClient s;
     ChatSession.connectionPromise := ChatSession.connectionPromise s;
     ChatSession.mounted := ChatSession.mounted s;
     ChatSession.chatClient := ChatSession.chatClient s;
     ChatSession.channel := ChatSession.channel s;
     ChatSession.videoClient := ChatSession.videoClient s;
     ChatSession.connectionState := ChatSession.connectionState s;
     ChatSession.error := ChatSession.error s |}.

End Logout.

(** * Properties *)

(** ** Numbers *)

Lemma roundHalfEven_cases (q : Q) :
  (roundHalfEven q = Qfloor q /\ (q - inject_Z (Qfloor q) <= 1 # 2)%Q /\
   ((q - inject_Z (Qfloor q) == 1 # 2)%Q -> Z.even (Qfloor q) = true)) \/
  (roundHalfEven q = (Qfloor q + 1)%Z /\ (1 # 2 <= q - inject_Z (Qfloor q))%Q /\
   ((q - inject_Z (Qfloor q) == 1 # 2)%Q -> Z.even (Qfloor q) = false)).
Proof.
  unfold roundHalfEven.
  destruct (Qcompare_spec (q - inject_Z (Qfloor q)) (1 # 2)) as [He | Hl | Hg].
  - destruct (Z.even (Qfloor q)) eqn:Hev; [left | right];
      (split; [reflexivity |]); (split; [lra |]); intros _; reflexivity.
  - left. split; [reflexivity |]. split; [lra |]. intros He. lra.
  - right. split; [reflexivity |]. split; [lra |]. intros He. lra.
Qed.

Lemma roundHalfEven_mono (x y : Q) :
  (x <= y)%Q -> (roundHalfEven x <= roundHalfEven y)%Z.
Proof.
  intros Hle.
  pose proof (Qfloor_resp_le x y Hle) as Hf.
  destruct (roundHalfEven_cases x) as [(-> & Hx & Hxe) | (-> & Hx & Hxe)];
    destruct (roundHalfEven_cases y) as [(-> & Hy & Hye) | (-> & Hy & Hye)];
    try lia.
  destruct (Z.eq_dec (Qfloor x) (Qfloor y)) as [Heq | Hne]; [| lia].
  exfalso. rewrite Heq in *.
  assert (Hxh : (x - inject_Z (Qfloor y) == 1 # 2)%Q) by lra.
  assert (Hyh : (y - inject_Z (Qfloor y) == 1 # 2)%Q) by lra.
  rewrite (Hxe Hxh) in Hye. by specialize (Hye Hyh).
Qed.

Lemma roundHalfEven_Z (z : Z) : roundHalfEven (inject_Z z) = z.
Proof.
  unfold roundHalfEven. rewrite Qfloor_Z.
  destruct (Qcompare_spec (inject_Z z - inject_Z z) (1 # 2)); [lra | reflexivity | lra].
Qed.

Lemma roundHalfEven_eq (q : Q) (z : Z) :
  (q == inject_Z z)%Q -> roundHalfEven q = z.
Proof.
  intros H. rewrite <- (roundHalfEven_Z z).
  apply Z.le_antisymm; apply roundHalfEven_mono; lra.
Qed.

Lemma pow2_pos (k : Z) : (0 < 2 ^ k)%Q.
Proof. apply Qpower_0_lt. reflexivity. Qed.

Lemma pow2_le (a b : Z) : (a <= b)%Z -> (2 ^ a <= 2 ^ b)%Q.
Proof. intros H. apply Qpower_le_compat_l; [exact H | discriminate]. Qed.

Lemma pow2_lt (a b : Z) : (a < b)%Z -> (2 ^ a < 2 ^ b)%Q.
Proof. intros H. apply Qpower_lt_compat_l; [exact H | reflexivity]. Qed.

Lemma pow2_plus (a b : Z) : (2 ^ (a + b) == 2 ^ a * 2 ^ b)%Q.
Proof. apply Qpower_plus. discriminate. Qed.

Lemma pow2_Z (k : Z) : (0 <= k)%Z -> (inject_Z (2 ^ k) == 2 ^ k)%Q.
Proof. intros H. by rewrite Zpower_Qpower. Qed.

Lemma pow2_cancel (k : Z) : (2 ^ k * 2 ^ (- k) == 1)%Q.
Proof. rewrite <- pow2_plus. by replace (k + - k)%Z with 0%Z by lia. Qed.

(** The exponent is the one of the binade of [q]. *)
Lemma ulpExponent_spec (q : Q) :
  (0 < q)%Q ->
  (2 ^ (ulpExponent q + 52) <= q)%Q /\ (q < 2 ^ (ulpExponent q + 53))%Q.
Proof.
  intros Hq. destruct q as [n d]. unfold ulpExponent. cbn [Qnum Qden].
  assert (Hn : (0 < n)%Z).
  { unfold Qlt in Hq. cbn in Hq. lia. }
  set (ln := Z.log2 n). set (ld := Z.log2 (Z.pos d)).
  assert (Hln0 : (0 <= ln)%Z) by apply Z.log2_nonneg.
  assert (Hld0 : (0 <= ld)%Z) by apply Z.log2_nonneg.
  destruct (Z.log2_spec n Hn) as [Hn1 Hn2]. fold ln in Hn1, Hn2.
  destruct (Z.log2_spec (Z.pos d) eq_refl) as [Hd1 Hd2]. fold ld in Hd1, Hd2.
  assert (Hqd : ((n # d) * inject_Z (Z.pos d) == inject_Z n)%Q).
  { unfold Qeq, Qmult, inject_Z. cbn. lia. }
  assert (Qn1 : (2 ^ ln <= inject_Z n)%Q).
  { rewrite <- pow2_Z by lia. by rewrite <- Zle_Qle. }
  assert (Qn2 : (inject_Z n < 2 ^ (ln + 1))%Q).
  { rewrite <- pow2_Z by lia. by rewrite <- Zlt_Qlt. }
  assert (Qd1 : (2 ^ ld <= inject_Z (Z.pos d))%Q).
  { rewrite <- pow2_Z by lia. by rewrite <- Zle_Qle. }
  assert (Qd2 : (inject_Z (Z.pos d) < 2 ^ (ld + 1))%Q).
  { rewrite <- pow2_Z by lia. by rewrite <- Zlt_Qlt. }
  assert (Hup : (n # d < 2 ^ (ln - ld + 1))%Q).
  { apply (Qmult_lt_r _ _ (2 ^ ld)); [apply pow2_pos |].
    rewrite <- pow2_plus. replace (ln - ld + 1 + ld)%Z with (ln + 1)%Z by lia.
    eapply Qle_lt_trans; [| exact Qn2].
    rewrite <- Hqd. apply Qmult_le_l; [exact Hq | exact Qd1]. }
  assert (Hlow : (2 ^ (ln - ld - 1) < n # d)%Q).
  { apply (Qmult_lt_r _ _ (2 ^ (ld + 1))); [apply pow2_pos |].
    rewrite <- pow2_plus. replace (ln - ld - 1 + (ld + 1))%Z with ln by lia.
    eapply Qle_lt_trans; [exact Qn1 |].
    rewrite <- Hqd. apply Qmult_lt_l; [exact Hq | exact Qd2]. }
  destruct (Qle_bool (2 ^ (ln - ld - 52 + 52)) (n # d)) eqn:Hb.
  - apply Qle_bool_iff in Hb. split; [exact Hb |].
    by replace (ln - ld - 52 + 53)%Z with (ln - ld + 1)%Z by lia.
  - replace (ln - ld - 52 - 1 + 52)%Z with (ln - ld - 1)%Z by lia.
    replace (ln - ld - 52 - 1 + 53)%Z with (ln - ld - 52 + 52)%Z by lia.
    split; [by apply Qlt_le_weak |].
    apply Qnot_le_lt. intros Hle. apply Qle_bool_iff in Hle. congruence.
Qed.

Lemma scaled_le (e : Z) (x y : Q) : (x <= y)%Q -> (x / 2 ^ e <= y / 2 ^ e)%Q.
Proof.
  intros H. unfold Qdiv. apply Qmult_le_compat_r; [exact H |].
  apply Qlt_le_weak, Qinv_lt_0_compat, pow2_pos.
Qed.

Lemma roundPositive_bounds (q : Q) :
  (0 < q)%Q ->
  (2 ^ (ulpExponent q + 52) <= roundPositive q)%Q /\
  (roundPositive q <= 2 ^ (ulpExponent q + 53))%Q.
Proof.
  intros Hq. destruct (ulpExponent_spec q Hq) as [Hlo Hhi].
  unfold roundPositive. set (e := ulpExponent q) in *.
  assert (Hgrid : forall k, (0 <= k)%Z ->
            (2 ^ (e + k) / 2 ^ e == inject_Z (2 ^ k))%Q).
  { intros k Hk. rewrite pow2_Z by exact Hk. rewrite pow2_plus.
    field. apply Qnot_eq_sym, Qlt_not_eq, pow2_pos. }
  assert (H52 : (2 ^ 52 <= roundHalfEven (q / 2 ^ e))%Z).
  { rewrite <- (roundHalfEven_eq (2 ^ (e + 52) / 2 ^ e) (2 ^ 52)) by (by apply Hgrid).
    apply roundHalfEven_mono, scaled_le, Hlo. }
  assert (H53 : (roundHalfEven (q / 2 ^ e) <= 2 ^ 53)%Z).
  { rewrite <- (roundHalfEven_eq (2 ^ (e + 53) / 2 ^ e) (2 ^ 53)) by (by apply Hgrid).
    apply roundHalfEven_mono, scaled_le, Qlt_le_weak, Hhi. }
  split.
  - rewrite (Z.add_comm e 52), pow2_plus, <- pow2_Z by lia.
    apply Qmult_le_compat_r; [by rewrite <- Zle_Qle |].
    apply Qlt_le_weak, pow2_pos.
  - rewrite (Z.add_comm e 53), pow2_plus, <- (pow2_Z 53) by lia.
    apply Qmult_le_compat_r; [by rewrite <- Zle_Qle |].
    apply Qlt_le_weak, pow2_pos.
Qed.

Lemma roundPositive_mono (x y : Q) :
  (0 < x)%Q -> (x <= y)%Q -> (roundPositive x <= roundPositive y)%Q.
Proof.
  intros Hx Hle. assert (Hy : (0 < y)%Q) by lra.
  destruct (ulpExponent_spec x Hx) as [Hxl Hxh].
  destruct (ulpExponent_spec y Hy) as [Hyl Hyh].
  destruct (roundPositive_bounds x Hx) as [_ Hxu].
  destruct (roundPositive_bounds y Hy) as [Hyd _].
  destruct (Z.lt_trichotomy (ulpExponent x) (ulpExponent y)) as [Hlt | [Heq | Hgt]].
  - eapply Qle_trans; [exact Hxu |]. eapply Qle_trans; [| exact Hyd].
    apply pow2_le. lia.
  - unfold roundPositive. rewrite Heq.
    apply Qmult_le_compat_r; [| apply Qlt_le_weak, pow2_pos].
    rewrite <- Zle_Qle. apply roundHalfEven_mono, scaled_le, Hle.
  - exfalso.
    assert (H : (2 ^ (ulpExponent y + 53) <= 2 ^ (ulpExponent x + 52))%Q)
      by (apply pow2_le; lia).
    lra.
Qed.

Lemma roundPositive_pos (q : Q) : (0 < q)%Q -> (0 < roundPositive q)%Q.
Proof.
  intros Hq. destruct (roundPositive_bounds q Hq) as [H _].
  eapply Qlt_le_trans; [apply pow2_pos | exact H].
Qed.

Lemma binary64_cases (q : Q) :
  ((q == 0)%Q /\ binary64 q = 0%Q) \/
  ((0 < q)%Q /\ binary64 q = roundPositive q) \/
  ((q < 0)%Q /\ binary64 q = (- roundPositive (- q))%Q).
Proof.
  destruct q as [[| n | n] d]; unfold binary64; cbn [Qnum].
  - left. split; reflexivity.
  - right. left. split; reflexivity.
  - right. right. split; reflexivity.
Qed.

(** Rounding is monotone. *)
Lemma binary64_mono (x y : Q) : (x <= y)%Q -> (binary64 x <= binary64 y)%Q.
Proof.
  intros Hle.
  destruct (binary64_cases x) as [[Hx ->] | [[Hx ->] | [Hx ->]]];
    destruct (binary64_cases y) as [[Hy ->] | [[Hy ->] | [Hy ->]]];
    try lra.
  - apply Qlt_le_weak, roundPositive_pos, Hy.
  - by apply roundPositive_mono.
  - pose proof (roundPositive_pos (- x)) as H. lra.
  - pose proof (roundPositive_pos (- x)) as H.
    pose proof (roundPositive_pos y Hy) as H'. lra.
  - pose proof (roundPositive_mono (- y) (- x)) as H. lra.
Qed.

(** The integers below [2 ^ 53] are binary64 numbers. *)
Lemma binary64_Z (z : Z) :
  (0 <= z < 2 ^ 53)%Z -> (binary64 (inject_Z z) == inject_Z z)%Q.
Proof.
  intros [H0 H53].
  destruct (binary64_cases (inject_Z z)) as [[Hz ->] | [[Hz ->] | [Hz _]]].
  - by symmetry.
  - destruct (ulpExponent_spec _ Hz) as [Hlo _].
    unfold roundPositive. set (e := ulpExponent (inject_Z z)) in *.
    assert (He : (e <= 0)%Z).
    { destruct (Z.le_gt_cases e 0) as [? | Hgt]; [assumption | exfalso].
      assert (H : (2 ^ 53 <= 2 ^ (e + 52))%Q) by (apply pow2_le; lia).
      rewrite <- pow2_Z in H by lia.
      assert (H' : (inject_Z (2 ^ 53) <= inject_Z z)%Q) by lra.
      rewrite <- Zle_Qle in H'. lia. }
    assert (Hm : (inject_Z z / 2 ^ e == inject_Z (z * 2 ^ (- e)))%Q).
    { rewrite inject_Z_mult, pow2_Z by lia.
      unfold Qdiv. by rewrite Qpower_opp. }
    rewrite (roundHalfEven_eq _ _ Hm), inject_Z_mult, pow2_Z by lia.
    rewrite <- Qmult_assoc, (Qmult_comm (2 ^ (- e))), pow2_cancel. ring.
  - exfalso. rewrite Zle_Qle in H0. change (inject_Z 0) with 0%Q in H0. lra.
Qed.

Lemma binary64_ge_Z (z : Z) (q : Q) :
  (0 <= z < 2 ^ 53)%Z -> (inject_Z z <= q)%Q -> (inject_Z z <= binary64 q)%Q.
Proof.
  intros Hz Hle. rewrite <- (binary64_Z z Hz). by apply binary64_mono.
Qed.

Lemma binary64_le_Z (z : Z) (q : Q) :
  (0 <= z < 2 ^ 53)%Z -> (q <= inject_Z z)%Q -> (binary64 q <= inject_Z z)%Q.
Proof.
  intros Hz Hle. rewrite <- (binary64_Z z Hz). by apply binary64_mono.
Qed.

(** ** Backoff *)

Lemma base_small (a : nat) : (a <= 4)%nat ->
  Z.min (2000 * 2 ^ Z.of_nat a) 60000 = (2000 * 2 ^ Z.of_nat a)%Z.
Proof.
  intros Ha. apply Z.min_l.
  assert (2 ^ Z.of_nat a <= 2 ^ 4)%Z by (apply Z.pow_le_mono_r; lia).
  change (2 ^ 4)%Z with 16%Z in *. lia.
Qed.

Lemma base_capped (a : nat) : (5 <= a)%nat ->
  Z.min (2000 * 2 ^ Z.of_nat a) 60000 = 60000%Z.
Proof.
  intros Ha. apply Z.min_r.
  assert (2 ^ 5 <= 2 ^ Z.of_nat a)%Z by (apply Z.pow_le_mono_r; lia).
  change (2 ^ 5)%Z with 32%Z in *. lia.
Qed.

Lemma base_range (a : nat) :
  (2000 <= Z.min (2000 * 2 ^ Z.of_nat a) 60000 <= 60000)%Z.
Proof.
  split; [| apply Z.le_min_r].
  apply Z.min_glb; [| lia].
  assert (1 <= 2 ^ Z.of_nat a)%Z by (apply Z.pow_le_mono_r with (b := 0%Z); lia).
  lia.
Qed.

(** The delay is at least the base, whatever the draw is rounded to. *)
Lemma backoff_at_least (a : nat) (rnd : Q) :
  (0 <= rnd)%Q ->
  (inject_Z (Z.min (2000 * 2 ^ Z.of_nat a) 60000) <= calculateBackoffDelay a rnd)%Q.
Proof.
  intros H0. pose proof (base_range a) as Hbase.
  assert (Hj0 : (0 <= binary64 (rnd * 1000))%Q).
  { apply (binary64_ge_Z 0); [lia |]. change (inject_Z 0) with 0%Q. lra. }
  unfold calculateBackoffDelay. apply binary64_ge_Z; [lia | lra].
Qed.

(** The delay lies between the base and the base plus 1000 ms: the jitter
    is rounded into [0, 1000] and the sum into that range. *)
Lemma backoff_within (a : nat) (rnd : Q) :
  (0 <= rnd)%Q -> (rnd <= 1)%Q ->
  let base := Z.min (2000 * 2 ^ Z.of_nat a) 60000 in
  (inject_Z base <= calculateBackoffDelay a rnd)%Q /\
  (calculateBackoffDelay a rnd <= inject_Z (base + 1000))%Q /\
  (2000 <= base <= 60000)%Z.
Proof.
  intros H0 H1 base.
  assert (Hbase : (2000 <= base <= 60000)%Z) by apply base_range.
  assert (Hj0 : (0 <= binary64 (rnd * 1000))%Q).
  { apply (binary64_ge_Z 0); [lia |]. change (inject_Z 0) with 0%Q. lra. }
  assert (Hj1 : (binary64 (rnd * 1000) <= 1000)%Q).
  { apply (binary64_le_Z 1000); [lia |]. change (inject_Z 1000) with 1000%Q. lra. }
  split; [| split; [| exact Hbase]].
  - by apply backoff_at_least.
  - unfold calculateBackoffDelay. fold base. apply binary64_le_Z; [lia |]. rewrite inject_Z_plus.
    change (inject_Z 1000) with 1000%Q. lra.
Qed.

Lemma Qfloor_lower (z : Z) (q : Q) : (inject_Z z <= q)%Q -> (z <= Qfloor q)%Z.
Proof. intros H. rewrite <- (Qfloor_Z z). by apply Qfloor_resp_le. Qed.

Lemma sleep_clock (w : World) (ms : Q) (rt : Runtime) (z : Z) :
  (0 <= z < 2 ^ 53)%Z -> (inject_Z z <= ms)%Q -> (0 <= latency w (sleeps rt))%Z ->
  (clock rt + z <= clock (sleep w ms rt))%Z.
Proof.
  intros Hz Hms Hlat. unfold sleep. cbn [clock advance sleeps].
  assert (Hq : (0 <= inject_Z z)%Q)
    by (change 0%Q with (inject_Z 0); rewrite <- Zle_Qle; lia).
  assert (Hfl : (z <= Qfloor (if isSystemOverloaded (handler rt)
                              then binary64 (ms * (3 # 2)) else ms))%Z).
  { apply Qfloor_lower. destruct (isSystemOverloaded (handler rt)); [| exact Hms].
    apply binary64_ge_Z; [exact Hz | lra]. }
  lia.
Qed.

(** C4 (as amended): for every attempt count [a] and every draw [rnd] of
    [Math.random()] in [0, 1), the delay lies between
    [min (2000 * 2^a) 60000] and that plus 1000, both included, and is at
    most 61000.  For [a <= 4] the base is [2000 * 2^a] itself; from [a = 5]
    on the cap of 60000 replaces it. *)
Theorem backoff_bounds (a : nat) (rnd : Q) :
  (0 <= rnd)%Q -> (rnd < 1)%Q ->
  let d := calculateBackoffDelay a rnd in
  let base := inject_Z (Z.min (2000 * 2 ^ Z.of_nat a) 60000) in
  (base <= d)%Q /\ (d <= base + 1000)%Q /\ (d <= 61000)%Q /\
  ((a <= 4)%nat ->
     (inject_Z (2000 * 2 ^ Z.of_nat a) <= d)%Q /\
     (d <= inject_Z (2000 * 2 ^ Z.of_nat a) + 1000)%Q) /\
  ((5 <= a)%nat -> (60000 <= d)%Q /\ (d <= 61000)%Q).
Proof.
  intros H0 H1 d base.
  destruct (backoff_within a rnd H0 (Qlt_le_weak _ _ H1)) as (Hlo & Hhi & Hb1 & Hb2).
  fold d in Hlo, Hhi. rewrite inject_Z_plus in Hhi. fold base in Hlo, Hhi.
  change (inject_Z 1000) with 1000%Q in Hhi.
  assert (Hcap : (base <= 60000)%Q).
  { unfold base. change 60000%Q with (inject_Z 60000). by rewrite <- Zle_Qle. }
  split; [exact Hlo |]. split; [exact Hhi |]. split; [lra |]. split.
  - intros Ha. rewrite <- (base_small a) by assumption. fold base. by split.
  - intros Ha.
    assert (Hb : (base == 60000)%Q).
    { unfold base. rewrite base_capped by assumption. reflexivity. }
    split; lra.
Qed.

(** The bounds at attempt 3 with a draw of one half. *)
Lemma backoff_bounds_witness :
  (inject_Z (2000 * 2 ^ Z.of_nat 3) <= calculateBackoffDelay 3 (1 # 2))%Q /\
  (calculateBackoffDelay 3 (1 # 2) <= 61000)%Q.
Proof.
  assert (H0 : (0 <= 1 # 2)%Q) by (vm_compute; discriminate).
  assert (H1 : (1 # 2 < 1)%Q) by reflexivity.
  destruct (backoff_bounds 3 (1 # 2) H0 H1) as (_ & _ & Hle & Hsmall & _).
  split; [apply Hsmall; lia | exact Hle].
Defined.

(** C4 as stated fails twice.  At attempt 5 the delay is 60000, below
    [2000 * 2^5 = 64000].  At attempt 0 with the greatest value of
    [Math.random()], [1 - 2^-53], the jitter is [1000 - 2^-43] and the
    sum rounds to 3000, which is not below [2000 + 1000]. *)
Lemma backoff_bounds_as_stated_fail :
  let greatest := (1 - (1 # 9007199254740992))%Q in
  ~ (forall (a : nat) (rnd : Q), (0 <= rnd)%Q -> (rnd < 1)%Q ->
       (inject_Z (2000 * 2 ^ Z.of_nat a) <= calculateBackoffDelay a rnd)%Q) /\
  ~ (forall (a : nat) (rnd : Q), (0 <= rnd)%Q -> (rnd < 1)%Q ->
       (calculateBackoffDelay a rnd < inject_Z (2000 * 2 ^ Z.of_nat a) + 1000)%Q) /\
  (calculateBackoffDelay 5 0 == 60000)%Q /\
  (0 <= greatest)%Q /\ (greatest < 1)%Q /\
  (binary64 (greatest * 1000) < 1000)%Q /\
  (calculateBackoffDelay 0 greatest == 3000)%Q.
Proof.
  intros greatest.
  assert (Hg0 : (0 <= greatest)%Q) by (vm_compute; discriminate).
  assert (Hg1 : (greatest < 1)%Q) by reflexivity.
  assert (H5 : (calculateBackoffDelay 5 0 == 60000)%Q) by reflexivity.
  assert (H0 : (calculateBackoffDelay 0 greatest == 3000)%Q) by reflexivity.
  split.
  { intros H. specialize (H 5%nat 0%Q). rewrite H5 in H.
    apply H; [discriminate | reflexivity | reflexivity]. }
  split.
  { intros H. specialize (H 0%nat greatest Hg0 Hg1). rewrite H0 in H.
    vm_compute in H. discriminate H. }
  repeat split; try assumption.
Qed.

(** ** The rate limit gate *)

Section Gate.
Variables (userId operation : string) (h : RateLimitHandler).

Lemma gate_blocked_key (now : Z) :
  opKey userId operation ∈ blockedOperations h ->
  shouldRateLimit now userId operation h = (true, h).
Proof.
  intros Hin. unfold shouldRateLimit.
  destruct (decide (opKey userId operation ∈ blockedOperations h)); [reflexivity | contradiction].
Qed.

Lemma gate_cases (now : Z) :
  shouldRateLimit now userId operation h = (true, h) \/
  shouldRateLimit now userId operation h =
    (false, setLastRequestTime (<[opKey userId operation := now]> (lastRequestTime h)) h).
Proof.
  unfold shouldRateLimit.
  destruct (decide (opKey userId operation ∈ blockedOperations h)); [by left |].
  destruct (tooSoon _ _ _); [by left | by right].
Qed.

Lemma gate_pass (now i : Z) :
  opKey userId operation ∉ blockedOperations h ->
  intervalFor operation = Some i ->
  match lastRequestTime h !! opKey userId operation with
  | Some l => l = 0%Z \/ (i <= now - l)%Z
  | None => True
  end ->
  shouldRateLimit now userId operation h =
    (false, setLastRequestTime (<[opKey userId operation := now]> (lastRequestTime h)) h).
Proof.
  intros Hnb Hi Hlast. unfold shouldRateLimit.
  destruct (decide (opKey userId operation ∈ blockedOperations h)); [contradiction |].
  rewrite Hi. unfold tooSoon.
  destruct (lastRequestTime h !! opKey userId operation) as [l|]; [| reflexivity].
  destruct Hlast as [-> | Hl]; [reflexivity |].
  replace (now - l <? i)%Z with false by (symmetry; apply Z.ltb_ge; lia).
  by rewrite andb_false_r.
Qed.

Lemma gate_hold (now i l : Z) :
  intervalFor operation = Some i ->
  lastRequestTime h !! opKey userId operation = Some l ->
  l ≠ 0%Z -> (now - l < i)%Z ->
  shouldRateLimit now userId operation h = (true, h).
Proof.
  intros Hi Hl Hnz Hlt. unfold shouldRateLimit.
  destruct (decide (opKey userId operation ∈ blockedOperations h)); [reflexivity |].
  rewrite Hi, Hl. unfold tooSoon.
  replace (l =? 0)%Z with false by (symmetry; by apply Z.eqb_neq).
  replace (now - l <? i)%Z with true by (symmetry; by apply Z.ltb_lt).
  reflexivity.
Qed.
End Gate.

(** C6: [shouldRateLimit] either reports blocked and leaves the handler as
    it is, or reports not blocked and records [now] as the last request
    time of the key.  So for a key that is not blocked, with a numeric
    interval [i]: a call at [t1] that passes, a call at [t2] less than [i]
    later and a call at [t3] at least [i] later than [t1] yield not
    blocked, blocked, not blocked, and the blocked call does not move the
    recorded time. *)
Theorem gate_updates_only_on_pass (userId operation : string)
    (h : RateLimitHandler) (i t1 t2 t3 : Z) :
  opKey userId operation ∉ blockedOperations h ->
  intervalFor operation = Some i ->
  (0 < t1)%Z ->
  match lastRequestTime h !! opKey userId operation with
  | Some l => l = 0%Z \/ (i <= t1 - l)%Z
  | None => True
  end ->
  (t2 - t1 < i)%Z -> (i <= t3 - t1)%Z ->
  let key := opKey userId operation in
  (forall now u op g,
      shouldRateLimit now u op g = (true, g) \/
      shouldRateLimit now u op g =
        (false, setLastRequestTime (<[opKey u op := now]> (lastRequestTime g)) g)) /\
  let h1 := setLastRequestTime (<[key := t1]> (lastRequestTime h)) h in
  shouldRateLimit t1 userId operation h = (false, h1) /\
  shouldRateLimit t2 userId operation h1 = (true, h1) /\
  shouldRateLimit t3 userId operation h1 =
    (false, setLastRequestTime (<[key := t3]> (lastRequestTime h1)) h1).
Proof.
  intros Hnb Hi Hpos Hlast H2 H3 key.
  split; [intros; apply gate_cases |].
  intros h1.
  assert (Hl1 : lastRequestTime h1 !! key = Some t1) by apply lookup_insert_eq.
  split; [by eapply gate_pass |].
  split.
  - eapply gate_hold; eauto. lia.
  - eapply gate_pass; eauto. fold key. rewrite Hl1. by right.
Qed.

(** Three calls for [send-message] (interval 1000 ms) at 1000, 1500 and
    2000 ms. *)
Lemma gate_updates_only_on_pass_witness :
  let h1 := setLastRequestTime
              (<["u1-send-message" := 1000%Z]> (lastRequestTime newHandler)) newHandler in
  shouldRateLimit 1000 "u1" "send-message" newHandler = (false, h1) /\
  shouldRateLimit 1500 "u1" "send-message" h1 = (true, h1) /\
  shouldRateLimit 2000 "u1" "send-message" h1 =
    (false, setLastRequestTime (<["u1-send-message" := 2000%Z]> (lastRequestTime h1)) h1).
Proof.
  refine (proj2 (gate_updates_only_on_pass "u1" "send-message" newHandler
                   1000 1000 1500 2000 _ _ _ _ _ _)).
  - apply not_elem_of_empty.
  - reflexivity.
  - lia.
  - exact I.
  - lia.
  - lia.
Defined.

(** ** The WebSocket attempt gate *)

Section WsGate.
Variables (userId type : string) (h : RateLimitHandler).

Lemma ws_first (now : Z) :
  connectionAttempts h !! wsKey userId type = None ->
  shouldRateLimitWebSocket now userId type h =
    (false, setConnectionAttempts
              (<[wsKey userId type := {| count := 1; firstAttempt := now |}]> (connectionAttempts h)) h).
Proof.
  intros Hn. unfold shouldRateLimitWebSocket. rewrite Hn. cbn [default from_option id count firstAttempt].
  replace (now - now)%Z with 0%Z by lia. reflexivity.
Qed.

Lemma ws_counted (now f : Z) (c : nat) :
  connectionAttempts h !! wsKey userId type = Some {| count := c; firstAttempt := f |} ->
  (now - f <= 300000)%Z -> (c < 5)%nat ->
  shouldRateLimitWebSocket now userId type h =
    (false, setConnectionAttempts
              (<[wsKey userId type := {| count := S c; firstAttempt := f |}]> (connectionAttempts h)) h).
Proof.
  intros Hs Hw Hc. unfold shouldRateLimitWebSocket. rewrite Hs. cbn [default from_option id count firstAttempt].
  replace (300000 <? now - f)%Z with false by (symmetry; apply Z.ltb_ge; lia).
  replace (5 <=? c)%nat with false by (symmetry; apply Nat.leb_gt; lia).
  reflexivity.
Qed.

Lemma ws_refused (now f : Z) (c : nat) :
  connectionAttempts h !! wsKey userId type = Some {| count := c; firstAttempt := f |} ->
  (now - f <= 300000)%Z -> (5 <= c)%nat ->
  shouldRateLimitWebSocket now userId type h = (true, h).
Proof.
  intros Hs Hw Hc. unfold shouldRateLimitWebSocket. rewrite Hs. cbn [default from_option id count firstAttempt].
  replace (300000 <? now - f)%Z with false by (symmetry; apply Z.ltb_ge; lia).
  replace (5 <=? c)%nat with true by (symmetry; apply Nat.leb_le; lia).
  reflexivity.
Qed.

Lemma ws_reset (now f : Z) (c : nat) :
  connectionAttempts h !! wsKey userId type = Some {| count := c; firstAttempt := f |} ->
  (300000 < now - f)%Z ->
  shouldRateLimitWebSocket now userId type h =
    (false, setConnectionAttempts (delete (wsKey userId type) (connectionAttempts h)) h).
Proof.
  intros Hs Hw. unfold shouldRateLimitWebSocket. rewrite Hs. cbn [default from_option id count firstAttempt].
  replace (300000 <? now - f)%Z with true by (symmetry; apply Z.ltb_lt; lia).
  reflexivity.
Qed.
End WsGate.

Lemma ws_lookup_set (key : string) (a : Attempts) (h : RateLimitHandler) :
  connectionAttempts
    (setConnectionAttempts (<[key := a]> (connectionAttempts h)) h) !! key = Some a.
Proof. apply lookup_insert_eq. Qed.

Lemma ws_lookup_reset (key : string) (h : RateLimitHandler) :
  connectionAttempts
    (setConnectionAttempts (delete key (connectionAttempts h)) h) !! key = None.
Proof. apply lookup_delete_eq. Qed.

(** Five counted calls inside the window pass and the next one is refused,
    leaving the state as it is. *)
Lemma ws_five_then_refused (userId type : string) (h : RateLimitHandler)
    (n1 n2 n3 n4 n5 n6 : Z) :
  connectionAttempts h !! wsKey userId type = None ->
  (n2 - n1 <= 300000)%Z -> (n3 - n1 <= 300000)%Z -> (n4 - n1 <= 300000)%Z ->
  (n5 - n1 <= 300000)%Z -> (n6 - n1 <= 300000)%Z ->
  exists h5,
    callsWebSocketGate [n1; n2; n3; n4; n5] userId type h =
      ([false; false; false; false; false], h5) /\
    connectionAttempts h5 !! wsKey userId type =
      Some {| count := 5; firstAttempt := n1 |} /\
    shouldRateLimitWebSocket n6 userId type h5 = (true, h5).
Proof.
  intros Hnone H2 H3 H4 H5 H6. cbn [callsWebSocketGate].
  rewrite (ws_first _ _ _ n1 Hnone).
  erewrite (ws_counted _ _ _ n2) by (first [apply ws_lookup_set | lia]).
  erewrite (ws_counted _ _ _ n3) by (first [apply ws_lookup_set | lia]).
  erewrite (ws_counted _ _ _ n4) by (first [apply ws_lookup_set | lia]).
  erewrite (ws_counted _ _ _ n5) by (first [apply ws_lookup_set | lia]).
  eexists. split; [reflexivity |].
  split; [apply ws_lookup_set |].
  eapply ws_refused; [apply ws_lookup_set | lia | lia].
Qed.

(** C3: once the window has elapsed, the call that resets the window is let
    through without being counted, and five more calls are counted after
    it: six calls pass before the gate closes again. *)
Theorem ws_gate_six_after_window (userId type : string) (h : RateLimitHandler)
    (c : nat) (f n0 n1 n2 n3 n4 n5 n6 : Z) :
  connectionAttempts h !! wsKey userId type =
    Some {| count := c; firstAttempt := f |} ->
  (300000 < n0 - f)%Z ->
  (n2 - n1 <= 300000)%Z -> (n3 - n1 <= 300000)%Z -> (n4 - n1 <= 300000)%Z ->
  (n5 - n1 <= 300000)%Z -> (n6 - n1 <= 300000)%Z ->
  (callsWebSocketGate [n0; n1; n2; n3; n4; n5; n6] userId type h).1 =
    [false; false; false; false; false; false; true].
Proof.
  intros Hs H0 H2 H3 H4 H5 H6.
  cbn [callsWebSocketGate].
  rewrite (ws_reset _ _ _ n0 f c Hs H0).
  destruct (ws_five_then_refused userId type _ n1 n2 n3 n4 n5 n6
              (ws_lookup_reset _ h) H2 H3 H4 H5 H6) as (h5 & Hfive & _ & Hsix).
  cbn [callsWebSocketGate] in Hfive.
  destruct (shouldRateLimitWebSocket n1 _ _ _) as [b1 g1].
  destruct (shouldRateLimitWebSocket n2 _ _ _) as [b2 g2].
  destruct (shouldRateLimitWebSocket n3 _ _ _) as [b3 g3].
  destruct (shouldRateLimitWebSocket n4 _ _ _) as [b4 g4].
  destruct (shouldRateLimitWebSocket n5 _ _ _) as [b5 g5].
  injection Hfive as -> -> -> -> -> ->.
  rewrite Hsix. reflexivity.
Qed.

(** Five calls fill the window that starts at [t0]; 300001 ms later six
    calls in a row pass and the seventh is refused. *)
Lemma ws_gate_six_after_window_witness :
  let h5 := (callsWebSocketGate [t0; t0 + 1; t0 + 2; t0 + 3; t0 + 4]%Z
               "u1" "video-call" newHandler).2 in
  (callsWebSocketGate
     [t0 + 300001; t0 + 300002; t0 + 300003; t0 + 300004; t0 + 300005;
      t0 + 300006; t0 + 300007]%Z "u1" "video-call" h5).1 =
  [false; false; false; false; false; false; true].
Proof.
  intros h5.
  apply (ws_gate_six_after_window "u1" "video-call" h5 5 t0); [reflexivity | unfold t0; lia ..].
Defined.

(** ** Clearing the entries of a user *)

Lemma append_cons (d : ascii) (s rest : string) :
  String d s ++ rest = String d (s ++ rest).
Proof. reflexivity. Qed.

Lemma append_nil (rest : string) : "" ++ rest = rest.
Proof. reflexivity. Qed.

Lemma startsWith_cons (c d : ascii) (s search : string) :
  startsWith (String d s) (String c search) = Ascii.eqb c d && startsWith s search.
Proof. reflexivity. Qed.

Lemma startsWith_app (s search rest : string) :
  startsWith s search = true -> startsWith (s ++ rest) search = true.
Proof.
  revert s. induction search as [| c search IH]; intros s H; [reflexivity |].
  destruct s as [| d s]; [discriminate |].
  rewrite append_cons, startsWith_cons in *.
  apply andb_true_iff in H as [Hc Hs].
  rewrite Hc. by apply IH.
Qed.

Lemma startsWith_app_inv (other rest userId : string) :
  startsWith (other ++ "-" ++ rest) userId = true ->
  startsWith other userId = true \/ startsWith userId (other ++ "-") = true.
Proof.
  revert userId. induction other as [| d other IH]; intros userId H.
  - destruct userId as [| c u]; [by left |]. right.
    rewrite append_nil, append_cons, startsWith_cons in H.
    apply andb_true_iff in H as [Hc _].
    apply Ascii.eqb_eq in Hc as ->. 
    rewrite append_nil, startsWith_cons, Ascii.eqb_refl. reflexivity.
  - destruct userId as [| c u]; [by left |].
    rewrite append_cons, startsWith_cons in H.
    apply andb_true_iff in H as [Hc Hs].
    apply Ascii.eqb_eq in Hc as ->.
    rewrite append_cons, !startsWith_cons, Ascii.eqb_refl. by apply IH.
Qed.

Lemma foldr_delete_lookup {V} (l : list string) (m : gmap string V) (k : string) :
  foldr delete m l !! k = if decide (k ∈ l) then None else m !! k.
Proof.
  induction l as [| x l IH]; cbn.
  - by rewrite decide_False by apply not_elem_of_nil.
  - destruct (decide (x = k)) as [-> | Hne].
    + rewrite lookup_delete_eq. by rewrite decide_True by apply list_elem_of_here.
    + rewrite lookup_delete_ne by done. rewrite IH.
      destruct (decide (k ∈ l)) as [Hin | Hin].
      * by rewrite decide_True by (by apply list_elem_of_further).
      * rewrite decide_False; [done |].
        intros [-> | ?]%elem_of_cons; done.
Qed.

Lemma foldr_guarded_delete_lookup {V} (userId : string) (l : list string)
    (m : gmap string V) (k : string) :
  foldr (fun key m => if startsWith key userId then delete key m else m) m l !! k =
  if decide (k ∈ l) then (if startsWith k userId then None else m !! k) else m !! k.
Proof.
  induction l as [| x l IH]; cbn.
  - by rewrite decide_False by apply not_elem_of_nil.
  - destruct (decide (x = k)) as [-> | Hne].
    + rewrite decide_True by apply list_elem_of_here.
      destruct (startsWith k userId) eqn:Hk.
      * by rewrite lookup_delete_eq.
      * rewrite IH, ?Hk. by destruct (decide _).
    + assert (Hk : foldr (fun key m => if startsWith key userId then delete key m else m) m l !! k =
                   if decide (k ∈ x :: l) then (if startsWith k userId then None else m !! k) else m !! k).
      { rewrite IH. destruct (decide (k ∈ l)) as [Hin | Hin].
        - by rewrite decide_True by (by apply list_elem_of_further).
        - rewrite decide_False; [done |]. intros [-> | ?]%elem_of_cons; done. }
      destruct (startsWith x userId); [by rewrite lookup_delete_ne by done | done].
Qed.

Lemma foldr_guarded_remove_elem (userId : string) (l : list string)
    (b : gset string) (k : string) :
  k ∈ foldr (fun key b => if startsWith key userId then b ∖ {[ key ]} else b) b l <->
  k ∈ b /\ ~ (k ∈ l /\ startsWith k userId = true).
Proof.
  induction l as [| x l IH]; cbn.
  - split; [intros H; split; [done | by intros [?%not_elem_of_nil _]] | by intros [? _]].
  - destruct (startsWith x userId) eqn:Hx.
    + rewrite elem_of_difference, IH, elem_of_singleton, elem_of_cons.
      split.
      * intros [[Hb Hn] Hne]. split; [done |]. intros [[-> | Hin] Hk]; tauto.
      * intros [Hb Hn]. split; [split; [done | tauto] |].
        intros ->. apply Hn. split; [by left | done].
    + rewrite IH, elem_of_cons. split.
      * intros [Hb Hn]. split; [done |]. intros [[-> | Hin] Hk]; [congruence | tauto].
      * intros [Hb Hn]. split; [done | tauto].
Qed.

Lemma elem_of_keys {V} (m : gmap string V) (k : string) :
  k ∈ map fst (map_to_list m) <-> is_Some (m !! k).
Proof.
  rewrite list_elem_of_In, in_map_iff. split.
  - intros [[k' v] [<- Hin]]. apply list_elem_of_In, elem_of_map_to_list in Hin. by exists v.
  - intros [v Hv]. exists (k, v). split; [done |].
    by apply list_elem_of_In, elem_of_map_to_list.
Qed.

Lemma elem_of_keysToDelete {V W} (userId : string) (m1 : gmap string V)
    (m2 : gmap string W) (k : string) :
  k ∈ (List.filter (fun key => startsWith key userId) (map fst (map_to_list m1)) ++
       List.filter (fun key => startsWith key userId) (map fst (map_to_list m2)))%list <->
  startsWith k userId = true /\ (is_Some (m1 !! k) \/ is_Some (m2 !! k)).
Proof.
  rewrite elem_of_app, !list_elem_of_In, !filter_In, <- !list_elem_of_In, !elem_of_keys.
  tauto.
Qed.

Section Clear.
Variables (userId : string) (h : RateLimitHandler).

Lemma clear_retryAttempts (key : string) :
  retryAttempts (clearUserAttempts userId h) !! key =
  if startsWith key userId then None else retryAttempts h !! key.
Proof.
  unfold clearUserAttempts. cbn [retryAttempts].
  rewrite foldr_delete_lookup.
  destruct (decide _) as [Hin | Hin].
  - apply elem_of_keysToDelete in Hin as [-> _]. done.
  - destruct (startsWith key userId) eqn:Hk; [| done].
    destruct (retryAttempts h !! key) eqn:Hl; [| done].
    exfalso. apply Hin, elem_of_keysToDelete. split; [done |]. left. by rewrite Hl.
Qed.

Lemma clear_lastRequestTime (key : string) :
  lastRequestTime (clearUserAttempts userId h) !! key =
  if startsWith key userId then None else lastRequestTime h !! key.
Proof.
  unfold clearUserAttempts. cbn [lastRequestTime].
  rewrite foldr_delete_lookup.
  destruct (decide _) as [Hin | Hin].
  - apply elem_of_keysToDelete in Hin as [-> _]. done.
  - destruct (startsWith key userId) eqn:Hk; [| done].
    destruct (lastRequestTime h !! key) eqn:Hl; [| done].
    exfalso. apply Hin, elem_of_keysToDelete. split; [done |]. right. by rewrite Hl.
Qed.

Lemma clear_connectionAttempts (key : string) :
  connectionAttempts (clearUserAttempts userId h) !! key =
  if startsWith key userId then None else connectionAttempts h !! key.
Proof.
  unfold clearUserAttempts. cbn [connectionAttempts].
  rewrite foldr_guarded_delete_lookup.
  destruct (decide _) as [Hin | Hin]; [done |].
  destruct (startsWith key userId); [| done].
  destruct (connectionAttempts h !! key) eqn:Hl; [| done].
  exfalso. apply Hin, elem_of_keys. by rewrite Hl.
Qed.

Lemma clear_blockedOperations (key : string) :
  key ∈ blockedOperations (clearUserAttempts userId h) <->
  key ∈ blockedOperations h /\ startsWith key userId = false.
Proof.
  unfold clearUserAttempts. cbn [blockedOperations].
  rewrite foldr_guarded_remove_elem, elem_of_elements.
  destruct (startsWith key userId); split; intros [Hb Hn]; try tauto; try done.
  split; [done |]. by intros [_ ?].
Qed.
End Clear.

(** C10 (as amended): [clearUserAttempts userId] deletes exactly the
    entries of the four collections whose key starts with [userId] and
    leaves every other entry as it is.  So the entries of another subject
    whose id starts with [userId] are deleted too, and the entries of a
    subject whose id does not start with [userId] are kept provided
    [userId] does not itself start with that id followed by a dash. *)
Theorem clear_removes_prefixed_keys (userId : string) (h : RateLimitHandler) :
  let h' := clearUserAttempts userId h in
  (forall key, retryAttempts h' !! key =
     if startsWith key userId then None else retryAttempts h !! key) /\
  (forall key, lastRequestTime h' !! key =
     if startsWith key userId then None else lastRequestTime h !! key) /\
  (forall key, connectionAttempts h' !! key =
     if startsWith key userId then None else connectionAttempts h !! key) /\
  (forall key, (key ∈ blockedOperations h') <->
     (key ∈ blockedOperations h /\ startsWith key userId = false)) /\
  (forall other operation type,
     startsWith other userId = true ->
     retryAttempts h' !! opKey other operation = None /\
     lastRequestTime h' !! opKey other operation = None /\
     (opKey other operation ∉ blockedOperations h') /\
     connectionAttempts h' !! wsKey other type = None) /\
  (forall other operation type,
     startsWith other userId = false ->
     startsWith userId (other ++ "-") = false ->
     retryAttempts h' !! opKey other operation =
       retryAttempts h !! opKey other operation /\
     lastRequestTime h' !! opKey other operation =
       lastRequestTime h !! opKey other operation /\
     ((opKey other operation ∈ blockedOperations h') <->
      (opKey other operation ∈ blockedOperations h)) /\
     connectionAttempts h' !! wsKey other type =
       connectionAttempts h !! wsKey other type).
Proof.
  intros h'. unfold h'.
  split; [apply clear_retryAttempts |].
  split; [apply clear_lastRequestTime |].
  split; [apply clear_connectionAttempts |].
  split; [apply clear_blockedOperations |].
  split.
  - intros other operation type Hpre.
    assert (Hop : startsWith (opKey other operation) userId = true)
      by (by apply startsWith_app).
    assert (Hws : startsWith (wsKey other type) userId = true)
      by (by apply startsWith_app).
    rewrite clear_retryAttempts, clear_lastRequestTime, clear_connectionAttempts,
      clear_blockedOperations, Hop, Hws.
    repeat split; try done. by intros [_ ?].
  - intros other operation type Hpre Hext.
    assert (Hop : startsWith (opKey other operation) userId = false).
    { apply not_true_is_false. intros H.
      destruct (startsWith_app_inv _ _ _ H); congruence. }
    assert (Hws : startsWith (wsKey other type) userId = false).
    { apply not_true_is_false. intros H.
      change (wsKey other type) with (other ++ "-" ++ ("ws-" ++ type)) in H.
      destruct (startsWith_app_inv _ _ _ H); congruence. }
    rewrite clear_retryAttempts, clear_lastRequestTime, clear_connectionAttempts,
      clear_blockedOperations, Hop, Hws.
    repeat split; try done. by intros [? _].
Qed.

(** C10 as stated fails: clearing "bob-d" deletes the entry of the subject
    "bob" for the operation type [default], although "bob" does not start
    with "bob-d" (and "bob-default" is the key of no other subject). *)
Lemma clear_hits_unrelated_subject :
  let h := setRetryAttempts {[ opKey "bob" "default" := 1 ]} newHandler in
  startsWith "bob" "bob-d" = false /\
  retryAttempts h !! opKey "bob" "default" = Some 1 /\
  retryAttempts (clearUserAttempts "bob-d" h) !! opKey "bob" "default" = None.
Proof. by vm_compute. Qed.

(** ** The retry coordinator *)

Lemma throttle_ledger w userId operationType attempt rt :
  sameLedger rt (throttle w userId operationType attempt rt).
Proof.
  unfold throttle, atNow.
  destruct (gate_cases userId operationType (handler rt) (clock rt)) as [-> | ->].
  - by repeat split.
  - by repeat split.
Qed.

Lemma wsGuard_frame userId operationType rt :
  retryAttempts (handler (wsGuard userId operationType rt).2) =
    retryAttempts (handler rt) /\
  blockedOperations (handler (wsGuard userId operationType rt).2) =
    blockedOperations (handler rt) /\
  invocations (wsGuard userId operationType rt).2 = invocations rt /\
  retries (wsGuard userId operationType rt).2 = retries rt.
Proof.
  unfold wsGuard, atNow.
  destruct (_ || _); [| done].
  unfold shouldRateLimitWebSocket.
  destruct (_ <? _)%Z; [done |]. by destruct (_ <=? _)%nat.
Qed.

Lemma invoke_spec w rt :
  (invoke w rt).1 = (operation w (invocations rt)).2 /\
  retryAttempts (handler (invoke w rt).2) = retryAttempts (handler rt) /\
  connectionAttempts (handler (invoke w rt).2) = connectionAttempts (handler rt) /\
  invocations (invoke w rt).2 = S (invocations rt) /\
  retries (invoke w rt).2 = retries rt.
Proof. unfold invoke. by destruct (operation w (invocations rt)). Qed.

Lemma backOff_spec w key attempt error rt :
  attemptOf (handler (backOff w key attempt error rt)) key = attempt /\
  connectionAttempts (handler (backOff w key attempt error rt)) =
    connectionAttempts (handler rt) /\
  invocations (backOff w key attempt error rt) = invocations rt /\
  retries (backOff w key attempt error rt) = retries rt.
Proof.
  unfold backOff, attemptOf. cbn. by rewrite lookup_insert_eq.
Qed.

Lemma settled_spec w userId operationType rt :
  retryAttempts (handler (settled w userId operationType rt)) =
    retryAttempts (handler rt) /\
  connectionAttempts (handler (settled w userId operationType rt)) =
    connectionAttempts (handler (wsGuard userId operationType rt).2) /\
  invocations (settled w userId operationType rt) = S (invocations rt) /\
  retries (settled w userId operationType rt) = retries rt.
Proof.
  unfold settled.
  destruct (wsGuard_frame userId operationType rt) as (Hr & _ & Hi & Ht).
  set (rt1 := (wsGuard userId operationType rt).2) in *.
  destruct (throttle_ledger w userId operationType
              (attemptOf (handler rt) (opKey userId operationType)) rt1)
    as (Hr2 & Hc2 & Hi2 & Ht2).
  set (rt2 := throttle _ _ _ _ rt1) in *.
  destruct (invoke_spec w rt2) as (_ & Hr3 & Hc3 & Hi3 & Ht3).
  repeat split; congruence.
Qed.

(** One unfolding of the coordinator, in terms of the state in which
    the operation has settled. *)
Lemma executeWithRetryFuel_step fuel w userId operationType maxRetries rt :
  executeWithRetryFuel (S fuel) w userId operationType maxRetries rt =
  let key := opKey userId operationType in
  let attempt := attemptOf (handler rt) key in
  if (wsGuard userId operationType rt).1
  then Some (Rejected wsLimitError, (wsGuard userId operationType rt).2)
  else
    let rt' := settled w userId operationType rt in
    match (operation w (invocations rt)).2 with
    | Resolved result => Some (Resolved result, resetKey key rt')
    | Rejected error =>
        if isRateLimitError error || isWebSocketError error then
          if (attempt <? maxRetries)%nat then
            executeWithRetryFuel fuel w userId operationType maxRetries
              (countRetry (backOff w key (S attempt) error rt'))
          else Some (Rejected (terminalError error), blockKey key rt')
        else Some (Rejected error, rt')
    end.
Proof.
  cbn [executeWithRetryFuel]. unfold settled.
  destruct (wsGuard_frame userId operationType rt) as (_ & _ & Hi & _).
  destruct (wsGuard userId operationType rt) as [b rt1]; cbn [fst snd] in *.
  destruct b; [reflexivity |].
  set (a := attemptOf (handler rt) (opKey userId operationType)).
  destruct (throttle_ledger w userId operationType a rt1) as (_ & _ & Hi2 & _).
  set (rt2 := throttle w userId operationType a rt1) in *.
  destruct (invoke_spec w rt2) as (Ho & _).
  rewrite Hi2, Hi in Ho. rewrite <- Ho.
  destruct (invoke w rt2) as [out rt3]; cbn [fst snd].
  reflexivity.
Qed.

Lemma attemptOf_ext (h h' : RateLimitHandler) (key : string) :
  retryAttempts h' = retryAttempts h -> attemptOf h' key = attemptOf h key.
Proof. unfold attemptOf. by intros ->. Qed.

Lemma wsRoom_ext n userId operationType (h h' : RateLimitHandler) :
  connectionAttempts h' = connectionAttempts h ->
  wsRoom n userId operationType h -> wsRoom n userId operationType h'.
Proof. unfold wsRoom. by intros ->. Qed.

Lemma wsGuard_room n userId operationType rt :
  wsRoom (S n) userId operationType (handler rt) ->
  (wsGuard userId operationType rt).1 = false /\
  wsRoom n userId operationType (handler (wsGuard userId operationType rt).2).
Proof.
  unfold wsRoom, wsGuard, atNow.
  destruct (includes operationType "video" || includes operationType "connect");
    [| intros _; split; [reflexivity | by left]].
  intros [? | Hroom]; [discriminate |].
  unfold shouldRateLimitWebSocket.
  destruct (connectionAttempts (handler rt) !! wsKey userId operationType)
    as [[c f] |] eqn:Hl; cbn [default from_option id count firstAttempt] in *.
  - destruct (300000 <? clock rt - f)%Z.
    + cbn. split; [reflexivity | right]. rewrite lookup_delete_eq. lia.
    + destruct (Nat.leb_spec 5 c); [lia |].
      cbn. split; [reflexivity | right]. rewrite lookup_insert_eq. cbn. lia.
  - replace (clock rt - clock rt)%Z with 0%Z by lia.
    cbn. split; [reflexivity | right]. rewrite lookup_insert_eq. cbn. lia.
Qed.

Section Coordinator.
Variables (w : World) (userId operationType : string) (maxRetries : nat).

(** Enough fuel: the call returns, after at most [maxRetries] minus the
    stored count retries, each with one invocation of the operation;
    a rejected call leaves the stored count increased by the number of
    retries, a resolved call leaves no count. *)
Lemma executeWithRetryFuel_bounded (fuel : nat) (rt : Runtime) :
  maxRetries - attemptOf (handler rt) (opKey userId operationType) < fuel ->
  exists out rt',
    executeWithRetryFuel fuel w userId operationType maxRetries rt = Some (out, rt') /\
    retries rt <= retries rt' /\
    retries rt' - retries rt <=
      maxRetries - attemptOf (handler rt) (opKey userId operationType) /\
    invocations rt <= invocations rt' /\
    invocations rt' - invocations rt <= S (retries rt' - retries rt) /\
    match out with
    | Rejected _ =>
        attemptOf (handler rt') (opKey userId operationType) =
        attemptOf (handler rt) (opKey userId operationType) + (retries rt' - retries rt)
    | Resolved _ =>
        retryAttempts (handler rt') !! opKey userId operationType = None
    end.
Proof.
  revert rt. induction fuel as [| fuel IH]; intros rt Hfuel; [lia |].
  rewrite executeWithRetryFuel_step. cbv zeta.
  destruct (wsGuard_frame userId operationType rt) as (Hgr & _ & Hgi & Hgt).
  destruct (settled_spec w userId operationType rt) as (Hsr & _ & Hsi & Hst).
  destruct ((wsGuard userId operationType rt).1).
  { eexists _, _. split; [reflexivity |].
    rewrite (attemptOf_ext _ _ _ Hgr). lia. }
  destruct ((operation w (invocations rt)).2) as [v | e].
  { eexists _, _. split; [reflexivity |].
    cbn. rewrite lookup_delete_eq. repeat split; first [lia | done]. }
  destruct (isRateLimitError e || isWebSocketError e).
  2:{ eexists _, _. split; [reflexivity |].
      rewrite (attemptOf_ext _ _ _ Hsr). lia. }
  destruct (Nat.ltb_spec (attemptOf (handler rt) (opKey userId operationType)) maxRetries)
    as [Hlt | Hge].
  2:{ eexists _, _. split; [reflexivity |].
      unfold attemptOf in *. cbn. rewrite Hsr. lia. }
  set (rt5 := countRetry (backOff w _ _ e (settled w userId operationType rt))).
  destruct (backOff_spec w (opKey userId operationType)
              (S (attemptOf (handler rt) (opKey userId operationType))) e
              (settled w userId operationType rt)) as (Hba & _ & Hbi & Hbt).
  assert (Ha5 : attemptOf (handler rt5) (opKey userId operationType) =
                S (attemptOf (handler rt) (opKey userId operationType))) by exact Hba.
  assert (Hi5 : invocations rt5 = S (invocations rt)) by (cbn; congruence).
  assert (Ht5 : retries rt5 = S (retries rt)) by (cbn; congruence).
  destruct (IH rt5) as (out & rt' & Hrun & Hr1 & Hr2 & Hi1 & Hi2 & Hout); [lia |].
  exists out, rt'. split; [exact Hrun |].
  repeat split; try lia.
  destruct out; [exact Hout | lia].
Qed.

Lemma executeWithRetryFuel_mono (fuel fuel' : nat) (rt : Runtime) r :
  executeWithRetryFuel fuel w userId operationType maxRetries rt = Some r ->
  fuel <= fuel' ->
  executeWithRetryFuel fuel' w userId operationType maxRetries rt = Some r.
Proof.
  revert fuel' rt. induction fuel as [| fuel IH]; intros fuel' rt Hrun Hle;
    [discriminate |].
  destruct fuel' as [| fuel']; [lia |].
  rewrite executeWithRetryFuel_step in *. cbv zeta in *.
  destruct ((wsGuard userId operationType rt).1); [exact Hrun |].
  destruct ((operation w (invocations rt)).2) as [v | e]; [exact Hrun |].
  destruct (isRateLimitError e || isWebSocketError e); [| exact Hrun].
  destruct (_ <? _)%nat; [| exact Hrun].
  apply IH; [exact Hrun | lia].
Qed.
End Coordinator.

Lemma terminal_errors_classified (e : JsError) :
  e = videoFailedError \/ e = rateLimitExceededError ->
  isRateLimitError e || isWebSocketError e = true /\ e <> wsLimitError.
Proof. intros [-> | ->]; split; first [reflexivity | discriminate]. Qed.

(** A due timer removes its key from the blocked set. *)
Lemma fireDue_removes (now t : Z) (key : string) (pending : list (Z * string))
    (blocked : gset string) :
  (t, key) ∈ pending -> (t <= now)%Z -> key ∉ fireDue now pending blocked.
Proof.
  intros Hin Hdue. induction pending as [| [t' k'] pending IH]; cbn.
  - by apply not_elem_of_nil in Hin.
  - apply elem_of_cons in Hin as [Heq | Hin].
    + injection Heq as <- <-.
      replace (t <=? now)%Z with true by (symmetry; by apply Z.leb_le).
      intros [_ Hn]%elem_of_difference. apply Hn. by apply elem_of_singleton.
    + specialize (IH Hin). destruct (t' <=? now)%Z; [| exact IH].
      by intros [? _]%elem_of_difference.
Qed.

Lemma advance_unblocks (dt t : Z) (key : string) (rt : Runtime) :
  (t, key) ∈ timers rt -> (t <= clock rt + dt)%Z ->
  key ∉ blockedOperations (handler (advance dt rt)).
Proof. intros Hin Hdue. cbn. by eapply fireDue_removes. Qed.

Section Outcomes.
Variables (w : World) (userId operationType : string) (maxRetries : nat).

(** The operation resolves: the call resolves with the same value after
    this one invocation, and the key is neither counted nor blocked. *)
Lemma executeWithRetryFuel_resolves (fuel : nat) (rt : Runtime) (d : Z) (v : Value) :
  (wsGuard userId operationType rt).1 = false ->
  operation w (invocations rt) = (d, Resolved v) ->
  exists rt',
    executeWithRetryFuel (S fuel) w userId operationType maxRetries rt =
      Some (Resolved v, rt') /\
    invocations rt' = S (invocations rt) /\
    retries rt' = retries rt /\
    retryAttempts (handler rt') !! opKey userId operationType = None /\
    opKey userId operationType ∉ blockedOperations (handler rt').
Proof.
  intros Hg Hop. rewrite executeWithRetryFuel_step. cbv zeta.
  rewrite Hg, Hop. cbn [snd].
  destruct (settled_spec w userId operationType rt) as (_ & _ & Hsi & Hst).
  eexists. split; [reflexivity |]. cbn.
  rewrite lookup_delete_eq. repeat split; [done .. |].
  intros [_ Hn]%elem_of_difference. apply Hn. by apply elem_of_singleton.
Qed.

(** The operation throws an error of neither class: the call rejects
    with that error after this one invocation. *)
Lemma executeWithRetryFuel_rethrows (fuel : nat) (rt : Runtime) (d : Z) (e : JsError) :
  (wsGuard userId operationType rt).1 = false ->
  operation w (invocations rt) = (d, Rejected e) ->
  isRateLimitError e = false -> isWebSocketError e = false ->
  exists rt',
    executeWithRetryFuel (S fuel) w userId operationType maxRetries rt =
      Some (Rejected e, rt') /\
    invocations rt' = S (invocations rt) /\
    retries rt' = retries rt /\
    retryAttempts (handler rt') = retryAttempts (handler rt).
Proof.
  intros Hg Hop Hr Hw. rewrite executeWithRetryFuel_step. cbv zeta.
  rewrite Hg, Hop. cbn [snd]. rewrite Hr, Hw. cbn [orb].
  destruct (settled_spec w userId operationType rt) as (Hsr & _ & Hsi & Hst).
  eexists. split; [reflexivity |]. done.
Qed.

(** The operation throws a retryable error when the stored count has
    reached the budget: the key is blocked and the call rejects with the
    terminal error after this one invocation, the count being kept. *)
Lemma executeWithRetryFuel_gives_up (fuel : nat) (rt : Runtime) (d : Z) (e : JsError) :
  (wsGuard userId operationType rt).1 = false ->
  operation w (invocations rt) = (d, Rejected e) ->
  isRateLimitError e || isWebSocketError e = true ->
  maxRetries <= attemptOf (handler rt) (opKey userId operationType) ->
  exists rt',
    executeWithRetryFuel (S fuel) w userId operationType maxRetries rt =
      Some (Rejected (terminalError e), rt') /\
    invocations rt' = S (invocations rt) /\
    retries rt' = retries rt /\
    retryAttempts (handler rt') = retryAttempts (handler rt) /\
    opKey userId operationType ∈ blockedOperations (handler rt') /\
    ((clock rt' + 300000)%Z, opKey userId operationType) ∈ timers rt'.
Proof.
  intros Hg Hop Hc Hge. rewrite executeWithRetryFuel_step. cbv zeta.
  rewrite Hg, Hop. cbn [snd]. rewrite Hc.
  replace (_ <? _)%nat with false by (symmetry; apply Nat.ltb_ge; lia).
  destruct (settled_spec w userId operationType rt) as (Hsr & _ & Hsi & Hst).
  eexists. split; [reflexivity |]. cbn.
  repeat split; [done .. | apply elem_of_union; left; by apply elem_of_singleton |].
  apply elem_of_app. right. apply list_elem_of_here.
Qed.

(** The operation keeps throwing retryable errors: with [n] retries left
    it is invoked [n + 1] times, and the failure of the last invocation
    blocks the key. *)
Lemma executeWithRetryFuel_exhausts (n : nat) :
  forall (fuel : nat) (rt : Runtime),
  attemptOf (handler rt) (opKey userId operationType) + n = maxRetries ->
  n < fuel ->
  wsRoom (S n) userId operationType (handler rt) ->
  (forall k, invocations rt <= k <= invocations rt + n ->
     exists d e, operation w k = (d, Rejected e) /\
                 isRateLimitError e || isWebSocketError e = true) ->
  exists rt' d e,
    operation w (invocations rt + n) = (d, Rejected e) /\
    executeWithRetryFuel fuel w userId operationType maxRetries rt =
      Some (Rejected (terminalError e), rt') /\
    invocations rt' = invocations rt + S n /\
    retries rt' = retries rt + n /\
    attemptOf (handler rt') (opKey userId operationType) = maxRetries /\
    opKey userId operationType ∈ blockedOperations (handler rt') /\
    ((clock rt' + 300000)%Z, opKey userId operationType) ∈ timers rt'.
Proof.
  induction n as [| n IH]; intros fuel rt Ha Hfuel Hroom Hops;
    (destruct fuel as [| fuel]; [lia |]);
    destruct (wsGuard_room _ _ _ _ Hroom) as [Hg Hroom'];
    destruct (Hops (invocations rt)) as (d & e & Hop & Hc); try lia.
  - destruct (executeWithRetryFuel_gives_up fuel rt d e Hg Hop Hc)
      as (rt' & Hrun & Hi & Ht & Hr & Hb & Htm); [lia |].
    exists rt', d, e. rewrite Nat.add_0_r.
    repeat split; try done; try lia.
    rewrite (attemptOf_ext _ _ _ Hr). lia.
  - rewrite executeWithRetryFuel_step. cbv zeta.
    rewrite Hg, Hop. cbn [snd]. rewrite Hc.
    replace (_ <? _)%nat with true by (symmetry; apply Nat.ltb_lt; lia).
    destruct (settled_spec w userId operationType rt) as (Hsr & Hsc & Hsi & Hst).
    set (rt3 := settled w userId operationType rt) in *.
    destruct (backOff_spec w (opKey userId operationType)
                (S (attemptOf (handler rt) (opKey userId operationType))) e rt3)
      as (Hba & Hbc & Hbi & Hbt).
    set (rt5 := countRetry (backOff w _ _ e rt3)).
    destruct (IH fuel rt5) as (rt' & d' & e' & Hop' & Hrun & Hi & Ht & Hat & Hb & Htm).
    + change (handler rt5) with (handler (backOff w (opKey userId operationType)
        (S (attemptOf (handler rt) (opKey userId operationType))) e rt3)).
      rewrite Hba. lia.
    + lia.
    + eapply wsRoom_ext; [| exact Hroom']. cbn. congruence.
    + intros k Hk. apply Hops. cbn in Hk. lia.
    + exists rt', d', e'.
      assert (Hi5 : invocations rt5 = S (invocations rt)) by (cbn; congruence).
      assert (Ht5 : retries rt5 = S (retries rt)) by (cbn; congruence).
      rewrite Hi5 in *. rewrite Ht5 in *.
      replace (invocations rt + S n) with (S (invocations rt) + n) by lia.
      repeat split; try done; lia.
Qed.

(** A call that ends with a terminal error leaves the key blocked and the
    stored count at the larger of its value at entry and the budget. *)
Lemma executeWithRetryFuel_terminal (fuel : nat) :
  forall (rt rt' : Runtime) (e : JsError),
  executeWithRetryFuel fuel w userId operationType maxRetries rt =
    Some (Rejected e, rt') ->
  e = videoFailedError \/ e = rateLimitExceededError ->
  attemptOf (handler rt') (opKey userId operationType) =
    Nat.max (attemptOf (handler rt) (opKey userId operationType)) maxRetries /\
  opKey userId operationType ∈ blockedOperations (handler rt').
Proof.
  induction fuel as [| fuel IH]; intros rt rt' e Hrun He; [discriminate |].
  destruct (terminal_errors_classified e He) as [Hclass Hnws].
  rewrite executeWithRetryFuel_step in Hrun. cbv zeta in Hrun.
  destruct ((wsGuard userId operationType rt).1); [congruence |].
  destruct (settled_spec w userId operationType rt) as (Hsr & _ & _ & _).
  destruct ((operation w (invocations rt)).2) as [v | e0]; [discriminate |].
  destruct (isRateLimitError e0 || isWebSocketError e0) eqn:Hc0.
  2:{ injection Hrun as -> _. congruence. }
  destruct (Nat.ltb_spec (attemptOf (handler rt) (opKey userId operationType)) maxRetries)
    as [Hlt | Hge].
  - destruct (IH _ _ _ Hrun He) as [Hat Hb]. split; [| exact Hb].
    rewrite Hat.
    destruct (backOff_spec w (opKey userId operationType)
                (S (attemptOf (handler rt) (opKey userId operationType))) e0
                (settled w userId operationType rt)) as (Hba & _).
    change (attemptOf (handler (countRetry ?r)) ?k) with (attemptOf (handler r) k).
    rewrite Hba. lia.
  - injection Hrun as _ <-. cbn.
    split; [| apply elem_of_union; left; by apply elem_of_singleton].
    unfold attemptOf in *. cbn. rewrite Hsr. lia.
Qed.
End Outcomes.

Section Invocations.
Variables (w : World) (userId operationType : string) (maxRetries : nat).

(** Every invocation of a call but the last one threw. *)
Lemma executeWithRetryFuel_earlier_threw (fuel : nat) :
  forall (rt rt' : Runtime) (out : Outcome),
  executeWithRetryFuel fuel w userId operationType maxRetries rt = Some (out, rt') ->
  forall k, invocations rt <= k -> S k < invocations rt' ->
  exists d e, operation w k = (d, Rejected e).
Proof.
  induction fuel as [| fuel IH]; intros rt rt' out Hrun k Hlo Hhi; [discriminate |].
  rewrite executeWithRetryFuel_step in Hrun. cbv zeta in Hrun.
  destruct (wsGuard_frame userId operationType rt) as (_ & _ & Hgi & _).
  destruct (settled_spec w userId operationType rt) as (_ & _ & Hsi & _).
  destruct ((wsGuard userId operationType rt).1).
  { injection Hrun as _ <-. lia. }
  destruct (operation w (invocations rt)) as [d o] eqn:Hop. cbn [snd] in Hrun.
  destruct o as [v | e].
  { injection Hrun as _ <-. cbn in Hhi. lia. }
  destruct (isRateLimitError e || isWebSocketError e).
  2:{ injection Hrun as _ <-. lia. }
  destruct (_ <? _)%nat.
  2:{ injection Hrun as _ <-. cbn in Hhi. lia. }
  destruct (decide (k = invocations rt)) as [-> | Hne]; [eauto |].
  eapply IH; [exact Hrun | | exact Hhi].
  destruct (backOff_spec w (opKey userId operationType)
              (S (attemptOf (handler rt) (opKey userId operationType))) e
              (settled w userId operationType rt)) as (_ & _ & Hbi & _).
  cbn. lia.
Qed.

End Invocations.

(** Suspensions and gates never add a key to the blocked set. *)
Lemma fireDue_subseteq (now : Z) (pending : list (Z * string))
    (blocked : gset string) (key : string) :
  key ∈ fireDue now pending blocked -> key ∈ blocked.
Proof.
  induction pending as [| [t k] pending IH]; cbn; [done |].
  destruct (t <=? now)%Z; [| exact IH].
  intros [Hin _]%elem_of_difference. by apply IH.
Qed.

Lemma advance_blocked (dt : Z) (rt : Runtime) (key : string) :
  key ∈ blockedOperations (handler (advance dt rt)) ->
  key ∈ blockedOperations (handler rt).
Proof. cbn. apply fireDue_subseteq. Qed.

Lemma throttle_blocked w userId operationType attempt rt (key : string) :
  key ∈ blockedOperations (handler (throttle w userId operationType attempt rt)) ->
  key ∈ blockedOperations (handler rt).
Proof.
  unfold throttle, atNow.
  destruct (gate_cases userId operationType (handler rt) (clock rt)) as [-> | ->].
  - cbn. apply fireDue_subseteq.
  - done.
Qed.

Lemma settled_blocked w userId operationType rt (key : string) :
  key ∈ blockedOperations (handler (settled w userId operationType rt)) ->
  key ∈ blockedOperations (handler rt).
Proof.
  unfold settled, invoke. intros Hin.
  destruct (wsGuard_frame userId operationType rt) as (_ & <- & _).
  eapply throttle_blocked.
  destruct (operation w _) as [d o]. cbn in Hin.
  eapply fireDue_subseteq, Hin.
Qed.

Lemma backOff_blocked w key' attempt error rt (key : string) :
  key ∈ blockedOperations (handler (backOff w key' attempt error rt)) ->
  key ∈ blockedOperations (handler rt).
Proof. unfold backOff. cbn. apply fireDue_subseteq. Qed.

Lemma terminalError_cases (error : JsError) :
  terminalError error = videoFailedError \/
  terminalError error = rateLimitExceededError.
Proof. unfold terminalError. destruct (isWebSocketError error); auto. Qed.

(** A call puts its key into the blocked set only by ending with a
    terminal error. *)
Lemma executeWithRetryFuel_blocks_at_terminal (w : World)
    (userId operationType : string) (maxRetries fuel : nat) :
  forall (rt rt' : Runtime) (out : Outcome),
  executeWithRetryFuel fuel w userId operationType maxRetries rt = Some (out, rt') ->
  opKey userId operationType ∈ blockedOperations (handler rt') ->
  opKey userId operationType ∈ blockedOperations (handler rt) \/
  out = Rejected videoFailedError \/ out = Rejected rateLimitExceededError.
Proof.
  induction fuel as [| fuel IH]; intros rt rt' out Hrun Hin; [discriminate |].
  rewrite executeWithRetryFuel_step in Hrun. cbv zeta in Hrun.
  destruct ((wsGuard userId operationType rt).1).
  { injection Hrun as _ <-. left.
    by destruct (wsGuard_frame userId operationType rt) as (_ & <- & _). }
  destruct ((operation w (invocations rt)).2) as [v | e].
  { injection Hrun as _ <-. cbn in Hin.
    apply elem_of_difference in Hin as [_ Hn]. exfalso. apply Hn.
    by apply elem_of_singleton. }
  destruct (isRateLimitError e || isWebSocketError e).
  2:{ injection Hrun as _ <-. left. by eapply settled_blocked. }
  destruct (_ <? _)%nat.
  - destruct (IH _ _ _ Hrun Hin) as [Hb | Hterm]; [left | by right].
    eapply settled_blocked, backOff_blocked. exact Hb.
  - injection Hrun as <- _. right.
    destruct (terminalError_cases e) as [-> | ->]; auto.
Qed.

(** ** The claims about the coordinator and the channel cache *)

(** ** What a call does for a blocked key *)

Lemma wsGuard_event_loop userId operationType rt :
  clock (wsGuard userId operationType rt).2 = clock rt /\
  timers (wsGuard userId operationType rt).2 = timers rt /\
  draws (wsGuard userId operationType rt).2 = draws rt /\
  sleeps (wsGuard userId operationType rt).2 = sleeps rt.
Proof.
  unfold wsGuard, atNow. destruct (_ || _); [| done].
  by destruct (shouldRateLimitWebSocket _ _ _ _).
Qed.

(** For a blocked key the gate answers at once, and the call then sleeps
    for the backoff delay of the stored attempt count. *)
Lemma throttle_on_blocked w userId operationType attempt rt :
  opKey userId operationType ∈ blockedOperations (handler rt) ->
  throttle w userId operationType attempt rt =
  sleep w (calculateBackoffDelay attempt (random w (draws rt))) (drawRandom w rt).2.
Proof.
  intros Hin. unfold throttle, atNow.
  rewrite (gate_blocked_key userId operationType (handler rt) (clock rt) Hin).
  by destruct rt.
Qed.

Lemma throttle_sleeps w userId operationType attempt rt :
  sleeps rt <= sleeps (throttle w userId operationType attempt rt).
Proof.
  unfold throttle, atNow.
  destruct (gate_cases userId operationType (handler rt) (clock rt)) as [-> | ->];
    cbn; lia.
Qed.

Lemma settled_sleeps w userId operationType rt :
  sleeps rt <= sleeps (settled w userId operationType rt).
Proof.
  unfold settled.
  destruct (wsGuard_event_loop userId operationType rt) as (_ & _ & _ & Hs).
  pose proof (throttle_sleeps w userId operationType
                (attemptOf (handler rt) (opKey userId operationType))
                (wsGuard userId operationType rt).2) as Ht.
  unfold invoke. destruct (operation w _). cbn. lia.
Qed.

Section Blocked.
Variables (w : World) (userId operationType : string) (maxRetries : nat).

Lemma executeWithRetryFuel_counters (fuel : nat) :
  forall (rt rt' : Runtime) (out : Outcome),
  executeWithRetryFuel fuel w userId operationType maxRetries rt = Some (out, rt') ->
  sleeps rt <= sleeps rt' /\ invocations rt <= invocations rt'.
Proof.
  induction fuel as [| fuel IH]; intros rt rt' out Hrun; [discriminate |].
  rewrite executeWithRetryFuel_step in Hrun. cbv zeta in Hrun.
  destruct (wsGuard_event_loop userId operationType rt) as (_ & _ & _ & Hgs).
  destruct (wsGuard_frame userId operationType rt) as (_ & _ & Hgi & _).
  destruct (settled_spec w userId operationType rt) as (_ & _ & Hsi & _).
  pose proof (settled_sleeps w userId operationType rt) as Hss.
  destruct ((wsGuard userId operationType rt).1).
  { injection Hrun as _ <-. lia. }
  destruct ((operation w (invocations rt)).2) as [v | e].
  { injection Hrun as _ <-. cbn. lia. }
  destruct (isRateLimitError e || isWebSocketError e).
  2:{ injection Hrun as _ <-. lia. }
  destruct (_ <? _)%nat.
  2:{ injection Hrun as _ <-. cbn. lia. }
  destruct (IH _ _ _ Hrun) as [Hs Hi].
  destruct (backOff_spec w (opKey userId operationType)
              (S (attemptOf (handler rt) (opKey userId operationType))) e
              (settled w userId operationType rt)) as (_ & _ & Hbi & _).
  assert (Hbs : sleeps (settled w userId operationType rt) <=
                sleeps (backOff w (opKey userId operationType)
                          (S (attemptOf (handler rt) (opKey userId operationType))) e
                          (settled w userId operationType rt))).
  { unfold backOff, drawRandom, sleep. cbn. lia. }
  cbn in Hs, Hi. lia.
Qed.

(** The state in which the operation has settled, for a blocked key: the
    call has slept once and invoked the operation once. *)
Lemma settled_on_blocked (rt : Runtime) :
  opKey userId operationType ∈ blockedOperations (handler rt) ->
  sleeps (settled w userId operationType rt) = S (sleeps rt) /\
  ((0 <= random w (draws rt))%Q -> (0 <= latency w (sleeps rt))%Z ->
   (clock rt +
    Z.min (2000 * 2 ^ Z.of_nat (attemptOf (handler rt) (opKey userId operationType)))
          60000 +
    (operation w (invocations rt)).1
    <= clock (settled w userId operationType rt))%Z).
Proof.
  intros Hin. unfold settled.
  destruct (wsGuard_frame userId operationType rt) as (_ & Hgb & Hgi & _).
  destruct (wsGuard_event_loop userId operationType rt) as (Hgc & _ & Hgd & Hgs).
  set (rt1 := (wsGuard userId operationType rt).2) in *.
  set (attempt := attemptOf (handler rt) (opKey userId operationType)).
  rewrite throttle_on_blocked by (by rewrite Hgb).
  set (rt2 := sleep w _ _).
  assert (Hs2 : sleeps rt2 = S (sleeps rt)) by (unfold rt2, sleep; cbn; congruence).
  assert (Hi2 : invocations rt2 = invocations rt) by (unfold rt2, sleep; cbn; congruence).
  unfold invoke. rewrite Hi2.
  destruct (operation w (invocations rt)) as [d o]. cbn [snd fst].
  split; [cbn; exact Hs2 |].
  intros Hrnd Hlat. cbn [clock advance].
  assert (Hc2 : (clock rt + Z.min (2000 * 2 ^ Z.of_nat attempt) 60000 <= clock rt2)%Z).
  { rewrite <- Hgc. change (clock rt1) with (clock (drawRandom w rt1).2).
    unfold rt2. pose proof (base_range attempt) as Hb.
    apply sleep_clock.
    - lia.
    - apply backoff_at_least. by rewrite Hgd.
    - cbn. by rewrite Hgs. }
  lia.
Qed.
End Blocked.

(** C1: a call for a blocked key is delayed, not refused.  The rate limit
    gate reports the key as blocked; for a call that the WebSocket gate
    lets through, [executeWithRetry] then sleeps and invokes the
    operation all the same.  When this invocation resolves, the call
    resolves with its value after that one sleep of the backoff delay and
    removes the key from the blocked set, whatever is left of the five
    minutes. *)
Theorem blocked_key_only_delayed (w : World) (userId operationType : string)
    (maxRetries : nat) (rt : Runtime) :
  opKey userId operationType ∈ blockedOperations (handler rt) ->
  (wsGuard userId operationType rt).1 = false ->
  (shouldRateLimit (clock rt) userId operationType (handler rt)).1 = true /\
  exists out rt',
    executeWithRetry w userId operationType maxRetries rt = Some (out, rt') /\
    sleeps rt < sleeps rt' /\
    invocations rt < invocations rt' /\
    forall d v, operation w (invocations rt) = (d, Resolved v) ->
      out = Resolved v /\
      sleeps rt' = S (sleeps rt) /\
      invocations rt' = S (invocations rt) /\
      (opKey userId operationType ∉ blockedOperations (handler rt')) /\
      ((0 <= random w (draws rt))%Q -> (0 <= latency w (sleeps rt))%Z ->
       (clock rt +
        Z.min (2000 * 2 ^ Z.of_nat (attemptOf (handler rt) (opKey userId operationType)))
              60000 + d
        <= clock rt')%Z).
Proof.
  intros Hin Hg.
  split; [by rewrite gate_blocked_key |].
  destruct (executeWithRetryFuel_bounded w userId operationType maxRetries
              (S maxRetries) rt) as (out & rt' & Hrun & _); [lia |].
  exists out, rt'. split; [exact Hrun |].
  destruct (settled_on_blocked w userId operationType rt Hin) as [Hss Hsc].
  destruct (settled_spec w userId operationType rt) as (_ & _ & Hsi & _).
  unfold executeWithRetry in Hrun.
  rewrite executeWithRetryFuel_step in Hrun. cbv zeta in Hrun. rewrite Hg in Hrun.
  destruct (operation w (invocations rt)) as [d0 o] eqn:Hop. cbn [snd fst] in *.
  destruct o as [v0 | e].
  { injection Hrun as <- <-. cbn [sleeps invocations resetKey setHandler].
    split; [lia |]. split; [lia |].
    intros d v [= <- <-]. split; [reflexivity |]. split; [exact Hss |].
    split; [exact Hsi |]. split.
    - cbn. intros [_ Hn]%elem_of_difference. apply Hn. by apply elem_of_singleton.
    - exact Hsc. }
  assert (Hlater : sleeps (settled w userId operationType rt) <= sleeps rt' /\
                   invocations (settled w userId operationType rt) <= invocations rt').
  { destruct (isRateLimitError e || isWebSocketError e).
    2:{ injection Hrun as _ <-. lia. }
    destruct (_ <? _)%nat.
    2:{ injection Hrun as _ <-. cbn. lia. }
    destruct (executeWithRetryFuel_counters _ _ _ _ _ _ _ _ Hrun) as [Hs Hi].
    destruct (backOff_spec w (opKey userId operationType)
                (S (attemptOf (handler rt) (opKey userId operationType))) e
                (settled w userId operationType rt)) as (_ & _ & Hbi & _).
    assert (Hbs : sleeps (settled w userId operationType rt) <=
                  sleeps (backOff w (opKey userId operationType)
                            (S (attemptOf (handler rt) (opKey userId operationType))) e
                            (settled w userId operationType rt))).
    { unfold backOff, drawRandom, sleep. cbn. lia. }
    cbn in Hs, Hi. lia. }
  split; [lia |]. split; [lia |]. intros d v [=].
Qed.

(** The key is blocked by a first call that uses up its two retries; the
    next call for it sleeps for the backoff delay of the count 2, invokes
    the operation a fourth time and resolves, 8010 ms later. *)
Lemma blocked_key_only_delayed_witness :
  let w := throwsThenResolves 3 10 statusCode429Error 7 in
  exists rt1 rt2,
    executeWithRetry w "u1" "user-init" 2 (newRuntime t0) =
      Some (Rejected rateLimitExceededError, rt1) /\
    opKey "u1" "user-init" ∈ blockedOperations (handler rt1) /\
    executeWithRetry w "u1" "user-init" 2 rt1 = Some (Resolved 7, rt2) /\
    invocations rt1 = 3 /\ invocations rt2 = 4 /\
    (opKey "u1" "user-init" ∉ blockedOperations (handler rt2)) /\
    (clock rt2 - clock rt1 = 8010)%Z.
Proof.
  intros w.
  destruct (executeWithRetry w "u1" "user-init" 2 (newRuntime t0))
    as [[out1 r1] |] eqn:Hrun1; [| by vm_compute in Hrun1].
  vm_compute in Hrun1. injection Hrun1 as <- <-.
  match goal with
  | |- exists a b, Some (_, ?r) = _ /\ _ => set (rt1 := r)
  end.
  assert (Hin : opKey "u1" "user-init" ∈ blockedOperations (handler rt1))
    by (by vm_compute).
  destruct (blocked_key_only_delayed w "u1" "user-init" 2 rt1 Hin eq_refl)
    as (_ & out & rt2 & Hrun2 & _ & _ & Hres).
  destruct (Hres 10%Z 7 eq_refl) as (-> & _ & Hi & Hb & _).
  exists rt1, rt2.
  split; [reflexivity |]. split; [exact Hin |]. split; [exact Hrun2 |].
  split; [reflexivity |]. split; [exact Hi |]. split; [exact Hb |].
  vm_compute in Hrun2. injection Hrun2 as <-. reflexivity.
Defined.

(** ** Retries that the WebSocket gate may refuse *)

Section Refusal.
Variables (w : World) (userId operationType : string) (maxRetries : nat).

(** The operation keeps throwing retryable errors: with [n] retries left
    the call either is refused by the WebSocket gate at one of its
    attempts, after at most [n] invocations, or invokes the operation
    [n + 1] times and ends with the terminal error of the last failure. *)
Lemma executeWithRetryFuel_exhausts_or_refused (n : nat) :
  forall (fuel : nat) (rt : Runtime),
  attemptOf (handler rt) (opKey userId operationType) + n = maxRetries ->
  n < fuel ->
  (forall k, invocations rt <= k <= invocations rt + n ->
     exists d e, operation w k = (d, Rejected e) /\
                 isRateLimitError e || isWebSocketError e = true) ->
  exists out rt',
    executeWithRetryFuel fuel w userId operationType maxRetries rt = Some (out, rt') /\
    ((out = Rejected wsLimitError /\
      invocations rt' <= invocations rt + n /\ retries rt' <= retries rt + n) \/
     (exists d e,
        operation w (invocations rt + n) = (d, Rejected e) /\
        out = Rejected (terminalError e) /\
        invocations rt' = invocations rt + S n /\
        retries rt' = retries rt + n /\
        opKey userId operationType ∈ blockedOperations (handler rt'))).
Proof.
  induction n as [| n IH]; intros fuel rt Ha Hfuel Hops;
    (destruct fuel as [| fuel]; [lia |]);
    destruct (wsGuard_frame userId operationType rt) as (_ & _ & Hgi & Hgt);
    destruct (Hops (invocations rt)) as (d & e & Hop & Hc); try lia;
    (destruct ((wsGuard userId operationType rt).1) eqn:Hg;
     [ rewrite executeWithRetryFuel_step; cbv zeta; rewrite Hg;
       eexists _, _; split; [reflexivity |]; left; split; [reflexivity | lia] |]).
  - destruct (executeWithRetryFuel_gives_up w userId operationType maxRetries
                fuel rt d e Hg Hop Hc) as (rt' & Hrun & Hi & Ht & _ & Hb & _); [lia |].
    exists (Rejected (terminalError e)), rt'. split; [exact Hrun |].
    right. exists d, e. rewrite Nat.add_0_r. repeat split; try done; lia.
  - rewrite executeWithRetryFuel_step. cbv zeta.
    rewrite Hg, Hop. cbn [snd]. rewrite Hc.
    replace (_ <? _)%nat with true by (symmetry; apply Nat.ltb_lt; lia).
    destruct (settled_spec w userId operationType rt) as (Hsr & Hsc & Hsi & Hst).
    set (rt3 := settled w userId operationType rt) in *.
    destruct (backOff_spec w (opKey userId operationType)
                (S (attemptOf (handler rt) (opKey userId operationType))) e rt3)
      as (Hba & Hbc & Hbi & Hbt).
    set (rt5 := countRetry (backOff w _ _ e rt3)).
    assert (Hi5 : invocations rt5 = S (invocations rt)) by (cbn; congruence).
    assert (Ht5 : retries rt5 = S (retries rt)) by (cbn; congruence).
    destruct (IH fuel rt5) as (out & rt' & Hrun & Hcases).
    + change (handler rt5) with (handler (backOff w (opKey userId operationType)
        (S (attemptOf (handler rt) (opKey userId operationType))) e rt3)).
      rewrite Hba. lia.
    + lia.
    + intros k Hk. apply Hops. lia.
    + exists out, rt'. split; [exact Hrun |].
      rewrite Hi5, Ht5 in Hcases.
      destruct Hcases as [(-> & Hi & Ht) | (d' & e' & Hop' & -> & Hi & Ht & Hb)].
      * left. split; [reflexivity | lia].
      * right. exists d', e'.
        replace (invocations rt + S n) with (S (invocations rt) + n) by lia.
        repeat split; try done; lia.
Qed.
End Refusal.

(** C2 (as amended): an operation that always throws an error which
    [isRateLimitError] accepts and [isWebSocketError] does not, called with
    [maxRetries = 2] for a key without retry state, is invoked exactly
    three times, and the call rejects with the terminal rate limit error,
    unless the WebSocket gate refuses one of the three attempts: the call
    then rejects with the WebSocket limit error after fewer than three
    invocations.  The gate refuses none when it has room for three
    attempts, as it has for an operation type that is not subject to
    it. *)
Theorem rate_limit_error_three_invocations (w : World)
    (userId operationType : string) (rt : Runtime) :
  attemptOf (handler rt) (opKey userId operationType) = 0 ->
  (forall k, exists d e, operation w k = (d, Rejected e) /\
                         isRateLimitError e = true /\ isWebSocketError e = false) ->
  exists out rt',
    executeWithRetry w userId operationType 2 rt = Some (out, rt') /\
    ((out = Rejected rateLimitExceededError /\
      invocations rt' = invocations rt + 3 /\ retries rt' = retries rt + 2) \/
     (out = Rejected wsLimitError /\ invocations rt' < invocations rt + 3)) /\
    (wsRoom 3 userId operationType (handler rt) ->
     out = Rejected rateLimitExceededError).
Proof.
  intros Hfresh Hops.
  assert (Hops' : forall k, invocations rt <= k <= invocations rt + 2 ->
            exists d e, operation w k = (d, Rejected e) /\
                        isRateLimitError e || isWebSocketError e = true).
  { intros k _. destruct (Hops k) as (d & e & Hop & Hr & _).
    exists d, e. split; [exact Hop |]. by rewrite Hr. }
  destruct (executeWithRetryFuel_exhausts_or_refused w userId operationType 2 2 3 rt)
    as (out & rt' & Hrun & Hcases); [lia | lia | exact Hops' |].
  exists out, rt'. split; [exact Hrun |].
  assert (Hterm : forall e, isWebSocketError e = false ->
            terminalError e = rateLimitExceededError).
  { intros e He. unfold terminalError. by rewrite He. }
  split.
  - destruct Hcases as [(-> & Hi & _) | (d & e & Hop & -> & Hi & Ht & _)].
    + right. split; [reflexivity | lia].
    + left. destruct (Hops (invocations rt + 2)) as (d' & e' & Hop' & _ & Hws).
      rewrite Hop in Hop'. injection Hop' as _ <-.
      rewrite (Hterm e Hws). by repeat split.
  - intros Hroom.
    destruct (executeWithRetryFuel_exhausts w userId operationType 2 2 3 rt)
      as (rt'' & d & e & Hop & Hrun' & _); [lia | lia | exact Hroom | exact Hops' |].
    unfold executeWithRetry in Hrun. rewrite Hrun in Hrun'.
    injection Hrun' as -> _.
    destruct (Hops (invocations rt + 2)) as (d' & e' & Hop' & _ & Hws).
    rewrite Hop in Hop'. injection Hop' as _ <-.
    by rewrite (Hterm e Hws).
Qed.

(** The status-code error through the WebSocket gate ([user-connect]). *)
Lemma rate_limit_error_three_invocations_witness :
  exists rt',
    executeWithRetry (alwaysThrows 10 statusCode429Error) "u1" "user-connect" 2
      (newRuntime t0) = Some (Rejected rateLimitExceededError, rt') /\
    invocations rt' = 3 /\ retries rt' = 2.
Proof.
  destruct (rate_limit_error_three_invocations
              (alwaysThrows 10 statusCode429Error) "u1" "user-connect" (newRuntime t0))
    as (out & rt' & Hrun & Hcases & Hroom).
  - reflexivity.
  - intros k. exists 10%Z, statusCode429Error. repeat split; reflexivity.
  - assert (Hout : out = Rejected rateLimitExceededError).
    { apply Hroom. right. vm_compute. lia. }
    subst out. exists rt'. split; [exact Hrun |].
    destruct Hcases as [(_ & Hi & Ht) | (Hne & _)]; [| discriminate Hne].
    split; [exact Hi | exact Ht].
Defined.

(** C2 as stated fails, in three ways.  An error whose text is just 429
    matches no indicator: the operation is invoked once and its error is
    rethrown.  An error with 429 in its text that is also a WebSocket
    error is retried twice, but the call ends with the video error, not
    with the rate limit error.  And for an operation type that is subject
    to the WebSocket gate, with five attempts counted in the window, the
    call is refused before the first invocation, although the key has no
    retry state. *)
Lemma text_429_is_not_enough :
  let bare := newError "429" in
  let both := newError "WebSocket closed with status code 429" in
  let full :=
    setHandler
      (setConnectionAttempts
         {[ wsKey "u1" "video-call" := {| count := 5; firstAttempt := t0 |} ]}
         newHandler)
      (newRuntime t0) in
  (includes (message bare) "429" = true /\
   exists rt',
     executeWithRetry (alwaysThrows 10 bare) "u1" "user-init" 2 (newRuntime t0) =
       Some (Rejected bare, rt') /\
     invocations rt' = 1 /\ retries rt' = 0) /\
  (includes (message both) "429" = true /\
   isRateLimitError both = true /\ isWebSocketError both = true /\
   exists rt',
     executeWithRetry (alwaysThrows 10 both) "u1" "user-init" 2 (newRuntime t0) =
       Some (Rejected videoFailedError, rt') /\
     invocations rt' = 3 /\ retries rt' = 2) /\
  (includes (message statusCode429Error) "429" = true /\
   isRateLimitError statusCode429Error = true /\
   isWebSocketError statusCode429Error = false /\
   retryAttempts (handler full) = ∅ /\
   exists rt',
     executeWithRetry (alwaysThrows 10 statusCode429Error) "u1" "video-call" 2 full =
       Some (Rejected wsLimitError, rt') /\
     invocations rt' = 0 /\ retries rt' = 0).
Proof.
  intros bare both full.
  split; [| split].
  - split; [reflexivity |].
    eexists. split; [vm_compute; reflexivity |]. by vm_compute.
  - split; [reflexivity |]. split; [reflexivity |]. split; [reflexivity |].
    eexists. split; [vm_compute; reflexivity |]. by vm_compute.
  - split; [reflexivity |]. split; [reflexivity |]. split; [reflexivity |].
    split; [reflexivity |].
    eexists. split; [vm_compute; reflexivity |]. by vm_compute.
Qed.

(** C5: when the call gets past the WebSocket gate and the operation throws
    an error that neither classifier accepts, the operation has been
    invoked exactly once, no retry is made, the stored counts are as
    before, and the call rejects with that very error. *)
Theorem unclassified_error_rethrown (w : World) (userId operationType : string)
    (maxRetries : nat) (rt : Runtime) (d : Z) (e : JsError) :
  (wsGuard userId operationType rt).1 = false ->
  operation w (invocations rt) = (d, Rejected e) ->
  isRateLimitError e = false -> isWebSocketError e = false ->
  exists rt',
    executeWithRetry w userId operationType maxRetries rt = Some (Rejected e, rt') /\
    invocations rt' = S (invocations rt) /\
    retries rt' = retries rt /\
    retryAttempts (handler rt') = retryAttempts (handler rt).
Proof. apply executeWithRetryFuel_rethrows. Qed.

(** A type error thrown inside a [video-call] operation. *)
Lemma unclassified_error_rethrown_witness :
  let e := newError "Cannot read properties of undefined" in
  exists rt',
    executeWithRetry (alwaysThrows 10 e) "u1" "video-call" 3 (newRuntime t0) =
      Some (Rejected e, rt') /\
    invocations rt' = 1 /\ retries rt' = 0 /\
    retryAttempts (handler rt') = ∅.
Proof.
  intros e.
  apply (unclassified_error_rethrown (alwaysThrows 10 e) "u1" "video-call" 3
           (newRuntime t0) 10 e); reflexivity.
Defined.

(** ** The coordinator among other tasks *)

Lemma resume_alone (before after : Runtime) : resume alone before after = after.
Proof. unfold resume, alone. destruct (_ <? _)%nat; by destruct after. Qed.

(** Without other tasks the two definitions of the coordinator agree. *)
Lemma executeWithRetryAmid_alone (fuel : nat) (w : World)
    (userId operationType : string) (maxRetries : nat) :
  forall rt,
  executeWithRetryAmid alone fuel w userId operationType maxRetries rt =
  executeWithRetryFuel fuel w userId operationType maxRetries rt.
Proof.
  induction fuel as [| fuel IH]; intros rt; [reflexivity |].
  cbn [executeWithRetryAmid executeWithRetryFuel].
  destruct (wsGuard userId operationType rt) as [[|] rt1]; [reflexivity |].
  rewrite resume_alone.
  destruct (invoke w _) as [[v | e] rt2]; rewrite !resume_alone; [reflexivity |].
  destruct (_ || _); [| reflexivity].
  destruct (_ <? _)%nat; [| reflexivity].
  apply IH.
Qed.

Lemma resume_spec (others : Others) (before after : Runtime) :
  clock (resume others before after) = clock after /\
  timers (resume others before after) = timers after /\
  draws (resume others before after) = draws after /\
  sleeps (resume others before after) = sleeps after /\
  invocations (resume others before after) = invocations after /\
  retries (resume others before after) = retries after.
Proof. unfold resume. by destruct (_ <? _)%nat. Qed.

Lemma resume_count (others : Others) (key : string) (before after : Runtime) :
  keepsCount others key ->
  attemptOf (handler after) key <= attemptOf (handler (resume others before after)) key.
Proof.
  intros Hk. unfold resume. destruct (_ <? _)%nat; [apply Hk | lia].
Qed.

Section Amid.
Variables (others : Others) (w : World) (userId operationType : string)
  (maxRetries : nat).
Hypothesis others_keep : keepsCount others (opKey userId operationType).

(** One unfolding, with names for the states at which the call resumes. *)
Lemma executeWithRetryAmid_step (fuel : nat) (rt : Runtime) :
  executeWithRetryAmid others (S fuel) w userId operationType maxRetries rt =
  let key := opKey userId operationType in
  let attempt := attemptOf (handler rt) key in
  let rt1 := (wsGuard userId operationType rt).2 in
  let rt2 := resume others rt1 (throttle w userId operationType attempt rt1) in
  let rt3 := resume others rt2 (invoke w rt2).2 in
  if (wsGuard userId operationType rt).1 then Some (Rejected wsLimitError, rt1)
  else
    match (invoke w rt2).1 with
    | Resolved result => Some (Resolved result, resetKey key rt3)
    | Rejected error =>
        if isRateLimitError error || isWebSocketError error then
          if (attempt <? maxRetries)%nat then
            executeWithRetryAmid others fuel w userId operationType maxRetries
              (countRetry (resume others rt3 (backOff w key (S attempt) error rt3)))
          else Some (Rejected (terminalError error), blockKey key rt3)
        else Some (Rejected error, rt3)
    end.
Proof.
  cbn [executeWithRetryAmid]. cbv zeta.
  destruct (wsGuard userId operationType rt) as [b rt1]; cbn [fst snd].
  destruct b; [reflexivity |].
  by destruct (invoke w _) as [out rt3].
Qed.

(** Up to the settling of the operation: one invocation, no retry, and a
    stored count that is not lower than before. *)
Lemma settledAmid_spec (rt : Runtime) :
  let attempt := attemptOf (handler rt) (opKey userId operationType) in
  let rt1 := (wsGuard userId operationType rt).2 in
  let rt2 := resume others rt1 (throttle w userId operationType attempt rt1) in
  let rt3 := resume others rt2 (invoke w rt2).2 in
  invocations rt1 = invocations rt /\ retries rt1 = retries rt /\
  invocations rt3 = S (invocations rt) /\ retries rt3 = retries rt /\
  attempt <= attemptOf (handler rt3) (opKey userId operationType).
Proof.
  intros attempt rt1 rt2 rt3.
  destruct (wsGuard_frame userId operationType rt) as (Hr1 & _ & Hi1 & Ht1).
  fold rt1 in Hr1, Hi1, Ht1.
  destruct (throttle_ledger w userId operationType attempt rt1) as (Hr2 & _ & Hi2 & Ht2).
  destruct (resume_spec others rt1 (throttle w userId operationType attempt rt1))
    as (_ & _ & _ & _ & Hi2' & Ht2').
  fold rt2 in Hi2', Ht2'.
  destruct (invoke_spec w rt2) as (_ & Hr3 & _ & Hi3 & Ht3).
  destruct (resume_spec others rt2 (invoke w rt2).2) as (_ & _ & _ & _ & Hi3' & Ht3').
  fold rt3 in Hi3', Ht3'.
  split; [exact Hi1 |]. split; [exact Ht1 |].
  split; [congruence |]. split; [congruence |].
  pose proof (resume_count others _ rt2 (invoke w rt2).2 others_keep) as Hc3.
  fold rt3 in Hc3.
  pose proof (resume_count others _ rt1 (throttle w userId operationType attempt rt1)
                others_keep) as Hc2.
  fold rt2 in Hc2.
  rewrite (attemptOf_ext _ _ _ Hr3) in Hc3.
  rewrite (attemptOf_ext _ _ _ Hr2), (attemptOf_ext _ _ _ Hr1) in Hc2.
  unfold attempt. lia.
Qed.

(** Enough fuel: the call returns, after at most [maxRetries] minus the
    stored count retries, each with one invocation. *)
Lemma executeWithRetryAmid_bounded (fuel : nat) :
  forall rt,
  maxRetries - attemptOf (handler rt) (opKey userId operationType) < fuel ->
  exists out rt',
    executeWithRetryAmid others fuel w userId operationType maxRetries rt =
      Some (out, rt') /\
    retries rt <= retries rt' /\
    retries rt' - retries rt <=
      maxRetries - attemptOf (handler rt) (opKey userId operationType) /\
    invocations rt <= invocations rt' /\
    invocations rt' - invocations rt <= S (retries rt' - retries rt) /\
    match out with
    | Rejected _ =>
        attemptOf (handler rt) (opKey userId operationType) + (retries rt' - retries rt)
        <= attemptOf (handler rt') (opKey userId operationType)
    | Resolved _ =>
        retryAttempts (handler rt') !! opKey userId operationType = None
    end.
Proof.
  induction fuel as [| fuel IH]; intros rt Hfuel; [lia |].
  rewrite executeWithRetryAmid_step. cbv zeta.
  destruct (settledAmid_spec rt) as (Hi1 & Ht1 & Hi3 & Ht3 & Hc3).
  destruct (wsGuard_frame userId operationType rt) as (Hr1 & _).
  set (attempt := attemptOf (handler rt) (opKey userId operationType)) in *.
  set (rt1 := (wsGuard userId operationType rt).2) in *.
  set (rt2 := resume others rt1 _) in *.
  set (rt3 := resume others rt2 _) in *.
  destruct ((wsGuard userId operationType rt).1).
  { eexists _, _. split; [reflexivity |].
    rewrite (attemptOf_ext _ _ _ Hr1). fold attempt. lia. }
  destruct ((invoke w rt2).1) as [v | e].
  { eexists _, _. split; [reflexivity |].
    cbn. rewrite lookup_delete_eq. repeat split; first [lia | done]. }
  destruct (isRateLimitError e || isWebSocketError e).
  2:{ eexists _, _. split; [reflexivity |]. repeat split; lia. }
  destruct (Nat.ltb_spec attempt maxRetries) as [Hlt | Hge].
  2:{ eexists _, _. split; [reflexivity |].
      cbn [retries invocations blockKey handler].
      repeat split; try lia.
      unfold attemptOf in *. cbn. lia. }
  set (rt4 := resume others rt3 (backOff w _ (S attempt) e rt3)).
  destruct (backOff_spec w (opKey userId operationType) (S attempt) e rt3)
    as (Hb & _ & Hbi & Hbt).
  destruct (resume_spec others rt3 (backOff w (opKey userId operationType) (S attempt) e rt3))
    as (_ & _ & _ & _ & Hi4 & Ht4).
  pose proof (resume_count others _ rt3
                (backOff w (opKey userId operationType) (S attempt) e rt3) others_keep)
    as Hc4.
  fold rt4 in Hi4, Ht4, Hc4. rewrite Hb in Hc4.
  destruct (IH (countRetry rt4)) as (out & rt' & Hrun & Hr & Hrb & Hi & Hib & Hout).
  { change (handler (countRetry rt4)) with (handler rt4). lia. }
  change (handler (countRetry rt4)) with (handler rt4) in *.
  change (retries (countRetry rt4)) with (S (retries rt4)) in *.
  change (invocations (countRetry rt4)) with (invocations rt4) in *.
  exists out, rt'. split; [exact Hrun |].
  repeat split; try lia.
  destruct out; [exact Hout | lia].
Qed.

Lemma executeWithRetryAmid_mono (fuel fuel' : nat) (rt : Runtime) r :
  executeWithRetryAmid others fuel w userId operationType maxRetries rt = Some r ->
  fuel <= fuel' ->
  executeWithRetryAmid others fuel' w userId operationType maxRetries rt = Some r.
Proof.
  revert fuel' rt. induction fuel as [| fuel IH]; intros fuel' rt Hrun Hle;
    [discriminate |].
  destruct fuel' as [| fuel']; [lia |].
  rewrite executeWithRetryAmid_step in *. cbv zeta in *.
  destruct ((wsGuard userId operationType rt).1); [exact Hrun |].
  destruct ((invoke w _).1) as [v | e]; [exact Hrun |].
  destruct (isRateLimitError e || isWebSocketError e); [| exact Hrun].
  destruct (_ <? _)%nat; [| exact Hrun].
  apply IH; [exact Hrun | lia].
Qed.
End Amid.

Lemma executeWithRetryAmid_same (others : Others) :
  (forall k h, others k h = h) ->
  forall fuel w userId operationType maxRetries rt,
  executeWithRetryAmid others fuel w userId operationType maxRetries rt =
  executeWithRetryFuel fuel w userId operationType maxRetries rt.
Proof.
  intros Hid fuel w userId operationType maxRetries rt.
  rewrite <- executeWithRetryAmid_alone. revert rt.
  assert (Hres : forall a b, resume others a b = resume alone a b).
  { intros a b. unfold resume. destruct (_ <? _)%nat; [| reflexivity].
    by rewrite Hid. }
  induction fuel as [| fuel IH]; intros rt; [reflexivity |].
  cbn [executeWithRetryAmid].
  destruct (wsGuard userId operationType rt) as [[|] rt1]; [reflexivity |].
  rewrite !Hres.
  destruct (invoke w _) as [[v | e] rt2]; rewrite ?Hres; [reflexivity |].
  destruct (_ || _); [| reflexivity].
  destruct (_ <? _)%nat; [| reflexivity].
  apply IH.
Qed.

Lemma keepsCount_alone (key : string) : keepsCount alone key.
Proof. intros k h. unfold alone. lia. Qed.

(** C7 (as amended): when the tasks that run while the call is suspended
    never lower the stored attempt count of its key, an external call
    returns: fuel [maxRetries + 1], and any larger amount, yields the same
    result.  It makes at most [maxRetries] recursive retries and at most
    [maxRetries + 1] invocations of the operation, the stored count
    growing by at least one with each retry.  This covers the call that no
    other task disturbs, which is [executeWithRetry]. *)
Theorem retry_loop_terminates (others : Others) (w : World)
    (userId operationType : string) (maxRetries : nat) (rt : Runtime) :
  keepsCount others (opKey userId operationType) ->
  exists out rt',
    executeWithRetryAmid others (S maxRetries) w userId operationType maxRetries rt =
      Some (out, rt') /\
    (forall fuel, maxRetries < fuel ->
       executeWithRetryAmid others fuel w userId operationType maxRetries rt =
         Some (out, rt')) /\
    retries rt <= retries rt' /\
    retries rt' - retries rt <= maxRetries /\
    invocations rt <= invocations rt' /\
    invocations rt' - invocations rt <= maxRetries + 1 /\
    match out with
    | Rejected _ =>
        attemptOf (handler rt) (opKey userId operationType) + (retries rt' - retries rt)
        <= attemptOf (handler rt') (opKey userId operationType)
    | Resolved _ => retryAttempts (handler rt') !! opKey userId operationType = None
    end /\
    ((forall k h, others k h = h) ->
     executeWithRetry w userId operationType maxRetries rt = Some (out, rt')).
Proof.
  intros Hkeep.
  destruct (executeWithRetryAmid_bounded others w userId operationType maxRetries
              Hkeep (S maxRetries) rt)
    as (out & rt' & Hrun & Hr1 & Hr2 & Hi1 & Hi2 & Hout); [lia |].
  exists out, rt'. split; [exact Hrun |].
  split.
  { intros fuel Hfuel. eapply executeWithRetryAmid_mono; [exact Hrun | lia]. }
  split; [lia |]. split; [lia |]. split; [lia |]. split; [lia |].
  split; [exact Hout |].
  intros Hid. unfold executeWithRetry.
  by rewrite <- (executeWithRetryAmid_same others Hid).
Qed.

(** Two retries amid a task that only reads the handler. *)
Lemma retry_loop_terminates_witness :
  exists rt',
    executeWithRetryAmid alone 3 (alwaysThrows 10 statusCode429Error)
      "u1" "user-init" 2 (newRuntime t0) =
      Some (Rejected rateLimitExceededError, rt') /\
    invocations rt' = 3.
Proof.
  destruct (retry_loop_terminates alone (alwaysThrows 10 statusCode429Error)
              "u1" "user-init" 2 (newRuntime t0) (keepsCount_alone _))
    as (out & rt' & Hrun & _).
  exists rt'. rewrite Hrun. vm_compute in Hrun. by injection Hrun as <- <-.
Defined.

(** C7 as stated fails: with a budget of 2, a [clearUserAttempts] of the
    user that runs while the call sleeps before its second retry removes
    the stored count; the call then makes four retries and invokes the
    operation five times, and fuel [maxRetries + 1] does not reach its
    end. *)
Lemma cleared_count_retries_again :
  let w := alwaysThrows 10 statusCode429Error in
  let others := clearsAt 3 "u1" in
  executeWithRetryAmid others 3 w "u1" "user-init" 2 (newRuntime t0) = None /\
  exists rt',
    executeWithRetryAmid others 5 w "u1" "user-init" 2 (newRuntime t0) =
      Some (Rejected rateLimitExceededError, rt') /\
    invocations rt' = 5 /\ retries rt' = 4.
Proof.
  intros w others. split; [by vm_compute |].
  eexists. split; [vm_compute; reflexivity |]. by vm_compute.
Qed.

(** The same [clearUserAttempts] while the second invocation is awaited
    does not lengthen the call: the count that the call stores afterwards
    comes from its local variable. *)
Lemma clear_during_invocation_is_overwritten :
  let w := alwaysThrows 10 statusCode429Error in
  exists rt',
    executeWithRetryAmid (clearsAt 2 "u1") 3 w "u1" "user-init" 2 (newRuntime t0) =
      Some (Rejected rateLimitExceededError, rt') /\
    invocations rt' = 3 /\ retries rt' = 2 /\
    attemptOf (handler rt') (opKey "u1" "user-init") = 2.
Proof.
  intros w. eexists. split; [vm_compute; reflexivity |]. by vm_compute.
Qed.

(** C8 (as amended): when a request for a channel id resolves, the handle
    is in the cache and the next request for the id returns the same
    handle and leaves the page, the counter of invocations included, as it
    is.  The first request invokes the operation at most three times, and
    every invocation before its last one threw. *)
Theorem channel_cache_short_circuits (w : World) (authUserId channelId : string)
    (page page1 : ChatPage.Page) (channel : Value) :
  ChatPage.getOrCreateChannel w authUserId channelId page =
    Some (Resolved channel, page1) ->
  ChatPage.channelCache page1 !! channelId = Some channel /\
  ChatPage.getOrCreateChannel w authUserId channelId page1 =
    Some (Resolved channel, page1) /\
  invocations (ChatPage.runtime page) <= invocations (ChatPage.runtime page1) /\
  invocations (ChatPage.runtime page1) - invocations (ChatPage.runtime page) <= 3 /\
  forall k, invocations (ChatPage.runtime page) <= k ->
            S k < invocations (ChatPage.runtime page1) ->
            exists d e, operation w k = (d, Rejected e).
Proof.
  unfold ChatPage.getOrCreateChannel.
  destruct (ChatPage.channelCache page !! channelId) as [c |] eqn:Hcache.
  - intros [= -> ->]. rewrite Hcache. repeat split; try done; try lia.
  - destruct (executeWithRetryFuel_bounded w authUserId "channel-create" 2 3
                (ChatPage.runtime page))
      as (out & rt' & Hrun & Hr1 & Hr2 & Hi1 & Hi2 & _); [lia |].
    unfold executeWithRetry.
    rewrite Hrun. destruct out as [c | e]; [| discriminate].
    intros [= -> <-]. cbn [ChatPage.channelCache ChatPage.runtime].
    rewrite lookup_insert_eq. repeat split; try done; try lia.
    intros k Hlo Hhi.
    eapply executeWithRetryFuel_earlier_threw; [exact Hrun | done | done].
Qed.

(** The creation fails once with a rate limit error and is retried. *)
Lemma channel_cache_short_circuits_witness :
  let w := throwsThenResolves 1 10 (newError "Too many requests") 7 in
  let page := {| ChatPage.channelCache := ∅; ChatPage.runtime := newRuntime t0 |} in
  exists page1,
    ChatPage.getOrCreateChannel w "u1" "u1-u2" page = Some (Resolved 7, page1) /\
    ChatPage.getOrCreateChannel w "u1" "u1-u2" page1 = Some (Resolved 7, page1).
Proof.
  intros w page. eexists. split; [vm_compute; reflexivity |].
  eapply (channel_cache_short_circuits w "u1" "u1-u2" page).
  vm_compute. reflexivity.
Defined.

(** C8 as stated fails: both requests return the handle 7, but the creation
    was invoked twice, the first invocation having been retried. *)
Lemma retried_creation_invoked_twice :
  let w := throwsThenResolves 1 10 (newError "Too many requests") 7 in
  let page := {| ChatPage.channelCache := ∅; ChatPage.runtime := newRuntime t0 |} in
  exists page1,
    ChatPage.getOrCreateChannel w "u1" "u1-u2" page = Some (Resolved 7, page1) /\
    ChatPage.getOrCreateChannel w "u1" "u1-u2" page1 = Some (Resolved 7, page1) /\
    invocations (ChatPage.runtime page1) = 2.
Proof.
  intros w page. eexists.
  split; [vm_compute; reflexivity |].
  split; [vm_compute; reflexivity | by vm_compute].
Qed.

(** C9 (as amended): a call that rejects with a terminal error keeps the
    stored count, at the larger of the count at entry and [maxRetries],
    hence at [maxRetries] when the count at entry did not exceed it.  A
    later call with the same budget that gets past the WebSocket gate and
    whose operation throws a retryable error rejects with the terminal
    error after that one invocation, without a retry. *)
Theorem terminal_error_keeps_count (w : World) (userId operationType : string)
    (maxRetries : nat) (rt rt' : Runtime) (e : JsError) :
  executeWithRetry w userId operationType maxRetries rt = Some (Rejected e, rt') ->
  e = videoFailedError \/ e = rateLimitExceededError ->
  attemptOf (handler rt') (opKey userId operationType) =
    Nat.max (attemptOf (handler rt) (opKey userId operationType)) maxRetries /\
  (attemptOf (handler rt) (opKey userId operationType) <= maxRetries ->
   attemptOf (handler rt') (opKey userId operationType) = maxRetries) /\
  forall (w2 : World) (dt d : Z) (e2 : JsError),
    let rt2 := advance dt rt' in
    (wsGuard userId operationType rt2).1 = false ->
    operation w2 (invocations rt2) = (d, Rejected e2) ->
    isRateLimitError e2 || isWebSocketError e2 = true ->
    exists rt3,
      executeWithRetry w2 userId operationType maxRetries rt2 =
        Some (Rejected (terminalError e2), rt3) /\
      invocations rt3 = S (invocations rt2) /\
      retries rt3 = retries rt2.
Proof.
  intros Hrun He.
  destruct (executeWithRetryFuel_terminal w userId operationType maxRetries _ _ _ _ Hrun He)
    as [Hat _].
  split; [exact Hat |]. split; [lia |].
  intros w2 dt d e2 rt2 Hg Hop Hc.
  destruct (executeWithRetryFuel_gives_up w2 userId operationType maxRetries
              maxRetries rt2 d e2 Hg Hop Hc) as (rt3 & Hrun3 & Hi & Ht & _).
  - change (attemptOf (handler rt2) (opKey userId operationType))
      with (attemptOf (handler rt') (opKey userId operationType)). lia.
  - exists rt3. done.
Qed.

(** Two calls for [user-init], the second one a second after the first. *)
Lemma terminal_error_keeps_count_witness :
  let w := alwaysThrows 10 statusCode429Error in
  exists rt' rt3,
    executeWithRetry w "u1" "user-init" 2 (newRuntime t0) =
      Some (Rejected rateLimitExceededError, rt') /\
    attemptOf (handler rt') (opKey "u1" "user-init") = 2 /\
    executeWithRetry w "u1" "user-init" 2 (advance 1000 rt') =
      Some (Rejected rateLimitExceededError, rt3) /\
    invocations rt3 = S (invocations (advance 1000 rt')) /\
    retries rt3 = retries (advance 1000 rt').
Proof.
  intros w.
  destruct (executeWithRetry w "u1" "user-init" 2 (newRuntime t0))
    as [[out rt'] |] eqn:Hrun; [| by vm_compute in Hrun].
  assert (Hout : out = Rejected rateLimitExceededError).
  { vm_compute in Hrun. by injection Hrun as <- _. }
  subst out.
  destruct (terminal_error_keeps_count w "u1" "user-init" 2 (newRuntime t0) rt'
              rateLimitExceededError Hrun (or_intror eq_refl))
    as (_ & Hkept & Hlater).
  destruct (Hlater w 1000%Z 10%Z statusCode429Error
              eq_refl eq_refl eq_refl) as (rt3 & Hrun3 & Hi & Ht).
  exists rt', rt3. split; [reflexivity |].
  split; [apply Hkept; vm_compute; lia |].
  split; [exact Hrun3 |]. split; [exact Hi | exact Ht].
Defined.

(** C9 as stated fails: the count left at 3 by a call with budget 3 stays
    at 3 when a call with budget 1 ends with the terminal error. *)
Lemma count_kept_above_budget :
  let w := alwaysThrows 10 statusCode429Error in
  exists rt1 rt2,
    executeWithRetry w "u1" "user-init" 3 (newRuntime t0) =
      Some (Rejected rateLimitExceededError, rt1) /\
    executeWithRetry w "u1" "user-init" 1 rt1 =
      Some (Rejected rateLimitExceededError, rt2) /\
    retryAttempts (handler rt2) !! opKey "u1" "user-init" = Some 3.
Proof.
  intros w. eexists _, _.
  split; [vm_compute; reflexivity |].
  split; [vm_compute; reflexivity | by vm_compute].
Qed.

(** * Further properties of the handler *)

(** ** Strings and errors *)

Lemma upperAscii_idem (c : ascii) : upperAscii (upperAscii c) = upperAscii c.
Proof. destruct c as [[] [] [] [] [] [] [] []]; reflexivity. Qed.

(** X1: [capitialize] changes at most the first character: the length and the
    rest of the string are kept, the empty string stays empty, and a second
    application changes nothing. *)
Theorem capitialize_first_only (str : string) :
  String.length (capitialize str) = String.length str /\
  slice1 (capitialize str) = slice1 str /\
  charAt0 (capitialize str) = toUpperCase (charAt0 str) /\
  capitialize (capitialize str) = capitialize str /\
  capitialize "" = "".
Proof.
  destruct str as [| c rest]; [by repeat split |].
  repeat split.
  unfold capitialize. cbn [charAt0 slice1 toUpperCase].
  change (String (upperAscii c) "" ++ rest) with (String (upperAscii c) rest).
  cbn [charAt0 slice1 toUpperCase]. by rewrite upperAscii_idem.
Qed.

Lemma includes_cons (c : ascii) (s search : string) :
  includes (String c s) search = startsWith (String c s) search || includes s search.
Proof. reflexivity. Qed.

Lemma newError_lower (msg : string) :
  toLowerCase (toString (newError msg)) = "error: " ++ toLowerCase msg.
Proof. reflexivity. Qed.

(** X2: For an object made by [new Error(msg)] the string form adds nothing:
    both classifiers decide on the lower-cased message alone. *)
Theorem newError_classified_by_message (msg : string) :
  isRateLimitError (newError msg) =
    existsb (includes (toLowerCase msg)) rateLimitIndicators /\
  isWebSocketError (newError msg) =
    existsb (includes (toLowerCase msg)) wsErrorIndicators.
Proof.
  unfold isRateLimitError, isWebSocketError, matchesAny.
  rewrite newError_lower. cbn [message newError].
  generalize (toLowerCase msg). intros l.
  split; cbn [existsb rateLimitIndicators wsErrorIndicators];
    repeat (change (includes ("error: " ++ l) ?i) with (includes l i));
    by rewrite !orb_diag.
Qed.

(** ** The gates *)

Lemma intervalFor_range (operation : string) (i : Z) :
  intervalFor operation = Some i -> (1000 <= i <= 5000)%Z.
Proof.
  unfold intervalFor, minRequestInterval.
  repeat (destruct (String.eqb operation _); [intros [= <-]; lia |]).
  destruct (existsb _ _); [discriminate | intros [= <-]; lia].
Qed.

(** X3: Whatever the operation type, a key that is not blocked is let through
    by [shouldRateLimit] once 5000 ms have passed since the recorded
    request: no interval of the table is longer. *)
Theorem gate_admits_after_five_seconds (now : Z) (userId operation : string)
    (h : RateLimitHandler) :
  opKey userId operation ∉ blockedOperations h ->
  match lastRequestTime h !! opKey userId operation with
  | Some l => (5000 <= now - l)%Z
  | None => True
  end ->
  shouldRateLimit now userId operation h =
    (false,
     setLastRequestTime (<[opKey userId operation := now]> (lastRequestTime h)) h).
Proof.
  intros Hnb Hlast.
  destruct (intervalFor operation) as [i |] eqn:Hi.
  - apply (gate_pass userId operation h now i Hnb Hi).
    destruct (lastRequestTime h !! opKey userId operation); [| done].
    right. apply intervalFor_range in Hi. lia.
  - unfold shouldRateLimit.
    destruct (decide _); [contradiction |].
    rewrite Hi. unfold tooSoon.
    by destruct (lastRequestTime h !! opKey userId operation).
Qed.

Lemma gate_admits_after_five_seconds_witness :
  let h := setLastRequestTime {[ opKey "u1" "video-call" := t0 ]} newHandler in
  (shouldRateLimit (t0 + 5000) "u1" "video-call" h).1 = false.
Proof.
  intros h.
  rewrite (gate_admits_after_five_seconds (t0 + 5000) "u1" "video-call" h).
  - reflexivity.
  - apply not_elem_of_empty.
  - vm_compute. discriminate.
Defined.

Lemma ws_gate_keeps_bounds (now : Z) (userId type : string) (h : RateLimitHandler) :
  wsCountsBounded h ->
  wsCountsBounded (shouldRateLimitWebSocket now userId type h).2.
Proof.
  intros Hb. unfold shouldRateLimitWebSocket.
  destruct (connectionAttempts h !! wsKey userId type) as [[c f] |] eqn:Hl;
    cbn [default from_option id count firstAttempt].
  - destruct (300000 <? now - f)%Z.
    + intros key a. cbn. intros [_ Hk]%lookup_delete_Some. by eapply Hb.
    + destruct (Nat.leb_spec 5 c); [exact Hb |].
      intros key a. cbn. intros [[_ <-] | [_ Hk]]%lookup_insert_Some; [cbn; lia |].
      by eapply Hb.
  - replace (now - now)%Z with 0%Z by lia. cbn.
    intros key a. cbn. intros [[_ <-] | [_ Hk]]%lookup_insert_Some; [cbn; lia |].
    by eapply Hb.
Qed.

Lemma clear_keeps_bounds (userId : string) (h : RateLimitHandler) :
  wsCountsBounded h -> wsCountsBounded (clearUserAttempts userId h).
Proof.
  intros Hb key a. rewrite clear_connectionAttempts.
  destruct (startsWith key userId); [discriminate |]. apply Hb.
Qed.

Lemma wsCountsBounded_ext (h h' : RateLimitHandler) :
  connectionAttempts h' = connectionAttempts h ->
  wsCountsBounded h -> wsCountsBounded h'.
Proof. unfold wsCountsBounded. by intros ->. Qed.

Lemma wsGuard_keeps_bounds (userId operationType : string) (rt : Runtime) :
  wsCountsBounded (handler rt) ->
  wsCountsBounded (handler (wsGuard userId operationType rt).2).
Proof.
  intros Hb. unfold wsGuard, atNow.
  destruct (_ || _); [| exact Hb].
  pose proof (ws_gate_keeps_bounds (clock rt) userId operationType (handler rt) Hb) as H.
  by destruct (shouldRateLimitWebSocket _ _ _ _).
Qed.

Lemma executeWithRetryFuel_keeps_bounds (w : World) (userId operationType : string)
    (maxRetries fuel : nat) :
  forall (rt rt' : Runtime) (out : Outcome),
  executeWithRetryFuel fuel w userId operationType maxRetries rt = Some (out, rt') ->
  wsCountsBounded (handler rt) -> wsCountsBounded (handler rt').
Proof.
  induction fuel as [| fuel IH]; intros rt rt' out Hrun Hb; [discriminate |].
  rewrite executeWithRetryFuel_step in Hrun. cbv zeta in Hrun.
  pose proof (wsGuard_keeps_bounds userId operationType rt Hb) as Hg.
  destruct (settled_spec w userId operationType rt) as (_ & Hsc & _ & _).
  assert (Hs : wsCountsBounded (handler (settled w userId operationType rt)))
    by (by eapply wsCountsBounded_ext).
  destruct ((wsGuard userId operationType rt).1).
  { by injection Hrun as _ <-. }
  destruct ((operation w (invocations rt)).2) as [v | e].
  { injection Hrun as _ <-. by eapply wsCountsBounded_ext; [| exact Hs]. }
  destruct (isRateLimitError e || isWebSocketError e).
  2:{ by injection Hrun as _ <-. }
  destruct (_ <? _)%nat.
  - eapply IH; [exact Hrun |].
    destruct (backOff_spec w (opKey userId operationType)
                (S (attemptOf (handler rt) (opKey userId operationType))) e
                (settled w userId operationType rt)) as (_ & Hbc & _).
    eapply wsCountsBounded_ext; [| exact Hs]. exact Hbc.
  - injection Hrun as _ <-. by eapply wsCountsBounded_ext; [| exact Hs].
Qed.

(** X4: The stored WebSocket attempt counts stay between 1 and 5: the bound
    holds for a new handler and is kept by the WebSocket gate, by
    [clearUserAttempts], by [emergencyReset] and by every call of
    [executeWithRetry]. *)
Theorem ws_counts_stay_bounded (h : RateLimitHandler) :
  wsCountsBounded h ->
  wsCountsBounded newHandler /\
  (forall now userId type,
     wsCountsBounded (shouldRateLimitWebSocket now userId type h).2) /\
  (forall userId, wsCountsBounded (clearUserAttempts userId h)) /\
  wsCountsBounded (emergencyReset h) /\
  (forall w userId operationType maxRetries rt out rt',
     handler rt = h ->
     executeWithRetry w userId operationType maxRetries rt = Some (out, rt') ->
     wsCountsBounded (handler rt')).
Proof.
  intros Hb.
  split; [by intros key a |].
  split; [intros; by apply ws_gate_keeps_bounds |].
  split; [intros; by apply clear_keeps_bounds |].
  split; [by intros key a |].
  intros w userId operationType maxRetries rt out rt' <- Hrun.
  eapply executeWithRetryFuel_keeps_bounds; [exact Hrun | exact Hb].
Qed.

Lemma ws_counts_stay_bounded_witness :
  wsCountsBounded (shouldRateLimitWebSocket t0 "u1" "connect" newHandler).2.
Proof.
  apply (ws_counts_stay_bounded newHandler). by intros key a.
Defined.

(** ** Waiting before a retry *)

(** X5: A retry never starts sooner than the backoff base after the failure:
    when the random draw and the timer latency are not negative, [backOff]
    lets at least [min (2000 * 2^attempt) 60000] ms pass, and twice as
    much for a WebSocket error. *)
Theorem backOff_waits_at_least_base (w : World) (key : string) (attempt : nat)
    (error : JsError) (rt : Runtime) :
  (0 <= random w (draws rt))%Q ->
  (0 <= latency w (sleeps rt))%Z ->
  let base := Z.min (2000 * 2 ^ Z.of_nat attempt) 60000 in
  (clock rt + (if isWebSocketError error then 2 * base else base)
   <= clock (backOff w key attempt error rt))%Z /\
  (2000 <= base)%Z.
Proof.
  intros Hrnd Hlat base.
  assert (Hbase : (2000 <= base <= 60000)%Z) by apply base_range.
  split; [| lia].
  pose proof (backoff_at_least attempt (random w (draws rt)) Hrnd) as Hd.
  fold base in Hd.
  unfold backOff, drawRandom. cbv zeta beta iota.
  match goal with
  | |- (_ <= clock (sleep w ?ms ?r))%Z =>
      change (clock rt) with (clock r); apply sleep_clock
  end.
  - destruct (isWebSocketError error); lia.
  - cbn [draws setHandler]. destruct (isWebSocketError error); [| exact Hd].
    apply binary64_ge_Z; [lia |].
    rewrite inject_Z_mult. change (inject_Z 2) with 2%Q. lra.
  - exact Hlat.
Qed.

Lemma backOff_waits_at_least_base_witness :
  let rt := newRuntime t0 in
  (clock rt + 2 * 8000 <=
   clock (backOff (alwaysThrows 10 (newError "WebSocket closed")) "u1-video-call" 2
            (newError "WebSocket closed") rt))%Z.
Proof.
  intros rt.
  refine (proj1 (backOff_waits_at_least_base
                   (alwaysThrows 10 (newError "WebSocket closed")) "u1-video-call" 2
                   (newError "WebSocket closed") rt _ _)).
  - vm_compute. discriminate.
  - vm_compute. discriminate.
Defined.

(** ** More on the coordinator *)

Lemma setHandler_same (rt : Runtime) : setHandler (handler rt) rt = rt.
Proof. by destruct rt. Qed.

(** X6: When the operation type is subject to the WebSocket gate and five
    attempts are counted in a window that has not elapsed, the call
    rejects with the WebSocket limit error; the operation is not invoked
    and the state is exactly as before. *)
Theorem ws_limited_call_changes_nothing (w : World)
    (userId operationType : string) (maxRetries : nat) (rt : Runtime)
    (c : nat) (f : Z) :
  includes operationType "video" || includes operationType "connect" = true ->
  connectionAttempts (handler rt) !! wsKey userId operationType =
    Some {| count := c; firstAttempt := f |} ->
  (5 <= c)%nat -> (clock rt - f <= 300000)%Z ->
  executeWithRetry w userId operationType maxRetries rt =
    Some (Rejected wsLimitError, rt).
Proof.
  intros Hws Hl Hc Hwin.
  unfold executeWithRetry. cbn [executeWithRetryFuel].
  unfold wsGuard, atNow. rewrite Hws.
  rewrite (ws_refused userId operationType (handler rt) (clock rt) f c Hl Hwin Hc).
  by rewrite setHandler_same.
Qed.

Lemma ws_limited_call_changes_nothing_witness :
  let h := (callsWebSocketGate [t0; t0 + 1; t0 + 2; t0 + 3; t0 + 4]%Z
              "u1" "video-call" newHandler).2 in
  let rt := setHandler h (newRuntime (t0 + 5)) in
  executeWithRetry (throwsThenResolves 0 10 statusCode429Error 7)
    "u1" "video-call" 3 rt = Some (Rejected wsLimitError, rt).
Proof.
  intros h rt.
  apply (ws_limited_call_changes_nothing _ "u1" "video-call" 3 rt 5 t0).
  - reflexivity.
  - reflexivity.
  - lia.
  - vm_compute. discriminate.
Defined.

Section Resolved.
Variables (w : World) (userId operationType : string) (maxRetries : nat).

Lemma executeWithRetryFuel_resolved (fuel : nat) :
  forall (rt rt' : Runtime) (v : Value),
  executeWithRetryFuel fuel w userId operationType maxRetries rt =
    Some (Resolved v, rt') ->
  retryAttempts (handler rt') !! opKey userId operationType = None /\
  (opKey userId operationType ∉ blockedOperations (handler rt')) /\
  invocations rt < invocations rt' /\
  exists d, operation w (Nat.pred (invocations rt')) = (d, Resolved v).
Proof.
  induction fuel as [| fuel IH]; intros rt rt' v Hrun; [discriminate |].
  rewrite executeWithRetryFuel_step in Hrun. cbv zeta in Hrun.
  destruct (settled_spec w userId operationType rt) as (_ & _ & Hsi & _).
  destruct ((wsGuard userId operationType rt).1); [discriminate |].
  destruct (operation w (invocations rt)) as [d o] eqn:Hop. cbn [snd] in Hrun.
  destruct o as [v' | e].
  { injection Hrun as -> <-. cbn. rewrite lookup_delete_eq, Hsi. cbn.
    repeat split; [| lia | eauto].
    intros [_ Hn]%elem_of_difference. apply Hn. by apply elem_of_singleton. }
  destruct (isRateLimitError e || isWebSocketError e); [| discriminate].
  destruct (_ <? _)%nat; [| discriminate].
  destruct (IH _ _ _ Hrun) as (Hr & Hb & Hlt & Hlast).
  repeat split; [exact Hr | exact Hb | | exact Hlast].
  destruct (backOff_spec w (opKey userId operationType)
              (S (attemptOf (handler rt) (opKey userId operationType))) e
              (settled w userId operationType rt)) as (_ & _ & Hbi & _).
  cbn in Hlt. lia.
Qed.

Lemma executeWithRetryFuel_earlier_retryable (fuel : nat) :
  forall (rt rt' : Runtime) (out : Outcome),
  executeWithRetryFuel fuel w userId operationType maxRetries rt = Some (out, rt') ->
  forall k, invocations rt <= k -> S k < invocations rt' ->
  exists d e, operation w k = (d, Rejected e) /\
              isRateLimitError e || isWebSocketError e = true.
Proof.
  induction fuel as [| fuel IH]; intros rt rt' out Hrun k Hlo Hhi; [discriminate |].
  rewrite executeWithRetryFuel_step in Hrun. cbv zeta in Hrun.
  destruct (wsGuard_frame userId operationType rt) as (_ & _ & Hgi & _).
  destruct (settled_spec w userId operationType rt) as (_ & _ & Hsi & _).
  destruct ((wsGuard userId operationType rt).1).
  { injection Hrun as _ <-. lia. }
  destruct (operation w (invocations rt)) as [d o] eqn:Hop. cbn [snd] in Hrun.
  destruct o as [v | e].
  { injection Hrun as _ <-. cbn in Hhi. lia. }
  destruct (isRateLimitError e || isWebSocketError e) eqn:Hc.
  2:{ injection Hrun as _ <-. lia. }
  destruct (_ <? _)%nat.
  2:{ injection Hrun as _ <-. cbn in Hhi. lia. }
  destruct (decide (k = invocations rt)) as [-> | Hne]; [eauto |].
  eapply IH; [exact Hrun | | exact Hhi].
  destruct (backOff_spec w (opKey userId operationType)
              (S (attemptOf (handler rt) (opKey userId operationType))) e
              (settled w userId operationType rt)) as (_ & _ & Hbi & _).
  cbn. lia.
Qed.
End Resolved.

(** X7: A call that resolves returns the value of its last invocation, every
    earlier invocation having thrown a retryable error, and it leaves the
    key without retry count and outside the blocked set, whatever the key's
    state was before. *)
Theorem resolved_call_clears_key (w : World) (userId operationType : string)
    (maxRetries : nat) (rt rt' : Runtime) (v : Value) :
  executeWithRetry w userId operationType maxRetries rt = Some (Resolved v, rt') ->
  retryAttempts (handler rt') !! opKey userId operationType = None /\
  (opKey userId operationType ∉ blockedOperations (handler rt')) /\
  invocations rt < invocations rt' /\
  (exists d, operation w (Nat.pred (invocations rt')) = (d, Resolved v)) /\
  forall k, invocations rt <= k -> S k < invocations rt' ->
    exists d e, operation w k = (d, Rejected e) /\
                isRateLimitError e || isWebSocketError e = true.
Proof.
  intros Hrun.
  destruct (executeWithRetryFuel_resolved _ _ _ _ _ _ _ _ Hrun) as (Hr & Hb & Hlt & Hlast).
  repeat split; [exact Hr | exact Hb | exact Hlt | exact Hlast |].
  intros k. eapply executeWithRetryFuel_earlier_retryable. exact Hrun.
Qed.

Lemma resolved_call_clears_key_witness :
  let w := throwsThenResolves 1 10 statusCode429Error 7 in
  exists rt',
    executeWithRetry w "u1" "user-init" 2 (newRuntime t0) = Some (Resolved 7, rt') /\
    retryAttempts (handler rt') !! opKey "u1" "user-init" = None /\
    invocations rt' = 2.
Proof.
  intros w.
  destruct (executeWithRetry w "u1" "user-init" 2 (newRuntime t0))
    as [[out rt'] |] eqn:Hrun; [| by vm_compute in Hrun].
  assert (out = Resolved 7) as ->.
  { vm_compute in Hrun. by injection Hrun as <- _. }
  destruct (resolved_call_clears_key w "u1" "user-init" 2 (newRuntime t0) rt' 7 Hrun)
    as (Hr & _).
  exists rt'. split; [reflexivity |]. split; [exact Hr |].
  vm_compute in Hrun. by injection Hrun as <-.
Defined.

Section Frame.
Variables (w : World) (userId operationType : string).

Lemma touchesOnly_refl (rt : Runtime) : touchesOnly userId operationType rt rt.
Proof. split; intros k Hk; by repeat split. Qed.

Lemma touchesOnly_trans (rt1 rt2 rt3 : Runtime) :
  touchesOnly userId operationType rt1 rt2 ->
  touchesOnly userId operationType rt2 rt3 ->
  touchesOnly userId operationType rt1 rt3.
Proof.
  intros [H1 H1'] [H2 H2']. split; intros k Hk.
  - destruct (H1 k Hk) as (? & ? & ?), (H2 k Hk) as (? & ? & ?).
    repeat split; [congruence | congruence | auto].
  - rewrite (H2' k Hk). by apply H1'.
Qed.

Lemma touchesOnly_wsGuard (rt : Runtime) :
  touchesOnly userId operationType rt (wsGuard userId operationType rt).2.
Proof.
  unfold wsGuard, atNow.
  destruct (_ || _); [| apply touchesOnly_refl].
  unfold shouldRateLimitWebSocket.
  destruct (_ <? _)%Z; [| destruct (_ <=? _)%nat]; cbn; split; intros k Hk;
    cbn; try by repeat split.
  - by rewrite lookup_delete_ne.
  - by rewrite lookup_insert_ne.
Qed.

Lemma touchesOnly_sleep (ms : Q) (rt : Runtime) :
  touchesOnly userId operationType rt (sleep w ms rt).
Proof.
  split; intros k Hk; cbn; [| done].
  repeat split. apply fireDue_subseteq.
Qed.

Lemma touchesOnly_throttle (attempt : nat) (rt : Runtime) :
  touchesOnly userId operationType rt (throttle w userId operationType attempt rt).
Proof.
  unfold throttle, atNow.
  destruct (gate_cases userId operationType (handler rt) (clock rt)) as [-> | ->].
  - rewrite setHandler_same. unfold drawRandom. cbv zeta beta iota.
    match goal with
    | |- touchesOnly _ _ _ (sleep w ?ms ?r) =>
        apply (touchesOnly_trans rt r); [| apply touchesOnly_sleep]
    end.
    split; intros k Hk; by repeat split.
  - split; intros k Hk; cbn; [| done].
    repeat split; [| done]. by rewrite lookup_insert_ne.
Qed.

Lemma touchesOnly_invoke (rt : Runtime) :
  touchesOnly userId operationType rt (invoke w rt).2.
Proof.
  unfold invoke. destruct (operation w (invocations rt)) as [d o].
  split; intros k Hk; cbn; [| done].
  repeat split. apply fireDue_subseteq.
Qed.

Lemma touchesOnly_settled (rt : Runtime) :
  touchesOnly userId operationType rt (settled w userId operationType rt).
Proof.
  unfold settled.
  eapply touchesOnly_trans; [apply touchesOnly_wsGuard |].
  eapply touchesOnly_trans; [apply touchesOnly_throttle | apply touchesOnly_invoke].
Qed.

Lemma touchesOnly_backOff (attempt : nat) (error : JsError) (rt : Runtime) :
  touchesOnly userId operationType rt
    (countRetry (backOff w (opKey userId operationType) attempt error rt)).
Proof.
  unfold backOff, drawRandom. cbv zeta beta iota.
  match goal with
  | |- touchesOnly _ _ _ (countRetry (sleep w ?ms ?r)) =>
      apply (touchesOnly_trans rt r);
        [| apply (touchesOnly_trans r (sleep w ms r));
           [apply touchesOnly_sleep | split; intros k Hk; by repeat split]]
  end.
  split; intros k Hk; cbn; [| done].
  repeat split; [| done]. by rewrite lookup_insert_ne.
Qed.

Lemma touchesOnly_resetKey (rt : Runtime) :
  touchesOnly userId operationType rt (resetKey (opKey userId operationType) rt).
Proof.
  split; intros k Hk; cbn; [| done].
  repeat split; [by rewrite lookup_delete_ne |].
  by intros [? _]%elem_of_difference.
Qed.

Lemma touchesOnly_blockKey (rt : Runtime) :
  touchesOnly userId operationType rt (blockKey (opKey userId operationType) rt).
Proof.
  split; intros k Hk; cbn; [| done].
  repeat split. intros [Heq%elem_of_singleton | ?]%elem_of_union; [congruence | done].
Qed.

Lemma executeWithRetryFuel_touchesOnly (maxRetries fuel : nat) :
  forall (rt rt' : Runtime) (out : Outcome),
  executeWithRetryFuel fuel w userId operationType maxRetries rt = Some (out, rt') ->
  touchesOnly userId operationType rt rt'.
Proof.
  induction fuel as [| fuel IH]; intros rt rt' out Hrun; [discriminate |].
  rewrite executeWithRetryFuel_step in Hrun. cbv zeta in Hrun.
  pose proof (touchesOnly_settled rt) as Hs.
  destruct ((wsGuard userId operationType rt).1) eqn:Hg.
  { injection Hrun as _ <-. apply touchesOnly_wsGuard. }
  destruct ((operation w (invocations rt)).2) as [v | e].
  { injection Hrun as _ <-.
    eapply touchesOnly_trans; [exact Hs | apply touchesOnly_resetKey]. }
  destruct (isRateLimitError e || isWebSocketError e).
  2:{ by injection Hrun as _ <-. }
  destruct (_ <? _)%nat.
  - eapply touchesOnly_trans; [exact Hs |].
    eapply touchesOnly_trans; [apply touchesOnly_backOff | eapply IH, Hrun].
  - injection Hrun as _ <-.
    eapply touchesOnly_trans; [exact Hs | apply touchesOnly_blockKey].
Qed.
End Frame.

(** X8: A call works on its own key only: the retry counts and request times
    stored under other keys are as before, no other key is added to the
    blocked set, and the WebSocket attempts stored under other keys are as
    before. *)
Theorem call_leaves_other_keys_alone (w : World) (userId operationType : string)
    (maxRetries : nat) (rt rt' : Runtime) (out : Outcome) :
  executeWithRetry w userId operationType maxRetries rt = Some (out, rt') ->
  (forall k, k <> opKey userId operationType ->
     retryAttempts (handler rt') !! k = retryAttempts (handler rt) !! k /\
     lastRequestTime (handler rt') !! k = lastRequestTime (handler rt) !! k /\
     (k ∈ blockedOperations (handler rt') -> k ∈ blockedOperations (handler rt))) /\
  (forall k, k <> wsKey userId operationType ->
     connectionAttempts (handler rt') !! k = connectionAttempts (handler rt) !! k).
Proof. intros Hrun. by eapply executeWithRetryFuel_touchesOnly. Qed.

Lemma call_leaves_other_keys_alone_witness :
  let rt := setHandler
              (setRetryAttempts {[ opKey "u2" "send-message" := 1 ]} newHandler)
              (newRuntime t0) in
  exists out rt',
    executeWithRetry (alwaysThrows 10 statusCode429Error) "u1" "send-message" 1 rt =
      Some (out, rt') /\
    retryAttempts (handler rt') !! opKey "u2" "send-message" = Some 1.
Proof.
  intros rt.
  destruct (executeWithRetry (alwaysThrows 10 statusCode429Error) "u1" "send-message" 1 rt)
    as [[out rt'] |] eqn:Hrun; [| by vm_compute in Hrun].
  exists out, rt'. split; [reflexivity |].
  destruct (call_leaves_other_keys_alone _ _ _ _ _ _ _ Hrun) as [Hop _].
  destruct (Hop (opKey "u2" "send-message")) as (Hr & _).
  - vm_compute. discriminate.
  - rewrite Hr. reflexivity.
Defined.

(** ** Clearing, status and reset *)

Lemma startsWith_refl_app (s rest : string) : startsWith (s ++ rest) s = true.
Proof.
  induction s as [| c s IH]; [by destruct rest |].
  rewrite append_cons, startsWith_cons, Ascii.eqb_refl. exact IH.
Qed.

Lemma startsWith_empty (s : string) : startsWith s "" = true.
Proof. by destruct s. Qed.

Lemma handler_eq (h1 h2 : RateLimitHandler) :
  retryAttempts h1 = retryAttempts h2 ->
  lastRequestTime h1 = lastRequestTime h2 ->
  connectionAttempts h1 = connectionAttempts h2 ->
  blockedOperations h1 = blockedOperations h2 ->
  h1 = h2.
Proof. destruct h1, h2. cbn. by intros -> -> -> ->. Qed.

(** X9: After [clearUserAttempts userId] the user starts afresh: for every
    operation type the stored retry count reads 0, the rate limit gate lets
    the next call through at any time, and so does the WebSocket gate. *)
Theorem cleared_user_starts_afresh (userId : string) (h : RateLimitHandler)
    (now : Z) (operation type : string) :
  let h' := clearUserAttempts userId h in
  attemptOf h' (opKey userId operation) = 0 /\
  (shouldRateLimit now userId operation h').1 = false /\
  (shouldRateLimitWebSocket now userId type h').1 = false.
Proof.
  intros h'.
  assert (Hop : startsWith (opKey userId operation) userId = true)
    by apply startsWith_refl_app.
  assert (Hws : startsWith (wsKey userId type) userId = true)
    by apply startsWith_refl_app.
  split; [| split].
  - unfold attemptOf, h'. by rewrite clear_retryAttempts, Hop.
  - unfold shouldRateLimit.
    destruct (decide _) as [Hin | _].
    { apply clear_blockedOperations in Hin as [_ Hn]. congruence. }
    unfold h'. rewrite clear_lastRequestTime, Hop. unfold tooSoon.
    by destruct (intervalFor operation).
  - rewrite ws_first; [done |].
    unfold h'. by rewrite clear_connectionAttempts, Hws.
Qed.

(** X10: [clearUserAttempts] only removes: what it leaves was there before, and
    clearing a second time changes nothing. *)
Theorem clearUserAttempts_idempotent (userId : string) (h : RateLimitHandler) :
  let h' := clearUserAttempts userId h in
  clearUserAttempts userId h' = h' /\
  retryAttempts h' ⊆ retryAttempts h /\
  lastRequestTime h' ⊆ lastRequestTime h /\
  connectionAttempts h' ⊆ connectionAttempts h /\
  blockedOperations h' ⊆ blockedOperations h.
Proof.
  intros h'. unfold h'. split.
  - apply handler_eq.
    + apply map_eq. intros k. rewrite !clear_retryAttempts.
      by destruct (startsWith k userId).
    + apply map_eq. intros k. rewrite !clear_lastRequestTime.
      by destruct (startsWith k userId).
    + apply map_eq. intros k. rewrite !clear_connectionAttempts.
      by destruct (startsWith k userId).
    + apply set_eq. intros k. rewrite !clear_blockedOperations. tauto.
  - repeat split.
    + apply map_subseteq_spec. intros k v. rewrite clear_retryAttempts.
      by destruct (startsWith k userId).
    + apply map_subseteq_spec. intros k v. rewrite clear_lastRequestTime.
      by destruct (startsWith k userId).
    + apply map_subseteq_spec. intros k v. rewrite clear_connectionAttempts.
      by destruct (startsWith k userId).
    + intros k. rewrite clear_blockedOperations. tauto.
Qed.

(** X11: Every key starts with the empty string: [clearUserAttempts ""] empties
    the four collections, as [emergencyReset] does. *)
Theorem clearUserAttempts_empty_id_clears_all (h : RateLimitHandler) :
  clearUserAttempts "" h = emergencyReset h /\
  emergencyReset h = newHandler.
Proof.
  split; [| reflexivity].
  apply handler_eq; cbn [emergencyReset setConnectionAttempts setBlockedOperations
                         setLastRequestTime setRetryAttempts retryAttempts
                         lastRequestTime connectionAttempts blockedOperations].
  - apply map_eq. intros k.
    by rewrite clear_retryAttempts, startsWith_empty, lookup_empty.
  - apply map_eq. intros k.
    by rewrite clear_lastRequestTime, startsWith_empty, lookup_empty.
  - apply map_eq. intros k.
    by rewrite clear_connectionAttempts, startsWith_empty, lookup_empty.
  - apply set_eq. intros k.
    rewrite clear_blockedOperations, startsWith_empty.
    split; [by intros [_ ?] | by intros ?%not_elem_of_empty].
Qed.

Lemma filter_none_length {A} (f : A -> bool) (l : list A) :
  (forall x, x ∈ l -> f x = false) -> length (List.filter f l) = 0.
Proof.
  induction l as [| x l IH]; [done |]. intros H. cbn.
  rewrite (H x) by apply list_elem_of_here.
  apply IH. intros y Hy. apply H. by apply list_elem_of_further.
Qed.

(** X12: After [clearUserAttempts userId], [getUserStatus userId] reports no
    active retry, no blocked operation and no WebSocket connection. *)
Theorem status_after_clear_is_empty (userId : string) (h : RateLimitHandler) :
  let status := getUserStatus userId (clearUserAttempts userId h) in
  activeRetries status = 0 /\ blockedCount status = 0 /\ wsConnections status = 0.
Proof.
  intros status. unfold status, getUserStatus.
  cbn [activeRetries blockedCount wsConnections].
  repeat split; apply filter_none_length; intros k Hk.
  - apply elem_of_keys in Hk as [v Hv].
    rewrite clear_retryAttempts in Hv. by destruct (startsWith k userId).
  - apply elem_of_elements, clear_blockedOperations in Hk as [_ Hk]. exact Hk.
  - apply elem_of_keys in Hk as [v Hv].
    rewrite clear_connectionAttempts in Hv. by destruct (startsWith k userId).
Qed.

(** * The chat page *)

Lemma ltb_asym (a b : string) : String.ltb a b = true -> String.ltb b a = false.
Proof.
  unfold String.ltb. rewrite (String.compare_antisym a b).
  by destruct (String.compare b a).
Qed.

Lemma ltb_total (a b : string) :
  String.ltb a b = false -> String.ltb b a = false -> a = b.
Proof.
  unfold String.ltb. rewrite (String.compare_antisym a b).
  destruct (String.compare b a) eqn:Hc; try discriminate.
  intros _ _. symmetry. by apply String.compare_eq_iff.
Qed.

(** X13: The channel id does not depend on which of the two users computes it,
    and it is one id, a dash and the other id, the smaller id first. *)
Theorem channelIdOf_symmetric (a b : string) :
  channelIdOf a b = channelIdOf b a /\
  (channelIdOf a b = a ++ "-" ++ b \/ channelIdOf a b = b ++ "-" ++ a) /\
  (String.ltb a b = true -> channelIdOf a b = a ++ "-" ++ b).
Proof.
  unfold channelIdOf, sortPair.
  destruct (String.ltb b a) eqn:Hba, (String.ltb a b) eqn:Hab; cbn [join].
  - by rewrite (ltb_asym _ _ Hba) in Hab.
  - split; [reflexivity |]. split; [by right | discriminate].
  - split; [reflexivity |]. split; [by left | reflexivity].
  - rewrite (ltb_total a b Hab Hba).
    split; [reflexivity |]. split; [by left | discriminate].
Qed.

(** X14: [getOrCreateChannel] always returns.  A request that resolves leaves
    its handle under the channel id, a request that rejects leaves the
    cache as it was, so that a failed creation is tried again by the next
    request; the entries of other channel ids are never changed. *)
Theorem channel_cache_changes_only_on_success (w : World)
    (authUserId channelId : string) (page : ChatPage.Page) :
  exists out page',
    ChatPage.getOrCreateChannel w authUserId channelId page = Some (out, page') /\
    (forall other, other <> channelId ->
       ChatPage.channelCache page' !! other = ChatPage.channelCache page !! other) /\
    match out with
    | Resolved handle => ChatPage.channelCache page' !! channelId = Some handle
    | Rejected _ => ChatPage.channelCache page' = ChatPage.channelCache page
    end.
Proof.
  unfold ChatPage.getOrCreateChannel.
  destruct (ChatPage.channelCache page !! channelId) as [c |] eqn:Hcache.
  - exists (Resolved c), page. by repeat split.
  - destruct (executeWithRetryFuel_bounded w authUserId "channel-create" 2 3
                (ChatPage.runtime page)) as (out & rt' & Hrun & _); [lia |].
    unfold executeWithRetry. rewrite Hrun.
    destruct out as [c | e]; eexists _, _; (split; [reflexivity |]);
      cbn [ChatPage.channelCache].
    + split; [| apply lookup_insert_eq].
      intros other Hne. by rewrite lookup_insert_ne.
    + by split.
Qed.

(** ** Video clients *)

(** X15: [getOrCreateVideoClient] stores a client only when its connection
    succeeded: a call that rejects leaves no entry that was not there, and
    a call that resolves leaves the returned client under the user id; the
    clients of other users are never changed.  A stored client whose
    [user] is the requested user is returned as it is, without a
    constructor call. *)
Theorem video_client_stored_only_when_connected (sdk : VideoClients.Sdk)
    (userId : string) (st : VideoClients.State) :
  let '(out, st') := VideoClients.getOrCreateVideoClient sdk userId st in
  (forall other, other <> userId ->
     VideoClients.videoClientMap st' !! other =
     VideoClients.videoClientMap st !! other) /\
  match out with
  | Resolved client => VideoClients.videoClientMap st' !! userId = Some client
  | Rejected _ =>
      VideoClients.videoClientMap st' ⊆ VideoClients.videoClientMap st
  end /\
  (forall client,
     VideoClients.videoClientMap st !! userId = Some client ->
     VideoClients.userOf sdk client = VideoClients.UserIs (Some userId) ->
     out = Resolved client /\ st' = st).
Proof.
  unfold VideoClients.getOrCreateVideoClient.
  destruct (VideoClients.videoClientMap st !! userId) as [c |] eqn:Hl;
    [destruct (VideoClients.userOf sdk c) as [| [id |]] eqn:Hu;
       [| destruct (String.eqb_spec id userId) as [-> | Hid] |] |];
    try destruct (VideoClients.creation sdk _);
    cbn [VideoClients.videoClientMap VideoClients.constructed];
    (split;
     [ intros other Hne; by rewrite ?lookup_insert_ne, ?lookup_delete_ne by done
     | split;
       [ first [ apply lookup_insert_eq | apply delete_subseteq | done ]
       | intros cl Hcl Hucl;
         first [ discriminate Hcl
               | injection Hcl as <-; rewrite Hu in Hucl;
                 first [ discriminate Hucl
                       | by injection Hucl as ->
                       | done ] ] ] ]).
Qed.

(** X16: [disconnectVideoClient] with a user id removes the client of that user,
    after calling [disconnectUser] on it, and leaves the other clients;
    without a user id, or with the empty string, it calls [disconnectUser]
    on every stored client and empties the map.  Afterwards a request for
    the user constructs a new client. *)
Theorem disconnect_removes_client (sdk : VideoClients.Sdk) (userId : option string)
    (st : VideoClients.State) :
  let '(disconnected, st') := VideoClients.disconnectVideoClient userId st in
  (if truthy userId then
     let id := default "" userId in
     VideoClients.videoClientMap st' !! id = None /\
     (forall other, other <> id ->
        VideoClients.videoClientMap st' !! other =
        VideoClients.videoClientMap st !! other) /\
     disconnected =
       match VideoClients.videoClientMap st !! id with
       | Some client => [client]
       | None => []
       end /\
     VideoClients.constructed
       (VideoClients.getOrCreateVideoClient sdk id st').2 =
     S (VideoClients.constructed st)
   else
     VideoClients.videoClientMap st' = ∅ /\
     forall client,
       client ∈ disconnected <->
       exists id, VideoClients.videoClientMap st !! id = Some client).
Proof.
  unfold VideoClients.disconnectVideoClient.
  destruct (truthy userId) eqn:Ht; cbv zeta.
  - set (id := default "" userId).
    destruct (VideoClients.videoClientMap st !! id) as [c |] eqn:Hl.
    + cbn [VideoClients.videoClientMap VideoClients.constructed].
      split; [apply lookup_delete_eq |].
      split; [intros other Hne; by rewrite lookup_delete_ne |].
      split; [done |].
      unfold VideoClients.getOrCreateVideoClient.
      cbn [VideoClients.videoClientMap]. rewrite lookup_delete_eq.
      by destruct (VideoClients.creation sdk _).
    + split; [exact Hl |]. split; [done |]. split; [done |].
      unfold VideoClients.getOrCreateVideoClient. rewrite Hl.
      by destruct (VideoClients.creation sdk _).
  - split; [done |]. intros client.
    rewrite list_elem_of_In, in_map_iff. split.
    + intros [[k v] [<- Hin]]. exists k.
      by apply list_elem_of_In, elem_of_map_to_list in Hin.
    + intros [k Hk]. exists (k, client). split; [done |].
      by apply list_elem_of_In, elem_of_map_to_list.
Qed.

(** ** Cleanup of the chat page *)

Lemma cleanupUser_spec (cw : ChatSession.CleanupWorld) (authUserId : option string)
    (s : ChatSession.Session) :
  let s1 := ChatSession.cleanupUser cw authUserId s in
  ChatPage.channelCache (ChatSession.page s1) =
    ChatPage.channelCache (ChatSession.page s) /\
  ChatSession.globalStreamClient s1 = ChatSession.globalStreamClient s /\
  ChatSession.connectionPromise s1 = ChatSession.connectionPromise s /\
  ChatSession.mounted s1 = ChatSession.mounted s /\
  (ChatSession.chatClient s1, ChatSession.channel s1, ChatSession.videoClient s1,
   ChatSession.connectionState s1, ChatSession.error s1) =
  (ChatSession.chatClient s, ChatSession.channel s, ChatSession.videoClient s,
   ChatSession.connectionState s, ChatSession.error s) /\
  (truthy authUserId = true ->
   let id := default "" authUserId in
   let h1 := handler (ChatPage.runtime (ChatSession.page s1)) in
   (forall key, startsWith key id = true ->
      retryAttempts h1 !! key = None /\ lastRequestTime h1 !! key = None /\
      connectionAttempts h1 !! key = None /\ key ∉ blockedOperations h1) /\
   VideoClients.videoClientMap (ChatSession.videoClients s1) !! id = None).
Proof.
  unfold ChatSession.cleanupUser.
  destruct authUserId as [uid |]; [| by repeat split].
  destruct (truthy (Some uid)) eqn:Ht; cbv zeta; [| by repeat split].
  unfold VideoClients.disconnectVideoClient.
  cbv beta zeta iota delta [from_option id].
  rewrite Ht.
  assert (Hclear : forall h key, startsWith key uid = true ->
            retryAttempts (clearUserAttempts uid h) !! key = None /\
            lastRequestTime (clearUserAttempts uid h) !! key = None /\
            connectionAttempts (clearUserAttempts uid h) !! key = None /\
            key ∉ blockedOperations (clearUserAttempts uid h)).
  { intros h key Hk.
    rewrite clear_retryAttempts, clear_lastRequestTime, clear_connectionAttempts,
      clear_blockedOperations, Hk.
    repeat split. by intros [_ ?]. }
  destruct (VideoClients.videoClientMap (ChatSession.videoClients s) !! uid)
    as [c |] eqn:Hl; cbn;
    (split; [reflexivity |]); (split; [reflexivity |]); (split; [reflexivity |]);
    (split; [reflexivity |]); (split; [reflexivity |]); intros _; split.
  - intros key Hk.
    destruct (Hclear (handler (ChatPage.runtime (ChatSession.page s))) key Hk)
      as (Hr & Hq & Hc & Hb).
    split; [exact Hr |]. split; [exact Hq |]. split; [exact Hc |].
    intros Hin. apply fireDue_subseteq in Hin. by apply Hb.
  - apply lookup_delete_eq.
  - intros key Hk. by apply Hclear.
  - exact Hl.
Qed.

Lemma cleanupConnection_clears (cw : ChatSession.CleanupWorld)
    (authUserId : option string) (s : ChatSession.Session) :
  (ChatSession.chatHasUser cw = true -> ChatSession.chatDisconnectError cw = None) ->
  let s' := ChatSession.cleanupConnection cw authUserId s in
  ChatPage.channelCache (ChatSession.page s') = ∅ /\
  ChatSession.globalStreamClient s' = None /\
  ChatSession.connectionPromise s' = false /\
  ChatSession.videoClients s' =
    ChatSession.videoClients (ChatSession.cleanupUser cw authUserId s).
Proof.
  intros Hok. unfold ChatSession.cleanupConnection. cbv zeta.
  set (s1 := ChatSession.cleanupUser cw authUserId s).
  destruct (ChatSession.globalStreamClient s1);
    [destruct (ChatSession.chatHasUser cw); [rewrite (Hok eq_refl) |] |];
    cbn [ChatSession.mounted]; destruct (ChatSession.mounted s1); by repeat split.
Qed.

(** X17: When the chat client has no user or its [disconnectUser] succeeds,
    [cleanupConnection] leaves no channel in the cache, no chat client and
    no connection promise; with a signed-in user, nothing is stored any
    more in the handler under a key that starts with the user's id, and
    the user has no video client. *)
Theorem cleanup_resets_session (cw : ChatSession.CleanupWorld)
    (authUserId : option string) (s : ChatSession.Session) :
  (ChatSession.chatHasUser cw = true -> ChatSession.chatDisconnectError cw = None) ->
  let s' := ChatSession.cleanupConnection cw authUserId s in
  ChatPage.channelCache (ChatSession.page s') = ∅ /\
  ChatSession.globalStreamClient s' = None /\
  ChatSession.connectionPromise s' = false /\
  (ChatSession.mounted s = true ->
   ChatSession.chatClient s' = None /\ ChatSession.channel s' = None /\
   ChatSession.videoClient s' = None /\
   ChatSession.connectionState s' = "disconnected" /\
   ChatSession.error s' = None) /\
  (truthy authUserId = true ->
   let id := default "" authUserId in
   let h' := handler (ChatPage.runtime (ChatSession.page s')) in
   (forall key, startsWith key id = true ->
      retryAttempts h' !! key = None /\ lastRequestTime h' !! key = None /\
      connectionAttempts h' !! key = None /\ key ∉ blockedOperations h') /\
   VideoClients.videoClientMap (ChatSession.videoClients s') !! id = None).
Proof.
  intros Hok s'. unfold s', ChatSession.cleanupConnection. cbv zeta.
  destruct (cleanupUser_spec cw authUserId s)
    as (_ & _ & _ & Hm & _ & Huser).
  set (s1 := ChatSession.cleanupUser cw authUserId s) in *.
  assert (Hnone : (if match ChatSession.globalStreamClient s1 with
                      | Some _ => ChatSession.chatHasUser cw
                      | None => false
                      end
                   then ChatSession.chatDisconnectError cw else None) = None).
  { destruct (ChatSession.globalStreamClient s1); [| done].
    destruct (ChatSession.chatHasUser cw); [by apply Hok | done]. }
  rewrite Hnone.
  destruct (match ChatSession.globalStreamClient s1 with
            | Some _ => ChatSession.chatHasUser cw
            | None => false
            end) eqn:Hconn;
    cbn [ChatSession.mounted]; rewrite Hm;
    destruct (ChatSession.mounted s) eqn:Hmount; cbn;
    (split; [done |]); (split; [done |]); (split; [done |]);
    (split; [first [done | discriminate] |]);
    intros Ht; destruct (Huser Ht) as [Hkeys Hvideo];
    (split; [| exact Hvideo]);
    intros key Hk; destruct (Hkeys key Hk) as (Hr & Hq & Hc & Hb);
    repeat split; try done;
    intros Hin; apply fireDue_subseteq in Hin; by apply Hb.
Qed.

Lemma cleanup_resets_session_witness :
  let cw := {| ChatSession.videoDisconnectTime := 40;
               ChatSession.chatHasUser := true;
               ChatSession.chatDisconnectTime := 60;
               ChatSession.chatDisconnectError := None |} in
  let s := {| ChatSession.page :=
                {| ChatPage.channelCache := {[ "u1-u2" := 7 ]};
                   ChatPage.runtime := newRuntime t0 |};
              ChatSession.videoClients :=
                {| VideoClients.videoClientMap := {[ "u1" := 8 ]};
                   VideoClients.constructed := 1 |};
              ChatSession.globalStreamClient := Some 5;
              ChatSession.connectionPromise := false;
              ChatSession.mounted := true;
              ChatSession.chatClient := Some 5;
              ChatSession.channel := Some 7;
              ChatSession.videoClient := Some 8;
              ChatSession.connectionState := "connected";
              ChatSession.error := None |} in
  ChatPage.channelCache
    (ChatSession.page (ChatSession.cleanupConnection cw (Some "u1") s)) = ∅.
Proof.
  intros cw s.
  refine (proj1 (cleanup_resets_session cw (Some "u1") s _)).
  reflexivity.
Defined.

(** X18: When [disconnectUser] of the chat client throws, [cleanupConnection]
    stops there: the channel cache, the chat client, the connection promise
    and the state of the component stay as they were, although the rate
    limit data and the video client of the user are already gone. *)
Theorem cleanup_stops_at_disconnect_error (cw : ChatSession.CleanupWorld)
    (authUserId : option string) (s : ChatSession.Session)
    (client : Value) (e : JsError) :
  ChatSession.globalStreamClient s = Some client ->
  ChatSession.chatHasUser cw = true ->
  ChatSession.chatDisconnectError cw = Some e ->
  let s' := ChatSession.cleanupConnection cw authUserId s in
  ChatPage.channelCache (ChatSession.page s') =
    ChatPage.channelCache (ChatSession.page s) /\
  ChatSession.globalStreamClient s' = Some client /\
  ChatSession.connectionPromise s' = ChatSession.connectionPromise s /\
  (ChatSession.chatClient s', ChatSession.channel s', ChatSession.videoClient s',
   ChatSession.connectionState s', ChatSession.error s') =
  (ChatSession.chatClient s, ChatSession.channel s, ChatSession.videoClient s,
   ChatSession.connectionState s, ChatSession.error s) /\
  (truthy authUserId = true ->
   let id := default "" authUserId in
   let h' := handler (ChatPage.runtime (ChatSession.page s')) in
   (forall key, startsWith key id = true ->
      retryAttempts h' !! key = None /\ lastRequestTime h' !! key = None /\
      connectionAttempts h' !! key = None /\ key ∉ blockedOperations h') /\
   VideoClients.videoClientMap (ChatSession.videoClients s') !! id = None).
Proof.
  intros Hclient Huser Herr s'. unfold s', ChatSession.cleanupConnection. cbv zeta.
  destruct (cleanupUser_spec cw authUserId s)
    as (Hcache & Hg & Hp & Hm & Hreact & Hkeys).
  set (s1 := ChatSession.cleanupUser cw authUserId s) in *.
  rewrite Hg, Hclient, Huser, Herr. cbn.
  split; [exact Hcache |]. split; [reflexivity |]. split; [exact Hp |].
  split; [exact Hreact |].
  intros Ht. destruct (Hkeys Ht) as [Hk Hvideo]. split; [| exact Hvideo].
  intros key Hkey. destruct (Hk key Hkey) as (Hr & Hq & Hc & Hb).
  repeat split; try done.
  intros Hin. apply fireDue_subseteq in Hin. by apply Hb.
Qed.

Lemma cleanup_stops_at_disconnect_error_witness :
  let cw := {| ChatSession.videoDisconnectTime := 40;
               ChatSession.chatHasUser := true;
               ChatSession.chatDisconnectTime := 60;
               ChatSession.chatDisconnectError := Some (newError "WS closed") |} in
  let s := {| ChatSession.page :=
                {| ChatPage.channelCache := {[ "u1-u2" := 7 ]};
                   ChatPage.runtime := newRuntime t0 |};
              ChatSession.videoClients :=
                {| VideoClients.videoClientMap := {[ "u1" := 8 ]};
                   VideoClients.constructed := 1 |};
              ChatSession.globalStreamClient := Some 5;
              ChatSession.connectionPromise := false;
              ChatSession.mounted := true;
              ChatSession.chatClient := Some 5;
              ChatSession.channel := Some 7;
              ChatSession.videoClient := Some 8;
              ChatSession.connectionState := "connected";
              ChatSession.error := None |} in
  ChatSession.globalStreamClient
    (ChatSession.cleanupConnection cw (Some "u1") s) = Some 5.
Proof.
  intros cw s.
  refine (proj1 (proj2 (cleanup_stops_at_disconnect_error cw (Some "u1") s 5
                          (newError "WS closed") _ _ _))); reflexivity.
Defined.

(** ** The status of a user after a terminal failure *)

Lemma filter_some_length {A} (f : A -> bool) (l : list A) (x : A) :
  x ∈ l -> f x = true -> 1 <= length (List.filter f l).
Proof.
  induction l as [| y l IH]; intros Hin Hf.
  - by apply not_elem_of_nil in Hin.
  - cbn. apply elem_of_cons in Hin as [<- | Hin].
    + rewrite Hf. cbn. lia.
    + destruct (f y); cbn; [lia | by apply IH].
Qed.

(** X19: When a call ends with one of the two terminal errors, the status of
    the user reports at least one blocked operation; with a positive retry
    budget it reports an active retry as well. *)
Theorem terminal_failure_shows_in_status (w : World)
    (userId operationType : string) (maxRetries : nat) (rt rt' : Runtime)
    (e : JsError) :
  executeWithRetry w userId operationType maxRetries rt = Some (Rejected e, rt') ->
  e = videoFailedError \/ e = rateLimitExceededError ->
  let status := getUserStatus userId (handler rt') in
  1 <= blockedCount status /\ (0 < maxRetries -> 1 <= activeRetries status).
Proof.
  intros Hrun He status.
  destruct (executeWithRetryFuel_terminal w userId operationType maxRetries _ _ _ _
              Hrun He) as [Hat Hb].
  assert (Hpre : startsWith (opKey userId operationType) userId = true)
    by apply startsWith_refl_app.
  unfold status, getUserStatus. cbn [blockedCount activeRetries]. split.
  - apply (filter_some_length _ _ (opKey userId operationType)); [| exact Hpre].
    by apply elem_of_elements.
  - intros Hpos.
    apply (filter_some_length _ _ (opKey userId operationType)); [| exact Hpre].
    apply elem_of_keys. unfold attemptOf in Hat.
    destruct (retryAttempts (handler rt') !! opKey userId operationType) as [n |];
      [by exists n |].
    cbn in Hat. lia.
Qed.

Lemma terminal_failure_shows_in_status_witness :
  let w := alwaysThrows 10 statusCode429Error in
  exists rt',
    executeWithRetry w "u1" "user-init" 2 (newRuntime t0) =
      Some (Rejected rateLimitExceededError, rt') /\
    1 <= blockedCount (getUserStatus "u1" (handler rt')).
Proof.
  intros w.
  destruct (executeWithRetry w "u1" "user-init" 2 (newRuntime t0))
    as [[out rt'] |] eqn:Hrun; [| by vm_compute in Hrun].
  assert (out = Rejected rateLimitExceededError) as ->.
  { vm_compute in Hrun. by injection Hrun as <- _. }
  exists rt'. split; [reflexivity |].
  exact (proj1 (terminal_failure_shows_in_status w "u1" "user-init" 2 (newRuntime t0)
                  rt' rateLimitExceededError Hrun (or_intror eq_refl))).
Defined.

(** ** The connection utilities *)

Lemma greater_mono (d1 d2 bound : Q) :
  (d1 <= d2)%Q ->
  ConnectionUtils.greater (Some d1) bound = true ->
  ConnectionUtils.greater (Some d2) bound = true.
Proof.
  unfold ConnectionUtils.greater. intros Hle H1.
  apply negb_true_iff in H1. apply negb_true_iff.
  destruct (Qle_bool d2 bound) eqn:H2; [| reflexivity].
  apply Qle_bool_iff in H2.
  assert (Hd : (d1 <= bound)%Q) by (eapply Qle_trans; eassumption).
  apply Qle_bool_iff in Hd. congruence.
Qed.

(** X20: For a given effective type, a greater downlink never gives a worse
    estimate of the connection quality. *)
Theorem quality_monotone_in_downlink (online : bool) (type : option string)
    (d1 d2 : Q) :
  (d1 <= d2)%Q ->
  let nav d :=
    {| ConnectionUtils.onLine := online;
       ConnectionUtils.connection :=
         Some {| ConnectionUtils.effectiveType := type;
                 ConnectionUtils.downlink := Some d |} |} in
  ConnectionUtils.qualityRank (ConnectionUtils.getConnectionQuality (nav d1)) <=
  ConnectionUtils.qualityRank (ConnectionUtils.getConnectionQuality (nav d2)).
Proof.
  intros Hle nav. unfold nav, ConnectionUtils.getConnectionQuality.
  cbn [ConnectionUtils.connection ConnectionUtils.downlink
       ConnectionUtils.effectiveType].
  generalize (greater_mono d1 d2 10 Hle), (greater_mono d1 d2 1.5 Hle).
  destruct (ConnectionUtils.greater (Some d1) 10),
           (ConnectionUtils.greater (Some d2) 10),
           (ConnectionUtils.greater (Some d1) 1.5),
           (ConnectionUtils.greater (Some d2) 1.5),
           (ConnectionUtils.isString type "4g"),
           (ConnectionUtils.isString type "3g"),
           (ConnectionUtils.isString type "2g");
    intros H10 H15;
    try discriminate (H10 eq_refl); try discriminate (H15 eq_refl);
    vm_compute; lia.
Qed.

Lemma quality_monotone_in_downlink_witness :
  ConnectionUtils.qualityRank
    (ConnectionUtils.getConnectionQuality
       {| ConnectionUtils.onLine := true;
          ConnectionUtils.connection :=
            Some {| ConnectionUtils.effectiveType := Some "2g";
                    ConnectionUtils.downlink := Some 1%Q |} |}) <=
  ConnectionUtils.qualityRank
    (ConnectionUtils.getConnectionQuality
       {| ConnectionUtils.onLine := true;
          ConnectionUtils.connection :=
            Some {| ConnectionUtils.effectiveType := Some "2g";
                    ConnectionUtils.downlink := Some 2%Q |} |}).
Proof.
  apply (quality_monotone_in_downlink true (Some "2g") 1 2).
  vm_compute. discriminate.
Defined.

(** X21: A browser that is online and whose network is not stable has a
    connection of the effective type slow-2g; the estimate of its quality
    then depends on the downlink alone, and is never poor or unknown. *)
Theorem unstable_network_quality (nav : ConnectionUtils.Navigator) :
  ConnectionUtils.onLine nav = true ->
  ConnectionUtils.isNetworkStable nav = false ->
  exists c,
    ConnectionUtils.connection nav = Some c /\
    ConnectionUtils.effectiveType c = Some "slow-2g" /\
    ConnectionUtils.getConnectionQuality nav =
      if ConnectionUtils.greater (ConnectionUtils.downlink c) 10 then "excellent"
      else if ConnectionUtils.greater (ConnectionUtils.downlink c) 1.5 then "good"
      else "very-poor".
Proof.
  unfold ConnectionUtils.isNetworkStable, ConnectionUtils.getConnectionQuality.
  intros -> Hs. cbn [andb] in Hs.
  destruct (ConnectionUtils.connection nav) as [c |]; [| discriminate].
  exists c. split; [reflexivity |].
  apply negb_false_iff in Hs. unfold ConnectionUtils.isString in *.
  destruct (ConnectionUtils.effectiveType c) as [t |]; [| discriminate].
  apply String.eqb_eq in Hs as ->. split; [reflexivity |].
  cbn. by rewrite !orb_false_r.
Qed.

Lemma unstable_network_quality_witness :
  exists c,
    Some {| ConnectionUtils.effectiveType := Some "slow-2g";
            ConnectionUtils.downlink := Some 12%Q |} = Some c /\
    ConnectionUtils.getConnectionQuality
      {| ConnectionUtils.onLine := true;
         ConnectionUtils.connection :=
           Some {| ConnectionUtils.effectiveType := Some "slow-2g";
                   ConnectionUtils.downlink := Some 12%Q |} |} = "excellent".
Proof.
  destruct (unstable_network_quality
              {| ConnectionUtils.onLine := true;
                 ConnectionUtils.connection :=
                   Some {| ConnectionUtils.effectiveType := Some "slow-2g";
                           ConnectionUtils.downlink := Some 12%Q |} |}
              eq_refl eq_refl) as (c & Hc & _ & Hq).
  exists c. split; [exact Hc |].
  cbn [ConnectionUtils.connection] in Hc. injection Hc as <-. exact Hq.
Defined.

Section Waiting.
Variable b : ConnectionUtils.Browser.
Variables timeout startTime : Z.
Hypothesis lag_nonneg : forall k, (0 <= ConnectionUtils.timerLag b k)%Z.

(** The loop, started at its [checks]-th check with at least a second
    elapsed for every check made: it returns when the fuel covers the
    seconds that are left. *)
Lemma waitLoop_spec (fuel : nat) :
  forall (now : Z) (checks : nat),
  (1000 * Z.of_nat checks <= now - startTime)%Z ->
  (0 < fuel)%nat ->
  (timeout - (now - startTime) <= 1000 * Z.of_nat fuel - 1000)%Z ->
  exists r now' checks',
    ConnectionUtils.waitLoop fuel b timeout startTime now checks =
      Some (r, now', checks') /\
    (checks <= checks')%nat /\ (now <= now')%Z /\
    (forall k, (checks <= k)%nat -> (S k < checks')%nat ->
       ConnectionUtils.isNetworkStable (ConnectionUtils.navigatorAt b k) = false) /\
    ((checks < checks')%nat -> (1000 * Z.of_nat checks' < timeout + 1000)%Z) /\
    match r with
    | true =>
        (checks < checks')%nat /\ (now' - startTime < timeout)%Z /\
        ConnectionUtils.isNetworkStable
          (ConnectionUtils.navigatorAt b (Nat.pred checks')) = true
    | false =>
        (timeout <= now' - startTime)%Z /\
        forall k, (checks <= k)%nat -> (k < checks')%nat ->
          ConnectionUtils.isNetworkStable (ConnectionUtils.navigatorAt b k) = false
    end.
Proof.
  induction fuel as [| fuel IH]; intros now checks Hel Hpos Hfuel; [lia |].
  cbn [ConnectionUtils.waitLoop].
  destruct (Z.ltb_spec (now - startTime) timeout) as [Hlt | Hge].
  - destruct (ConnectionUtils.isNetworkStable (ConnectionUtils.navigatorAt b checks))
      eqn:Hs.
    + exists true, now, (S checks).
      split; [reflexivity |]. split; [lia |]. split; [lia |].
      split; [intros k ? ?; lia |]. split; [lia |].
      split; [lia |]. split; [lia | exact Hs].
    + pose proof (lag_nonneg checks) as Hlag.
      destruct (IH (now + (1000 + ConnectionUtils.timerLag b checks))%Z (S checks))
        as (r & now' & checks' & Hrun & Hc & Hn & Hbefore & Hbound & Hr);
        [lia | lia | lia |].
      exists r, now', checks'.
      split; [exact Hrun |]. split; [lia |]. split; [lia |].
      split.
      { intros k Hk1 Hk2. destruct (decide (k = checks)) as [-> | Hne];
          [exact Hs | apply Hbefore; lia]. }
      split.
      { intros _. destruct (decide (S checks < checks')%nat) as [Hlt' | Hnlt];
          [apply Hbound; lia | lia]. }
      destruct r.
      * destruct Hr as (Hr1 & Hr2 & Hr3). split; [lia |]. split; [lia | exact Hr3].
      * destruct Hr as [Hr1 Hr2]. split; [exact Hr1 |].
        intros k Hk1 Hk2. destruct (decide (k = checks)) as [-> | Hne];
          [exact Hs | apply Hr2; lia].
  - exists false, now, checks.
    split; [reflexivity |]. split; [lia |]. split; [lia |].
    split; [intros k ? ?; lia |]. split; [lia |].
    split; [exact Hge | intros k ? ?; lia].
Qed.
End Waiting.

(** X22: With timers that are never early, [waitForStableConnection] returns
    after at most one check per started second of the timeout (none when
    the timeout is not positive): true at the first check that finds the
    network stable, before the timeout has elapsed, and false when every
    check has found it unstable and the timeout has elapsed. *)
Theorem wait_returns_within_timeout (b : ConnectionUtils.Browser)
    (timeout now : Z) (fuel : nat) :
  (forall k, (0 <= ConnectionUtils.timerLag b k)%Z) ->
  (Z.max timeout 0 <= 1000 * Z.of_nat fuel - 1000)%Z ->
  exists r now' checks,
    ConnectionUtils.waitForStableConnection fuel b timeout now =
      Some (r, now', checks) /\
    (1000 * Z.of_nat checks < Z.max timeout 0 + 1000)%Z /\
    (forall k, (S k < checks)%nat ->
       ConnectionUtils.isNetworkStable (ConnectionUtils.navigatorAt b k) = false) /\
    match r with
    | true =>
        (0 < checks)%nat /\ (now' - now < timeout)%Z /\
        ConnectionUtils.isNetworkStable
          (ConnectionUtils.navigatorAt b (Nat.pred checks)) = true
    | false =>
        (timeout <= now' - now)%Z /\
        forall k, (k < checks)%nat ->
          ConnectionUtils.isNetworkStable (ConnectionUtils.navigatorAt b k) = false
    end.
Proof.
  intros Hlag Hfuel. unfold ConnectionUtils.waitForStableConnection.
  destruct (waitLoop_spec b timeout now Hlag fuel now 0)
    as (r & now' & checks & Hrun & _ & _ & Hbefore & Hbound & Hr); [lia | lia | lia |].
  exists r, now', checks. split; [exact Hrun |].
  split.
  { destruct checks; [lia |]. lia. }
  split; [intros k Hk; apply Hbefore; lia |].
  destruct r.
  - exact Hr.
  - destruct Hr as [Hr1 Hr2]. split; [exact Hr1 |]. intros k Hk. apply Hr2; lia.
Qed.

Lemma wait_returns_within_timeout_witness :
  let b := {| ConnectionUtils.navigatorAt := fun k =>
                {| ConnectionUtils.onLine := (2 <=? k)%nat;
                   ConnectionUtils.connection := None |};
              ConnectionUtils.timerLag := fun _ => 4%Z |} in
  exists now',
    ConnectionUtils.waitForStableConnection 31 b 30000 t0 = Some (true, now', 3).
Proof.
  intros b.
  destruct (wait_returns_within_timeout b 30000 t0 31) as (r & now' & checks & Hrun & _);
    [intros k; cbn; lia | lia |].
  exists now'. rewrite Hrun. vm_compute in Hrun. injection Hrun as <- _ <-.
  reflexivity.
Defined.

(** ** The request counter of the chat controller *)

Lemma checkRateLimit_other (now : Z) (caller userKey : string)
    (requestCounts : gmap string ChatController.Requests) :
  caller <> userKey ->
  (ChatController.checkRateLimit now caller requestCounts).2 !! userKey =
  requestCounts !! userKey.
Proof.
  intros Hne. unfold ChatController.checkRateLimit.
  destruct (requestCounts !! caller) as [r |]; [| by apply lookup_insert_ne].
  destruct (_ <? _)%Z; [by apply lookup_insert_ne |].
  destruct (_ <? _)%nat; [by apply lookup_insert_ne | reflexivity].
Qed.

Lemma checkRateLimit_inside (now : Z) (userKey : string)
    (requestCounts : gmap string ChatController.Requests) (c : nat) (s : Z) :
  requestCounts !! userKey =
    Some {| ChatController.count := c; ChatController.windowStart := s |} ->
  (now - s <= 60000)%Z ->
  ChatController.checkRateLimit now userKey requestCounts =
    if (c <? 10)%nat
    then (true,
          <[userKey := {| ChatController.count := S c;
                          ChatController.windowStart := s |}]> requestCounts)
    else (false, requestCounts).
Proof.
  intros Hl Hin. unfold ChatController.checkRateLimit. rewrite Hl.
  cbn [ChatController.windowStart ChatController.count].
  unfold ChatController.RATE_LIMIT_WINDOW, ChatController.MAX_REQUESTS_PER_MINUTE.
  destruct (Z.ltb_spec 60000 (now - s)); [lia | reflexivity].
Qed.

(** Inside a window in which [c] requests are counted, [10 - c] more are
    admitted. *)
Lemma admitted_inside (userKey : string) (s : Z) (calls : list (string * Z)) :
  forall (requestCounts : gmap string ChatController.Requests) (c : nat),
  requestCounts !! userKey =
    Some {| ChatController.count := c; ChatController.windowStart := s |} ->
  c <= 10 ->
  Forall (fun call => call.1 = userKey -> (call.2 - s <= 60000)%Z) calls ->
  (ChatController.admitted userKey calls requestCounts).1 =
    Nat.min (length (ChatController.callsOf userKey calls)) (10 - c) /\
  (ChatController.admitted userKey calls requestCounts).2 !! userKey =
    Some {| ChatController.count :=
              c + Nat.min (length (ChatController.callsOf userKey calls)) (10 - c);
            ChatController.windowStart := s |}.
Proof.
  induction calls as [| [caller now] calls IH]; intros requestCounts c Hl Hc Hin.
  { cbn. rewrite Nat.add_0_r. by split. }
  apply Forall_cons in Hin as [Hnow Hin]. cbn [fst snd] in Hnow.
  cbn [ChatController.admitted]. unfold ChatController.callsOf. cbn [List.filter fst].
  fold (ChatController.callsOf userKey calls).
  destruct (String.eqb_spec caller userKey) as [-> | Hne].
  - rewrite (checkRateLimit_inside now userKey requestCounts c s Hl (Hnow eq_refl)).
    destruct (Nat.ltb_spec c 10) as [Hlt | Hge].
    + destruct (IH (<[userKey := {| ChatController.count := S c;
                                    ChatController.windowStart := s |}]> requestCounts)
                   (S c)) as [Hn Hm]; [by apply lookup_insert_eq | lia | exact Hin |].
      destruct (ChatController.admitted userKey calls _) as [n m'].
      cbn [fst snd andb] in *. rewrite Hn, Hm. cbn [length].
      split; [lia | do 2 f_equal; lia].
    + destruct (IH requestCounts c Hl Hc Hin) as [Hn Hm].
      destruct (ChatController.admitted userKey calls _) as [n m'].
      cbn [fst snd andb] in *. rewrite Hn, Hm. cbn [length].
      split; [lia | do 2 f_equal; lia].
  - destruct (ChatController.checkRateLimit now caller requestCounts)
      as [ok m1] eqn:Hcheck.
    assert (Hl1 : m1 !! userKey =
                  Some {| ChatController.count := c; ChatController.windowStart := s |}).
    { rewrite <- Hl. replace m1 with
        (ChatController.checkRateLimit now caller requestCounts).2
        by (by rewrite Hcheck).
      by apply checkRateLimit_other. }
    destruct (IH m1 c Hl1 Hc Hin) as [Hn Hm].
    destruct (ChatController.admitted userKey calls m1) as [n m'].
    rewrite andb_false_r. cbn [fst snd] in *. by split.
Qed.

(** X23: A request of a user without a window, or more than a minute after the
    start of the window, opens a window and is counted in it; of this
    request and the later ones of the user that come within a minute of
    it, exactly the first ten are admitted, whatever other users request in
    between. *)
Theorem window_admits_first_ten (userKey : string) (start : Z)
    (rest : list (string * Z))
    (requestCounts : gmap string ChatController.Requests) :
  match requestCounts !! userKey with
  | Some r => (60000 < start - ChatController.windowStart r)%Z
  | None => True
  end ->
  Forall (fun call => call.1 = userKey -> (call.2 - start <= 60000)%Z) rest ->
  let '(n, requestCounts') :=
    ChatController.admitted userKey ((userKey, start) :: rest) requestCounts in
  n = Nat.min (S (length (ChatController.callsOf userKey rest))) 10 /\
  requestCounts' !! userKey =
    Some {| ChatController.count := n; ChatController.windowStart := start |}.
Proof.
  intros Hopen Hin. cbn [ChatController.admitted].
  assert (Hfirst : ChatController.checkRateLimit start userKey requestCounts =
            (true, <[userKey := {| ChatController.count := 1;
                                   ChatController.windowStart := start |}]>
                     requestCounts)).
  { unfold ChatController.checkRateLimit.
    destruct (requestCounts !! userKey) as [r |]; [| reflexivity].
    unfold ChatController.RATE_LIMIT_WINDOW.
    destruct (Z.ltb_spec 60000 (start - ChatController.windowStart r));
      [reflexivity | lia]. }
  rewrite Hfirst.
  destruct (admitted_inside userKey start rest
              (<[userKey := {| ChatController.count := 1;
                               ChatController.windowStart := start |}]> requestCounts)
              1) as [Hn Hm]; [by apply lookup_insert_eq | lia | exact Hin |].
  destruct (ChatController.admitted userKey rest _) as [n m'].
  cbn [fst snd] in *. rewrite String.eqb_refl. cbn [andb].
  rewrite Hm, Hn. split; [lia | do 2 f_equal; lia].
Qed.

Lemma window_admits_first_ten_witness :
  (ChatController.admitted "u1"
     (("u1", t0) :: repeat ("u1", (t0 + 500)%Z) 11 ++ [("u2", (t0 + 700)%Z)])%list
     ∅).1 = 10.
Proof.
  pose proof (window_admits_first_ten "u1" t0
                (repeat ("u1", (t0 + 500)%Z) 11 ++ [("u2", (t0 + 700)%Z)])%list ∅) as H.
  destruct (ChatController.admitted "u1" _ ∅) as [n m'].
  destruct H as [-> _].
  - exact I.
  - repeat (apply Forall_cons; split; [intros _; vm_compute; discriminate |]).
    apply Forall_nil_2.
  - reflexivity.
Defined.

(** ** The call page *)

(** X24: A [cleanup] that runs to its end before another one starts
    leaves no call, no client and no ref behind; it leaves the call of
    [callRef] and disconnects the client of [clientRef] once, and a cleanup
    after it changes nothing.  The refs are cleared only after the awaits,
    though: a cleanup that starts while another is suspended in [leave]
    finds the call still in [callRef] and calls [leave] on it again, and
    likewise for the client and [disconnectUser]. *)
Theorem call_cleanup_settles (p : CallPage.Page) :
  let p' := CallPage.cleanup p in
  CallPage.callRef p' = None /\ CallPage.clientRef p' = None /\
  CallPage.client p' = None /\ CallPage.call p' = None /\
  CallPage.leftCalls p' =
    (CallPage.leftCalls p ++ option_list (CallPage.callRef p))%list /\
  CallPage.disconnectedClients p' =
    (CallPage.disconnectedClients p ++ option_list (CallPage.clientRef p))%list /\
  CallPage.cleanup p' = p' /\
  let '(first, p1) := CallPage.cleanupStep CallPage.Started p in
  let '(second, p2) := CallPage.cleanupStep CallPage.Started p1 in
  match CallPage.callRef p, CallPage.clientRef p with
  | Some c, _ =>
      first = CallPage.Leaving /\ second = CallPage.Leaving /\
      CallPage.callRef p1 = Some c /\
      CallPage.leftCalls p2 = (CallPage.leftCalls p ++ [c; c])%list
  | None, Some c =>
      first = CallPage.Disconnecting /\ second = CallPage.Disconnecting /\
      CallPage.clientRef p1 = Some c /\
      CallPage.disconnectedClients p2 =
        (CallPage.disconnectedClients p ++ [c; c])%list
  | None, None => first = CallPage.Finished /\ p2 = p1
  end.
Proof.
  destruct p as [cl c l e i [clr |] [cr |] cf lc dc]; cbn;
    rewrite ?app_nil_r, <- ?app_assoc; repeat split; reflexivity.
Qed.

Lemma orElse_nonempty (value : option string) (fallback : string) :
  fallback <> "" -> CallPage.orElse value fallback <> "".
Proof.
  intros Hf. unfold CallPage.orElse, truthy.
  destruct value as [s |]; [| exact Hf]. cbn.
  destruct (String.eqb_spec s ""); [exact Hf | assumption].
Qed.

Lemma initializeFailed_spec (e : JsError) (p : CallPage.Page) :
  let p' := CallPage.initializeFailed e p in
  CallPage.isInitialized p' = CallPage.isInitialized p /\
  CallPage.isLoading p' = false /\
  CallPage.constructedFor p' = CallPage.constructedFor p /\
  (exists msg, CallPage.error p' = Some msg /\ msg <> "") /\
  CallPage.client p' = None /\ CallPage.call p' = None /\
  CallPage.clientRef p' = None /\ CallPage.callRef p' = None /\
  CallPage.leftCalls p' =
    (CallPage.leftCalls p ++ option_list (CallPage.callRef p))%list /\
  CallPage.disconnectedClients p' =
    (CallPage.disconnectedClients p ++ option_list (CallPage.clientRef p))%list.
Proof.
  assert (Hmsg : CallPage.orElse (Some (message e)) "Failed to join call" <> "")
    by (apply orElse_nonempty; discriminate).
  destruct p as [cl c l er i [clr |] [cr |] cf lc dc]; cbn;
    rewrite ?app_nil_r; repeat split; eauto.
Qed.

(** X25: An [initializeCall] that passes its guard ends either with the client
    and the joined call in the state and in the refs and no error, or with
    an error message that is not empty and no client, call or ref left,
    the call and the client made so far having been left and
    disconnected.  Either way the page has stopped loading and stays
    marked as initialized, so that a further [initializeCall] does
    nothing. *)
Theorem initialize_call_all_or_nothing (sdk : CallPage.Sdk)
    (token callId : option string) (u : CallPage.AuthUser) (p : CallPage.Page) :
  CallPage.isInitialized p = false ->
  truthy token = true ->
  truthy callId = true ->
  let p' := CallPage.initializeCall sdk token (Some u) callId p in
  CallPage.isInitialized p' = true /\
  CallPage.isLoading p' = false /\
  CallPage.constructedFor p' =
    (CallPage.constructedFor p ++ [CallPage.videoUserOf u])%list /\
  CallPage.initializeCall sdk token (Some u) callId p' = p' /\
  ((exists videoClient videoCall,
      CallPage.newClient sdk (length (CallPage.constructedFor p)) =
        CallPage.Returns videoClient /\
      CallPage.callOf sdk videoClient = CallPage.Returns videoCall /\
      CallPage.join sdk videoCall = None /\
      CallPage.client p' = Some videoClient /\
      CallPage.call p' = Some videoCall /\
      CallPage.clientRef p' = Some videoClient /\
      CallPage.callRef p' = Some videoCall /\
      CallPage.error p' = None /\
      CallPage.leftCalls p' = CallPage.leftCalls p /\
      CallPage.disconnectedClients p' = CallPage.disconnectedClients p) \/
   ((exists msg, CallPage.error p' = Some msg /\ msg <> "") /\
    CallPage.client p' = None /\ CallPage.call p' = None /\
    CallPage.clientRef p' = None /\ CallPage.callRef p' = None /\
    (forall videoClient,
       CallPage.newClient sdk (length (CallPage.constructedFor p)) =
         CallPage.Returns videoClient ->
       videoClient ∈ CallPage.disconnectedClients p' /\
       forall videoCall,
         CallPage.callOf sdk videoClient = CallPage.Returns videoCall ->
         videoCall ∈ CallPage.leftCalls p'))).
Proof.
  intros Hinit Htoken Hcall p'.
  assert (Hagain : CallPage.isInitialized p' = true ->
            CallPage.initializeCall sdk token (Some u) callId p' = p').
  { intros Hq. unfold CallPage.initializeCall at 1. by rewrite Hq. }
  set (again := CallPage.initializeCall sdk token (Some u) callId p') in *.
  clearbody again. revert Hagain.
  unfold p', CallPage.initializeCall.
  rewrite Hinit, Htoken, Hcall. cbn [orb negb]. cbv zeta.
  set (p0 := CallPage.logConstruction _ _).
  assert (Hp0 : CallPage.isInitialized p0 = true /\
                CallPage.constructedFor p0 =
                  (CallPage.constructedFor p ++ [CallPage.videoUserOf u])%list /\
                CallPage.leftCalls p0 = CallPage.leftCalls p /\
                CallPage.disconnectedClients p0 = CallPage.disconnectedClients p)
    by (by destruct p).
  destruct Hp0 as (Hi0 & Hc0 & Hl0 & Hd0).
  replace (length (CallPage.constructedFor
             (CallPage.setError None
                (CallPage.setIsLoading true (CallPage.setIsInitialized true p)))))
    with (length (CallPage.constructedFor p)) by (by destruct p).
  destruct (CallPage.newClient sdk (length (CallPage.constructedFor p)))
    as [e | videoClient] eqn:Hnew.
  { destruct (initializeFailed_spec e p0)
      as (Hi & Hl & Hc & Hmsg & Hcl & Hca & Hclr & Hcar & _).
    intros Hagain.
    split; [congruence |]. split; [exact Hl |]. split; [congruence |].
    split; [apply Hagain; congruence |].
    right. split; [exact Hmsg |]. split; [exact Hcl |]. split; [exact Hca |].
    split; [exact Hclr |]. split; [exact Hcar |]. intros vc [=]. }
  set (p1 := CallPage.setClientRef _ p0).
  destruct (CallPage.callOf sdk videoClient) as [e | videoCall] eqn:Hcallof.
  { destruct (initializeFailed_spec e p1)
      as (Hi & Hl & Hc & Hmsg & Hcl & Hca & Hclr & Hcar & _ & Hdis).
    intros Hagain.
    split; [by rewrite Hi |]. split; [exact Hl |]. split; [by rewrite Hc |].
    split; [apply Hagain; by rewrite Hi |].
    right. split; [exact Hmsg |]. split; [exact Hcl |]. split; [exact Hca |].
    split; [exact Hclr |]. split; [exact Hcar |]. intros vc [= <-]. split.
    - rewrite Hdis. apply elem_of_app. right. apply list_elem_of_here.
    - intros c. rewrite Hcallof. intros [=]. }
  set (p2 := CallPage.setCallRef _ p1).
  destruct (CallPage.join sdk videoCall) as [e |] eqn:Hjoin.
  { destruct (initializeFailed_spec e p2)
      as (Hi & Hl & Hc & Hmsg & Hcl & Hca & Hclr & Hcar & Hleft & Hdis).
    intros Hagain.
    split; [by rewrite Hi |]. split; [exact Hl |]. split; [by rewrite Hc |].
    split; [apply Hagain; by rewrite Hi |].
    right. split; [exact Hmsg |]. split; [exact Hcl |]. split; [exact Hca |].
    split; [exact Hclr |]. split; [exact Hcar |]. intros vc [= <-]. split.
    - rewrite Hdis. apply elem_of_app. right. apply list_elem_of_here.
    - intros c. rewrite Hcallof. intros [= <-].
      rewrite Hleft. apply elem_of_app. right. apply list_elem_of_here. }
  intros Hagain.
  split; [exact Hi0 |]. split; [reflexivity |]. split; [exact Hc0 |].
  split; [by apply Hagain |].
  left. exists videoClient, videoCall. by repeat split.
Qed.

Lemma initialize_call_all_or_nothing_witness :
  let sdk := {| CallPage.newClient := fun _ => CallPage.Returns 5;
                CallPage.callOf := fun _ => CallPage.Returns 6;
                CallPage.join := fun _ => Some (newError "SFU unreachable") |} in
  let u := {| CallPage._id := "u1"; CallPage.fullName := "Ann";
              CallPage.profilePic := None |} in
  let p := {| CallPage.client := None; CallPage.call := None;
              CallPage.isLoading := true; CallPage.error := None;
              CallPage.isInitialized := false;
              CallPage.clientRef := None; CallPage.callRef := None;
              CallPage.constructedFor := []; CallPage.leftCalls := [];
              CallPage.disconnectedClients := [] |} in
  CallPage.isInitialized
    (CallPage.initializeCall sdk (Some "token") (Some u) (Some "call-1") p) = true.
Proof.
  intros sdk u p.
  refine (proj1 (initialize_call_all_or_nothing sdk (Some "token") (Some "call-1")
                   u p _ _ _)); reflexivity.
Defined.

(** X26: The user that [useAuthUser] gives has a profile picture that is
    neither missing nor empty, so that the client of the call page is
    constructed with this picture: the fallback of [initializeCall] never
    applies. *)
Theorem auth_user_has_picture (user : CallPage.AuthUser) :
  exists picture,
    CallPage.useAuthUser (Some user) =
      Some {| CallPage._id := CallPage._id user;
              CallPage.fullName := CallPage.fullName user;
              CallPage.profilePic := Some picture |} /\
    picture <> "" /\
    (truthy (CallPage.profilePic user) = true ->
     CallPage.profilePic user = Some picture) /\
    forall authUser,
      CallPage.useAuthUser (Some user) = Some authUser ->
      CallPage.videoUserOf authUser =
        {| CallPage.id := CallPage._id user;
           CallPage.name := CallPage.fullName user;
           CallPage.image := picture |}.
Proof.
  unfold CallPage.useAuthUser.
  set (picture := if truthy (CallPage.profilePic user)
                  then default "" (CallPage.profilePic user)
                  else "/default-avatar.png").
  assert (Hne : picture <> "").
  { unfold picture, truthy.
    destruct (CallPage.profilePic user) as [s |]; [| discriminate]. cbn.
    destruct (String.eqb_spec s ""); [discriminate | assumption]. }
  exists picture. split; [reflexivity |]. split; [exact Hne |]. split.
  - unfold picture. intros Ht. rewrite Ht.
    by destruct (CallPage.profilePic user).
  - intros authUser [= <-]. unfold CallPage.videoUserOf, CallPage.orElse, truthy. cbn.
    destruct (String.eqb_spec picture ""); [contradiction | reflexivity].
Qed.

(** ** The error handler of the video call button *)

Lemma startsWith_lower (search : string) :
  forall s, startsWith s search = true ->
            startsWith (toLowerCase s) (toLowerCase search) = true.
Proof.
  induction search as [| c search IH]; intros s H; [reflexivity |].
  destruct s as [| d s]; [discriminate |].
  cbn [toLowerCase]. rewrite startsWith_cons in *.
  apply andb_true_iff in H as [Hc Hs].
  apply Ascii.eqb_eq in Hc as ->. rewrite Ascii.eqb_refl. cbn [andb].
  by apply IH.
Qed.

Lemma includes_lower (search s : string) :
  includes s search = true ->
  includes (toLowerCase s) (toLowerCase search) = true.
Proof.
  induction s as [| d s IH]; intros H.
  - cbn [includes] in H. rewrite orb_false_r in H.
    apply (startsWith_lower search "") in H. cbn [toLowerCase] in H.
    cbn [includes toLowerCase]. by rewrite H.
  - rewrite includes_cons in H. apply orb_true_iff in H as [H | H].
    + apply startsWith_lower in H. cbn [toLowerCase] in *.
      rewrite includes_cons, H. reflexivity.
    + cbn [toLowerCase]. rewrite includes_cons, (IH H). apply orb_true_r.
Qed.

(** X27: The handler of a failed video call touches the video clients only for
    an error that [isWebSocketError] recognises and that is neither a rate
    limit error nor a timeout; whatever the error, it leaves the chat
    client, the channel and the channel cache alone. *)
Theorem video_error_drops_client_only_for_websocket
    (cw : ChatSession.CleanupWorld) (authUserId : option string)
    (error : JsError) (s : ChatSession.Session) :
  let s' := (VideoCall.onError cw authUserId error s).2 in
  (ChatSession.videoClients s' <> ChatSession.videoClients s \/
   ChatSession.videoClient s' <> ChatSession.videoClient s ->
   isWebSocketError error = true /\ isRateLimitError error = false /\
   includes (message error) "timed out" = false /\
   truthy authUserId = true) /\
  ChatSession.globalStreamClient s' = ChatSession.globalStreamClient s /\
  ChatSession.chatClient s' = ChatSession.chatClient s /\
  ChatSession.channel s' = ChatSession.channel s /\
  ChatPage.channelCache (ChatSession.page s') =
    ChatPage.channelCache (ChatSession.page s).
Proof.
  unfold VideoCall.onError.
  destruct (includes (message error) "timed out") eqn:Ht;
    [cbn; split; [intros [H | H]; congruence | by repeat split] |].
  destruct (isRateLimitError error) eqn:Hr;
    [cbn; split; [intros [H | H]; congruence | by repeat split] |].
  destruct (includes (message error) "WebSocket") eqn:Hw;
    [| cbn; split; [intros [H | H]; congruence | by repeat split]].
  assert (Hws : isWebSocketError error = true).
  { apply includes_lower in Hw.
    unfold isWebSocketError, matchesAny, wsErrorIndicators. cbn [existsb].
    change (toLowerCase "WebSocket") with "websocket" in Hw. by rewrite Hw. }
  cbn [snd].
  destruct (truthy authUserId) eqn:Hu;
    [| cbn; split; [intros [H | H]; congruence | by repeat split]].
  split; [by intros _ |].
  unfold VideoClients.disconnectVideoClient. rewrite Hu.
  destruct (VideoClients.videoClientMap (ChatSession.videoClients s) !! _);
    cbn; by repeat split.
Qed.

(** ** The chat client, the complete cleanup and the emergency reset *)

(** X28: [getStreamClient] makes one client and then returns it again and
    again.  A cleanup whose [disconnectUser] succeeds makes room for a new
    client; after a cleanup whose [disconnectUser] throws, the old client
    is returned once more. *)
Theorem stream_client_kept_until_cleanup (cw : ChatSession.CleanupWorld)
    (authUserId : option string) (fresh fresh' : Value) (s : ChatSession.Session) :
  let '(client, s1) := ChatSession.getStreamClient fresh s in
  ChatSession.getStreamClient fresh' s1 = (client, s1) /\
  (ChatSession.getStreamClient fresh'
     (ChatSession.cleanupConnection cw authUserId s1)).1 =
    match ChatSession.chatHasUser cw, ChatSession.chatDisconnectError cw with
    | true, Some _ => client
    | _, _ => fresh'
    end.
Proof.
  destruct (ChatSession.getStreamClient fresh s) as [client s1] eqn:Hget.
  assert (Hs1 : ChatSession.globalStreamClient s1 = Some client).
  { unfold ChatSession.getStreamClient in Hget.
    destruct (ChatSession.globalStreamClient s) eqn:Hg; by injection Hget as <- <-. }
  split; [unfold ChatSession.getStreamClient; by rewrite Hs1 |].
  destruct (cleanupUser_spec cw authUserId s1) as (_ & Hg & _ & Hm & _).
  unfold ChatSession.cleanupConnection. cbv zeta.
  set (s2 := ChatSession.cleanupUser cw authUserId s1) in *.
  rewrite Hg, Hs1.
  destruct (ChatSession.chatHasUser cw);
    [destruct (ChatSession.chatDisconnectError cw) |];
    unfold ChatSession.getStreamClient; cbn;
    rewrite ?Hg, ?Hs1; try reflexivity;
    by destruct (ChatSession.mounted s2).
Qed.

Lemma disconnect_all_empties (st : VideoClients.State) :
  VideoClients.videoClientMap (VideoClients.disconnectVideoClient None st).2 = ∅.
Proof. reflexivity. Qed.

(** X29: After [completeCleanup] no video client is stored, whether or not the
    cleanup of the connection went through; when it went through, the
    channel cache is empty and the chat client is gone as well. *)
Theorem complete_cleanup_leaves_no_video_client (cw : ChatSession.CleanupWorld)
    (authUserId : option string) (s : ChatSession.Session) :
  let s' := Logout.completeCleanup cw authUserId s in
  VideoClients.videoClientMap (ChatSession.videoClients s') = ∅ /\
  VideoClients.constructed (ChatSession.videoClients s') =
    VideoClients.constructed (ChatSession.videoClients s) /\
  ((ChatSession.chatHasUser cw = true -> ChatSession.chatDisconnectError cw = None) ->
   ChatPage.channelCache (ChatSession.page s') = ∅ /\
   ChatSession.globalStreamClient s' = None /\
   ChatSession.connectionPromise s' = false).
Proof.
  unfold Logout.completeCleanup. cbv zeta.
  set (s1 := ChatSession.cleanupConnection cw authUserId s).
  assert (Hcons : VideoClients.constructed (ChatSession.videoClients s1) =
                  VideoClients.constructed (ChatSession.videoClients s)).
  { unfold s1, ChatSession.cleanupConnection, ChatSession.cleanupUser. cbv zeta.
    destruct (truthy authUserId) eqn:Hu.
    - unfold VideoClients.disconnectVideoClient.
      destruct authUserId as [uid |]; [| discriminate]. cbn [default from_option id].
      rewrite Hu.
      destruct (VideoClients.videoClientMap (ChatSession.videoClients s) !! uid);
        cbn [ChatSession.globalStreamClient ChatSession.mounted];
        repeat match goal with |- context [match ?x with _ => _ end] => destruct x end;
        reflexivity.
    - repeat match goal with |- context [match ?x with _ => _ end] => destruct x end;
        reflexivity. }
  unfold VideoClients.disconnectVideoClient. cbn [truthy].
  cbn [ChatSession.videoClients VideoClients.videoClientMap VideoClients.constructed
       ChatSession.page ChatSession.globalStreamClient ChatSession.connectionPromise
       ChatSession.withRuntime ChatPage.channelCache].
  split; [reflexivity |]. split; [exact Hcons |].
  intros Hok.
  destruct (cleanupConnection_clears cw authUserId s Hok) as (Hc & Hg & Hp & _).
  by repeat split.
Qed.

(** X30: After [emergencyReset] the handler is as new: both gates let every
    request of every user through, the system is not overloaded, no user
    has anything in the status, and the timers that are still pending for
    keys blocked earlier change nothing when they fire. *)
Theorem emergency_reset_opens_every_gate (now dt : Z)
    (userId operation type : string) (rt : Runtime) :
  let h' := emergencyReset (handler rt) in
  (shouldRateLimit now userId operation h').1 = false /\
  (shouldRateLimitWebSocket now userId type h').1 = false /\
  isSystemOverloaded h' = false /\
  getUserStatus userId h' =
    {| activeRetries := 0; blockedCount := 0; wsConnections := 0;
       isOverloaded := false |} /\
  handler (advance dt (setHandler h' rt)) = newHandler.
Proof.
  intros h'. assert (Hnew : h' = newHandler) by reflexivity.
  rewrite Hnew.
  split.
  { unfold shouldRateLimit. cbn [blockedOperations newHandler lastRequestTime].
    destruct (decide _) as [Hin | _]; [by apply not_elem_of_empty in Hin |].
    rewrite lookup_empty. reflexivity. }
  split.
  { unfold shouldRateLimitWebSocket. cbn [connectionAttempts newHandler].
    rewrite lookup_empty. cbn [default from_option id firstAttempt count].
    rewrite Z.sub_diag. reflexivity. }
  split; [reflexivity |]. split; [reflexivity |].
  unfold advance, setHandler. cbn [handler timers clock blockedOperations newHandler].
  unfold setBlockedOperations, newHandler. cbn. f_equal.
  apply set_eq. intros k. split; [| by intros ?%not_elem_of_empty].
  intros Hk. by apply fireDue_subseteq in Hk.
Qed.
